(** * Arena402: paywall access control and payment settlement

    A shallow embedding of the payment core of the Arena402 API
    (packages/api/src): the schema (db/schema.ts), the payment store
    (services/payment.ts), the access ledger (services/accessGrant.ts), the
    paywall registry (services/paywall.ts), the wallet functions of the user
    service (services/user.ts), the x402 middleware (middleware/x402.ts),
    the block route and the metadata helper of the Are.na proxy
    (routes/arena.ts) and the delete route of the paywall API
    (routes/paywall.ts).

    Conventions of the embedding.
    - A table is the list of its rows in insertion order; [select ... limit 1]
      is the first matching row.
    - An [async] function is a computation in the monad [Io]: it threads the
      [World] (the store, the clock and the log of calls made to the
      facilitator) and either returns a value or throws.
    - A [uuid] primary key is a number; [defaultRandom()] is an allocator
      that returns a key not yet in the table.
    - JavaScript numbers are IEEE 754 binary64 values; the finite ones are
      represented by the rational they denote and every arithmetic result is
      rounded to the nearest binary64 value, ties to even.  The exponent
      range is not bounded (no overflow to Infinity, no subnormals): prices
      lie between 10^-6 and 10^4.
    - Strings are byte strings; [toLowerCase] acts on the ASCII letters.
    - Store calls succeed unless a unique constraint is violated; column
      widths and the rendering of [decimal] columns are not modelled (a
      column keeps the string written to it). *)

From Stdlib Require Import ZArith NArith QArith Qround Qpower Qabs.
From Stdlib Require Import String Ascii List Bool Lia Lqa.
Import ListNotations.
Open Scope string_scope.
Open Scope Z_scope.

(** ** Strings *)

Definition ascii_code (c : ascii) : Z := Z.of_nat (nat_of_ascii c).

Definition lower_ascii (c : ascii) : ascii :=
  if (65 <=? ascii_code c) && (ascii_code c <=? 90)
  then ascii_of_nat (nat_of_ascii c + 32)
  else c.

(** [String.prototype.toLowerCase] *)
Fixpoint toLowerCase (s : string) : string :=
  match s with
  | EmptyString => EmptyString
  | String c r => String (lower_ascii c) (toLowerCase r)
  end.

(** Truthiness of an optional string: [undefined] and [""] are falsy. *)
Definition truthy (o : option string) : bool :=
  match o with
  | Some s => negb (s =? "")%string
  | None => false
  end.

(** [a || b] on optional strings. *)
Definition or_else (a b : option string) : option string :=
  if truthy a then a else b.

(** [a || "literal"] *)
Definition or_default (a : option string) (d : string) : string :=
  match or_else a (Some d) with
  | Some s => s
  | None => d
  end.

(** ** Numbers: binary64 arithmetic *)

Inductive number : Type :=
| NaN : number
| Num (x : Q) : number.

(** The exponent of the binade of a positive rational:
    [2 ^ floor_log2 x <= x < 2 ^ (floor_log2 x + 1)]. *)
Definition floor_log2 (x : Q) : Z :=
  let l := Z.log2 (Qnum x) - Z.log2 (Zpos (Qden x)) in
  if Qle_bool (2 ^ l) x then l else l - 1.

Definition round_half_even (x : Q) : Z :=
  let f := Qfloor x in
  match Qcompare (x - inject_Z f) (1 # 2) with
  | Lt => f
  | Gt => f + 1
  | Eq => if Z.even f then f else f + 1
  end.

(** Nearest value with a 53-bit significand, for a positive rational. *)
Definition round_pos (x : Q) : Q :=
  let e := floor_log2 x - 52 in
  (inject_Z (round_half_even (x / 2 ^ e)) * 2 ^ e)%Q.

Definition round_binary64 (x : Q) : Q :=
  match Qcompare x 0 with
  | Eq => 0%Q
  | Gt => Qred (round_pos x)
  | Lt => Qred (- round_pos (- x))
  end.

(** [a * b] *)
Definition number_mul (a b : number) : number :=
  match a, b with
  | Num x, Num y => Num (round_binary64 (x * y))
  | _, _ => NaN
  end.

(** [a / b]; a zero divisor gives an infinity or NaN, outside the finite
    values: the model answers [NaN]. *)
Definition number_div (a b : number) : number :=
  match a, b with
  | Num x, Num y => if Qeq_bool y 0 then NaN else Num (round_binary64 (x / y))
  | _, _ => NaN
  end.

(** [a < b]: false as soon as one side is NaN. *)
Definition number_lt (a b : number) : bool :=
  match a, b with
  | Num x, Num y => match Qcompare x y with Lt => true | _ => false end
  | _, _ => false
  end.

(** *** Reading numbers *)

Definition is_digit (c : ascii) : bool :=
  (48 <=? ascii_code c) && (ascii_code c <=? 57).

Definition is_whitespace (c : ascii) : bool :=
  ((9 <=? ascii_code c) && (ascii_code c <=? 13)) || (ascii_code c =? 32).

Fixpoint skip_whitespace (s : string) : string :=
  match s with
  | String c r => if is_whitespace c then skip_whitespace r else s
  | EmptyString => s
  end.

(** An optional sign: [true] for ["-"]. *)
Definition take_sign (s : string) : bool * string :=
  match s with
  | String "-" r => (true, r)
  | String "+" r => (false, r)
  | _ => (false, s)
  end.

(** Reads the longest run of decimal digits, continuing the value [acc]:
    the new value, the number of digits read and the rest. *)
Fixpoint take_digits (acc : Z) (s : string) : Z * nat * string :=
  match s with
  | String c r =>
      if is_digit c
      then let '(v, n, rest) := take_digits (10 * acc + (ascii_code c - 48)) r in
           (v, S n, rest)
      else (acc, O, s)
  | EmptyString => (acc, O, s)
  end.

(** An exponent part [e], [e+] or [e-] followed by digits; 0 when absent. *)
Definition take_exponent (s : string) : Z :=
  match s with
  | String c r =>
      if (ascii_code c =? 101) || (ascii_code c =? 69)
      then let '(neg, r1) := take_sign r in
           let '(v, n, _) := take_digits 0 r1 in
           match n with
           | O => 0
           | S _ => if neg then - v else v
           end
      else 0
  | EmptyString => 0
  end.

Definition signed (neg : bool) (x : Q) : Q := if neg then (- x)%Q else x.

(** [parseFloat]: the longest prefix that is a decimal literal (leading
    white space skipped), rounded to binary64; NaN when there is none.  The
    literal [Infinity] is not read. *)
Definition parseFloat (s : string) : number :=
  let '(neg, s1) := take_sign (skip_whitespace s) in
  let '(v1, n1, s2) := take_digits 0 s1 in
  let '(v2, n2, s3) :=
    match s2 with
    | String "." r => take_digits v1 r
    | _ => (v1, O, s2)
    end in
  match (n1 + n2)%nat with
  | O => NaN
  | S _ =>
      let e := take_exponent s3 - Z.of_nat n2 in
      Num (round_binary64 (signed neg (inject_Z v2 * 10 ^ e)))
  end.

(** [parseInt(s, 10)] *)
Definition parseInt (s : string) : number :=
  let '(neg, s1) := take_sign (skip_whitespace s) in
  let '(v, n, _) := take_digits 0 s1 in
  match n with
  | O => NaN
  | S _ => Num (round_binary64 (signed neg (inject_Z v)))
  end.

(** *** Printing numbers *)

Definition digit_char (d : Z) : ascii := ascii_of_nat (Z.to_nat (48 + d)).

Fixpoint digits_aux (fuel : nat) (n : Z) (acc : string) : string :=
  match fuel with
  | O => acc
  | S fuel' =>
      let acc' := String (digit_char (n mod 10)) acc in
      if n / 10 =? 0 then acc' else digits_aux fuel' (n / 10) acc'
  end.

(** The decimal digits of a natural number, most significant first. *)
Definition decimal_digits (n : Z) : string :=
  digits_aux (S (Z.to_nat (Z.log2 n))) n "".

Fixpoint zeros (n : nat) : string :=
  match n with
  | O => ""
  | S n' => String "0" (zeros n')
  end.

Fixpoint split_at (n : nat) (s : string) : string * string :=
  match n, s with
  | S n', String c r => let '(a, b) := split_at n' r in (String c a, b)
  | _, _ => ("", s)
  end.

(** Fixed notation of [n / 10^f] with [f] fraction digits. *)
Definition fixed_notation (n : Z) (f : nat) : string :=
  let m := decimal_digits n in
  match f with
  | O => m
  | S _ =>
      let m' := zeros (S f - String.length m) ++ m in
      let '(a, b) := split_at (String.length m' - f) m' in
      a ++ "." ++ b
  end.

(** [Number.prototype.toFixed(f)]: the integer [n] for which [n / 10^f] is
    nearest to the value, the larger one on a tie, in fixed notation.
    Values from 10^21 on, which JavaScript prints in exponential notation,
    are printed in fixed notation too. *)
Definition toFixed (x : number) (f : nat) : string :=
  match x with
  | NaN => "NaN"
  | Num q =>
      let neg := match Qcompare q 0 with Lt => true | _ => false end in
      let a := Qabs q in
      let n := Qfloor (a * inject_Z (10 ^ Z.of_nat f) + (1 # 2)) in
      (if neg then "-" else "") ++ fixed_notation n f
  end.

(** *** Digit strings (used to state what reading and printing do) *)

Fixpoint all_digits (s : string) : bool :=
  match s with
  | String c r => is_digit c && all_digits r
  | EmptyString => true
  end.

(** The value of a digit string read after the value [acc]. *)
Fixpoint read_digits (acc : Z) (s : string) : Z :=
  match s with
  | String c r => read_digits (10 * acc + (ascii_code c - 48)) r
  | EmptyString => acc
  end.

Definition no_leading_digit (s : string) : bool :=
  match s with
  | String c _ => negb (is_digit c)
  | EmptyString => true
  end.

(** ** services/payment.ts: conversion helpers *)

(** USDC has 6 decimal places. *)
Definition usdcToAtomic (usdc : string) : string :=
  toFixed (number_mul (parseFloat usdc) (Num 1000000)) 0.

Definition atomicToUsdc (atomic : string) : string :=
  toFixed (number_div (parseInt atomic) (Num 1000000)) 6.

(** The rendering of a [decimal(10, 6)] column holding [k] millionths. *)
Definition decimal_10_6 (k : Z) : string := fixed_notation k 6.

(** The conversion as the specification words it: the decimal string scaled
    by 10^6 in exact arithmetic. *)
Definition scale_decimal (usdc : string) : option Z :=
  let '(v1, n1, s2) := take_digits 0 usdc in
  match s2 with
  | String "." r =>
      let '(v2, n2, s3) := take_digits v1 r in
      if (s3 =? "")%string && (n2 <=? 6)%nat then Some (v2 * 10 ^ Z.of_nat (6 - n2)) else None
  | EmptyString => Some (v1 * 10 ^ 6)
  | _ => None
  end.

(** ** db/schema.ts *)

Definition uuid := N.
Definition timestamp := Z.

Module User.
Record t : Type := mk {
  id : uuid;
  arenaUserId : Z;
  arenaUsername : option string;
  arenaSlug : option string;
  arenaAccessToken : option string;
  walletAddress : option string;
  createdAt : timestamp;
  updatedAt : timestamp }.
End User.

Module Paywall.
Record t : Type := mk {
  id : uuid;
  blockId : Z;
  ownerUserId : option uuid;
  priceUsdc : string;
  recipientWallet : string;
  active : bool;
  createdAt : timestamp;
  updatedAt : timestamp }.
End Paywall.

Inductive PaymentStatus : Type := pending | settled | failed.

Module Payment.
Record t : Type := mk {
  id : uuid;
  paywallId : option uuid;
  payerWallet : string;
  payerUserId : option uuid;
  amountUsdc : string;
  txHash : option string;
  status : PaymentStatus;
  settledAt : option timestamp;
  createdAt : timestamp }.
End Payment.

Module AccessGrant.
Record t : Type := mk {
  id : uuid;
  blockId : Z;
  payerWallet : string;
  paymentId : option uuid;
  grantedAt : timestamp }.
End AccessGrant.

Record Db : Type := mkDb {
  users : list User.t;
  paywalls : list Paywall.t;
  payments : list Payment.t;
  accessGrants : list AccessGrant.t }.

(** ** Effects *)

(** The payload of the [x-payment] header (@x402/core/types), reduced to
    the fields the middleware reads. *)
Record PaymentRequirements : Type := mkRequirements {
  scheme : string;
  network : string;
  amount : string;
  payTo : string }.

Record PaymentPayload : Type := mkPayload {
  accepted : PaymentRequirements;
  (** [payload?.payer]: [None] when either is missing *)
  payload_payer : option string }.

Inductive PaywallErrorCode : Type :=
| INVALID_PRICE | INVALID_WALLET | NO_WALLET | ALREADY_EXISTS
| NOT_FOUND | FORBIDDEN | NOT_OWNER.

(** What a [throw] carries: an [Error], a [PaywallError] (an [Error] with a
    code) or any other value. *)
Inductive thrown : Type :=
| Error (message : string)
| PaywallError (message : string) (code : PaywallErrorCode)
| NonError.

(** [error instanceof Error ? error.message : undefined] *)
Definition error_message (e : thrown) : option string :=
  match e with
  | Error m => Some m
  | PaywallError m _ => Some m
  | NonError => None
  end.

Inductive outcome (A : Type) : Type :=
| Returned (a : A)
| Threw (e : thrown).
Arguments Returned {A} a.
Arguments Threw {A} e.

Inductive FacilitatorCall : Type :=
| VerifyCall (p : PaymentPayload) (r : PaymentRequirements)
| SettleCall (p : PaymentPayload) (r : PaymentRequirements).

Record World : Type := mkWorld {
  db : Db;
  (** the reading of [new Date()] and [defaultNow()] *)
  now : timestamp;
  (** statements sent to the store so far *)
  queries : nat;
  (** calls made to the facilitator so far, oldest first *)
  facilitator_calls : list FacilitatorCall }.

Definition Io (A : Type) : Type := World -> outcome A * World.

Definition ret {A} (a : A) : Io A := fun w => (Returned a, w).

Definition throw {A} (e : thrown) : Io A := fun w => (Threw e, w).

Definition bind {A B} (m : Io A) (k : A -> Io B) : Io B :=
  fun w =>
    match m w with
    | (Returned a, w') => k a w'
    | (Threw e, w') => (Threw e, w')
    end.

(** [try { body } catch (error) { handler }] *)
Definition try_catch {A} (body : Io A) (handler : thrown -> Io A) : Io A :=
  fun w =>
    match body w with
    | (Returned a, w') => (Returned a, w')
    | (Threw e, w') => handler e w'
    end.

Declare Scope io_scope.
Delimit Scope io_scope with io.
Notation "x <- m ;; k" := (bind m (fun x => k))
  (at level 100, m at next level, right associativity) : io_scope.
Notation "m ;;; k" := (bind m (fun _ => k))
  (at level 100, right associativity) : io_scope.
Open Scope io_scope.

Definition new_Date : Io timestamp := fun w => (Returned (now w), w).

(** ** The store (drizzle-orm over PostgreSQL) *)

(** [defaultRandom()]: a key that no row of the table has. *)
Definition fresh_uuid (used : list uuid) : uuid :=
  N.succ (fold_right N.max 0%N used).

(** One statement: it is counted, reads the store and may change it. *)
Definition statement {A} (run : Db -> timestamp -> outcome A * Db) : Io A :=
  fun w =>
    let '(r, d) := run (db w) (now w) in
    (r, mkWorld d (now w) (S (queries w)) (facilitator_calls w)).

Definition limit {R} (n : nat) (rows : list R) : list R := firstn n rows.

(** [db.select().from(table).where(cond)] with an optional [.limit(n)] *)
Definition select_from {R} (table : Db -> list R) (cond : R -> bool)
    (lim : option nat) : Io (list R) :=
  statement (fun d _ =>
    let rows := filter cond (table d) in
    (Returned (match lim with Some n => limit n rows | None => rows end), d)).

Definition update_rows {R} (set : R -> R) (cond : R -> bool) (rows : list R) : list R :=
  map (fun r => if cond r then set r else r) rows.

Definition with_paywalls (d : Db) (rows : list Paywall.t) : Db :=
  mkDb (users d) rows (payments d) (accessGrants d).

Definition with_payments (d : Db) (rows : list Payment.t) : Db :=
  mkDb (users d) (paywalls d) rows (accessGrants d).

Definition with_accessGrants (d : Db) (rows : list AccessGrant.t) : Db :=
  mkDb (users d) (paywalls d) (payments d) rows.

(** [db.update(payments).set(..).where(cond).returning()] *)
Definition update_payments (set : Payment.t -> Payment.t) (cond : Payment.t -> bool)
    : Io (list Payment.t) :=
  statement (fun d _ =>
    (Returned (map set (filter cond (payments d))),
     with_payments d (update_rows set cond (payments d)))).

(** [db.update(paywalls).set(..).where(cond).returning()] *)
Definition update_paywalls (set : Paywall.t -> Paywall.t) (cond : Paywall.t -> bool)
    : Io (list Paywall.t) :=
  statement (fun d _ =>
    (Returned (map set (filter cond (paywalls d))),
     with_paywalls d (update_rows set cond (paywalls d)))).

(** [db.delete(paywalls).where(cond)] *)
Definition delete_paywalls (cond : Paywall.t -> bool) : Io unit :=
  statement (fun d _ =>
    (Returned tt, with_paywalls d (filter (fun r => negb (cond r)) (paywalls d)))).

(** [db.delete(accessGrants).where(cond).returning()] *)
Definition delete_accessGrants (cond : AccessGrant.t -> bool) : Io (list AccessGrant.t) :=
  statement (fun d _ =>
    (Returned (filter cond (accessGrants d)),
     with_accessGrants d (filter (fun r => negb (cond r)) (accessGrants d)))).

(** [NewPayment]: the columns an insert gives; the others take their
    defaults ([id], [createdAt]) or stay null ([txHash], [settledAt]). *)
Record NewPayment : Type := mkNewPayment {
  new_paywallId : option uuid;
  new_payerWallet : string;
  new_amountUsdc : string;
  new_payerUserId : option uuid;
  new_status : PaymentStatus }.

(** [const [created] = await db.insert(payments).values(v).returning()] *)
Definition insert_payment (v : NewPayment) : Io Payment.t :=
  statement (fun d t =>
    let created :=
      Payment.mk (fresh_uuid (map Payment.id (payments d)))
        (new_paywallId v) (new_payerWallet v) (new_payerUserId v)
        (new_amountUsdc v) None (new_status v) None t in
    (Returned created, with_payments d (payments d ++ [created]))).

Record NewAccessGrant : Type := mkNewAccessGrant {
  new_blockId : Z;
  new_grant_payerWallet : string;
  new_paymentId : option uuid }.

Definition same_grant_key (blockId : Z) (wallet : string) (g : AccessGrant.t) : bool :=
  (AccessGrant.blockId g =? blockId) && (AccessGrant.payerWallet g =? wallet)%string.

(** [const [created] = await db.insert(accessGrants).values(v).returning()];
    the insert is refused when it would break [unique_block_payer]. *)
Definition insert_accessGrant (v : NewAccessGrant) : Io AccessGrant.t :=
  statement (fun d t =>
    if existsb (same_grant_key (new_blockId v) (new_grant_payerWallet v)) (accessGrants d)
    then (Threw (Error "duplicate key value violates unique constraint unique_block_payer"), d)
    else
      let created :=
        AccessGrant.mk (fresh_uuid (map AccessGrant.id (accessGrants d)))
          (new_blockId v) (new_grant_payerWallet v) (new_paymentId v) t in
      (Returned created, with_accessGrants d (accessGrants d ++ [created]))).

(** [and(eq(paywalls.blockId, blockId), eq(paywalls.active, true))] *)
Definition is_active_for (blockId : Z) (p : Paywall.t) : bool :=
  (Paywall.blockId p =? blockId) && Bool.eqb (Paywall.active p) true.

(** [rows[0] ?? null] *)
Definition first_or_null {R} (rows : list R) : option R := hd_error rows.

(** ** services/payment.ts *)

Record RecordPaymentParams : Type := mkRecordPaymentParams {
  param_paywallId : uuid;
  param_payerWallet : string;
  param_amountUsdc : string;
  param_payerUserId : option uuid }.

(** Record a new pending payment *)
Definition recordPayment (params : RecordPaymentParams) : Io Payment.t :=
  let newPayment :=
    mkNewPayment (Some (param_paywallId params))
      (toLowerCase (param_payerWallet params))
      (param_amountUsdc params)
      (param_payerUserId params)
      pending in
  insert_payment newPayment.

Definition has_id (paymentId : uuid) (p : Payment.t) : bool :=
  (Payment.id p =? paymentId)%N.

(** [.set({ status: "settled", txHash, settledAt: new Date() })] *)
Definition mark_settled (txHash : string) (t : timestamp) (p : Payment.t) : Payment.t :=
  Payment.mk (Payment.id p) (Payment.paywallId p) (Payment.payerWallet p)
    (Payment.payerUserId p) (Payment.amountUsdc p)
    (Some txHash) settled (Some t) (Payment.createdAt p).

(** [.set({ status: "failed" })] *)
Definition mark_failed (p : Payment.t) : Payment.t :=
  Payment.mk (Payment.id p) (Payment.paywallId p) (Payment.payerWallet p)
    (Payment.payerUserId p) (Payment.amountUsdc p)
    (Payment.txHash p) failed (Payment.settledAt p) (Payment.createdAt p).

(** Mark a payment as settled with transaction hash *)
Definition settlePayment (paymentId : uuid) (txHash : string) : Io (option Payment.t) :=
  t <- new_Date ;;
  updated <- update_payments (mark_settled txHash t) (has_id paymentId) ;;
  ret (first_or_null updated).

(** Mark a payment as failed with optional reason; the parameter [_reason]
    is not used. *)
Definition failPayment (paymentId : uuid) (_reason : option string) : Io (option Payment.t) :=
  updated <- update_payments mark_failed (has_id paymentId) ;;
  ret (first_or_null updated).

(** Get payment by ID *)
Definition getPaymentById (paymentId : uuid) : Io (option Payment.t) :=
  result <- select_from payments (has_id paymentId) (Some 1%nat) ;;
  ret (first_or_null result).

(** ** services/accessGrant.ts *)

(** Check if a wallet has access to a block *)
Definition hasAccess (blockId : Z) (walletAddress : string) : Io bool :=
  if (walletAddress =? "")%string then ret false
  else
    let normalizedWallet := toLowerCase walletAddress in
    result <- select_from accessGrants (same_grant_key blockId normalizedWallet) (Some 1%nat) ;;
    ret (0 <? length result)%nat.

(** Grant access to a block for a wallet *)
Definition grantAccess (blockId : Z) (walletAddress : string) (paymentId : option uuid)
    : Io AccessGrant.t :=
  let normalizedWallet := toLowerCase walletAddress in
  existing <- select_from accessGrants (same_grant_key blockId normalizedWallet) (Some 1%nat) ;;
  match existing with
  | g :: _ => ret g
  | [] =>
      let newGrant := mkNewAccessGrant blockId normalizedWallet paymentId in
      insert_accessGrant newGrant
  end.

(** Revoke access to a block for a wallet (admin only) *)
Definition revokeAccess (blockId : Z) (walletAddress : string) : Io bool :=
  let normalizedWallet := toLowerCase walletAddress in
  result <- delete_accessGrants (same_grant_key blockId normalizedWallet) ;;
  ret (0 <? length result)%nat.

Record BlockAccessStatus : Type := mkBlockAccessStatus {
  status_blockId : Z;
  isPaywalled : bool;
  status_hasAccess : bool;
  status_priceUsdc : option string;
  status_recipientWallet : option string }.

(** Get access status for a block including paywall info *)
Definition getBlockAccessStatus (blockId : Z) (walletAddress : option string)
    : Io BlockAccessStatus :=
  paywall <- select_from paywalls (is_active_for blockId) (Some 1%nat) ;;
  match paywall with
  | [] => ret (mkBlockAccessStatus blockId false true None None)
  | p0 :: _ =>
      walletHasAccess <-
        (match walletAddress with
         | Some a => if truthy walletAddress then hasAccess blockId a else ret false
         | None => ret false
         end) ;;
      ret (mkBlockAccessStatus blockId true walletHasAccess
             (Some (Paywall.priceUsdc p0)) (Some (Paywall.recipientWallet p0)))
  end.

(** ** services/user.ts *)

Definition is_hex (c : ascii) : bool :=
  is_digit c
  || ((97 <=? ascii_code c) && (ascii_code c <=? 102))
  || ((65 <=? ascii_code c) && (ascii_code c <=? 70)).

Fixpoint all_hex (s : string) : bool :=
  match s with
  | String c r => is_hex c && all_hex r
  | EmptyString => true
  end.

(** Validate Ethereum wallet address format: [/^0x[a-fA-F0-9]{40}$/] *)
Definition isValidEthereumAddress (address : string) : bool :=
  match address with
  | String "0" (String "x" r) => all_hex r && (String.length r =? 40)%nat
  | _ => false
  end.

(** ** services/paywall.ts *)

(** Minimum price in USDC *)
Definition MIN_PRICE_USDC : string := "0.01".

Record UpdatePaywallParams : Type := mkUpdatePaywallParams {
  upd_priceUsdc : option string;
  upd_recipientWallet : option string;
  upd_active : option bool }.

Record PaywallWithOwner : Type := mkPaywallWithOwner {
  paywall_row : Paywall.t;
  ownerUsername : option string;
  ownerSlug : option string }.

(** [eq(paywalls.blockId, blockId)] *)
Definition for_block (blockId : Z) (p : Paywall.t) : bool := Paywall.blockId p =? blockId.

(** [paywalls LEFT JOIN users ON paywalls.owner_user_id = users.id] *)
Definition left_join_owner (us : list User.t) (p : Paywall.t) : list PaywallWithOwner :=
  let owners :=
    filter (fun u => match Paywall.ownerUserId p with
                     | Some o => (User.id u =? o)%N
                     | None => false
                     end) us in
  match owners with
  | [] => [mkPaywallWithOwner p None None]
  | _ => map (fun u => mkPaywallWithOwner p (User.arenaUsername u) (User.arenaSlug u)) owners
  end.

(** Get paywall configuration for a block *)
Definition getPaywallByBlockId (blockId : Z) : Io (option PaywallWithOwner) :=
  result <- statement (fun d _ =>
    (Returned (limit 1 (flat_map (left_join_owner (users d))
                          (filter (for_block blockId) (paywalls d)))),
     d)) ;;
  match result with
  | [] => ret None
  | r :: _ => ret (Some r)
  end.

(** [existing.ownerUserId !== ownerUserId] *)
Definition not_owner (existing : PaywallWithOwner) (ownerUserId : uuid) : bool :=
  match Paywall.ownerUserId (paywall_row existing) with
  | Some o => negb (o =? ownerUserId)%N
  | None => true
  end.

Definition when (c : bool) (e : thrown) : Io unit :=
  if c then throw e else ret tt.

(** [{ ...updates, updatedAt }] applied to a row *)
Definition apply_updates (updates : UpdatePaywallParams) (t : timestamp) (p : Paywall.t)
    : Paywall.t :=
  Paywall.mk (Paywall.id p) (Paywall.blockId p) (Paywall.ownerUserId p)
    (match upd_priceUsdc updates with Some v => v | None => Paywall.priceUsdc p end)
    (match upd_recipientWallet updates with Some v => v | None => Paywall.recipientWallet p end)
    (match upd_active updates with Some v => v | None => Paywall.active p end)
    (Paywall.createdAt p) t.

(** Update paywall configuration *)
Definition updatePaywall (blockId : Z) (ownerUserId : uuid) (updates : UpdatePaywallParams)
    : Io (option Paywall.t) :=
  existing <- getPaywallByBlockId blockId ;;
  match existing with
  | None => throw (PaywallError "Paywall not found" NOT_FOUND)
  | Some existing =>
      when (not_owner existing ownerUserId)
        (PaywallError "You do not own this paywall" FORBIDDEN) ;;;
      match upd_priceUsdc updates with
      | Some price =>
          when (number_lt (parseFloat price) (parseFloat MIN_PRICE_USDC))
            (PaywallError ("Minimum price is " ++ MIN_PRICE_USDC ++ " USDC") INVALID_PRICE)
      | None => ret tt
      end ;;;
      match upd_recipientWallet updates with
      | Some wallet =>
          when (negb (isValidEthereumAddress wallet))
            (PaywallError "Invalid recipient wallet address" INVALID_WALLET)
      | None => ret tt
      end ;;;
      t <- new_Date ;;
      updated <- update_paywalls (apply_updates updates t) (for_block blockId) ;;
      ret (first_or_null updated)
  end.

(** Deactivate paywall (soft delete) *)
Definition deactivatePaywall (blockId : Z) (ownerUserId : uuid) : Io unit :=
  existing <- getPaywallByBlockId blockId ;;
  match existing with
  | None => throw (PaywallError "Paywall not found" NOT_FOUND)
  | Some existing =>
      when (not_owner existing ownerUserId)
        (PaywallError "You do not own this paywall" FORBIDDEN) ;;;
      t <- new_Date ;;
      update_paywalls (apply_updates (mkUpdatePaywallParams None None (Some false)) t)
        (for_block blockId) ;;;
      ret tt
  end.

(** Delete paywall (hard delete) *)
Definition deletePaywall (blockId : Z) (ownerUserId : uuid) : Io unit :=
  existing <- getPaywallByBlockId blockId ;;
  match existing with
  | None => throw (PaywallError "Paywall not found" NOT_FOUND)
  | Some existing =>
      when (not_owner existing ownerUserId)
        (PaywallError "You do not own this paywall" FORBIDDEN) ;;;
      delete_paywalls (for_block blockId)
  end.

Record PaywallInfo : Type := mkPaywallInfo {
  info_priceUsdc : string;
  info_active : bool }.

(** A JavaScript [Map<number, V>]: the entries in insertion order. *)
Definition JsMap (V : Type) : Type := list (Z * V).

Fixpoint map_set {V} (k : Z) (v : V) (m : JsMap V) : JsMap V :=
  match m with
  | [] => [(k, v)]
  | (k', v') :: r => if k' =? k then (k, v) :: r else (k', v') :: map_set k v r
  end.

Fixpoint map_get {V} (k : Z) (m : JsMap V) : option V :=
  match m with
  | [] => None
  | (k', v') :: r => if k' =? k then Some v' else map_get k r
  end.

(** The body of [for (const id of blockIds)] in [getPaywallsForBlocks] *)
Fixpoint for_each_blockId (blockIds : list Z) (paywallMap : JsMap PaywallInfo)
    : Io (JsMap PaywallInfo) :=
  match blockIds with
  | [] => ret paywallMap
  | id :: rest =>
      paywall <- select_from paywalls (is_active_for id) (Some 1%nat) ;;
      for_each_blockId rest
        (match paywall with
         | p0 :: _ => map_set id (mkPaywallInfo (Paywall.priceUsdc p0) (Paywall.active p0))
                        paywallMap
         | [] => paywallMap
         end)
  end.

(** Get paywall info for multiple blocks (batch lookup for efficiency) *)
Definition getPaywallsForBlocks (blockIds : list Z) : Io (JsMap PaywallInfo) :=
  match blockIds with
  | [] => ret []
  | _ =>
      (* the result of this first query is not used *)
      _results <- select_from paywalls (fun p => Bool.eqb (Paywall.active p) true) None ;;
      (* "For simplicity, we'll do individual lookups and cache.
          In production, use a proper IN clause" *)
      for_each_blockId blockIds []
  end.

(** ** middleware/x402.ts *)

Record VerifyResponse : Type := mkVerifyResponse {
  isValid : bool;
  invalidReason : option string;
  verify_payer : option string }.

Record SettleResponse : Type := mkSettleResponse {
  success : bool;
  errorReason : option string;
  transaction : string;
  settle_payer : option string }.

(** The x402 collaborators: the header decoder of @x402/core/http and the
    resource server in front of the facilitator.  Each call returns or
    throws. *)
Module Server.
Record t : Type := mk {
  decodePaymentSignatureHeader : string -> outcome PaymentPayload;
  verifyPayment : PaymentPayload -> PaymentRequirements -> outcome VerifyResponse;
  settlePayment : PaymentPayload -> PaymentRequirements -> outcome SettleResponse }.
End Server.

Definition log_call (c : FacilitatorCall) (w : World) : World :=
  mkWorld (db w) (now w) (queries w) (facilitator_calls w ++ [c]).

(** [await server.verifyPayment(payload, requirements)] *)
Definition server_verifyPayment (server : Server.t) (p : PaymentPayload)
    (r : PaymentRequirements) : Io VerifyResponse :=
  fun w => (Server.verifyPayment server p r, log_call (VerifyCall p r) w).

(** [await server.settlePayment(payload, requirements)] *)
Definition server_settlePayment (server : Server.t) (p : PaymentPayload)
    (r : PaymentRequirements) : Io SettleResponse :=
  fun w => (Server.settlePayment server p r, log_call (SettleCall p r) w).

Record PaymentResult : Type := mkPaymentResult {
  result_success : bool;
  result_paymentId : option uuid;
  result_txHash : option string;
  result_payer : option string;
  result_error : option string }.

Definition failure (error : string) : PaymentResult :=
  mkPaymentResult false None None None (Some error).

(** [walletAddress || paymentPayload.payload?.payer || "unknown"] *)
Definition payer_of (walletAddress : option string) (p : PaymentPayload) : string :=
  or_default (or_else walletAddress (payload_payer p)) "unknown".

(** Process payment from X-Payment header.  [server] is the initialised
    x402 server, [paymentHeader] the value of the [x-payment] header. *)
Definition processPayment (server : Server.t) (paymentHeader : string)
    (paywall : PaywallWithOwner) (blockId : Z) (walletAddress : option string)
    : Io PaymentResult :=
  match Server.decodePaymentSignatureHeader server paymentHeader with
  | Threw _ => ret (failure "Invalid payment header format")
  | Returned paymentPayload =>
      (* Get the payment requirements that were accepted *)
      let acceptedRequirements := accepted paymentPayload in
      (* Verify the payment matches our paywall config *)
      let expectedAmount := usdcToAtomic (Paywall.priceUsdc (paywall_row paywall)) in
      if negb (amount acceptedRequirements =? expectedAmount)%string then
        ret (failure ("Payment amount mismatch. Expected " ++ expectedAmount
                      ++ ", got " ++ amount acceptedRequirements))
      else if negb (toLowerCase (payTo acceptedRequirements)
                    =? toLowerCase (Paywall.recipientWallet (paywall_row paywall)))%string then
        ret (failure "Payment recipient mismatch")
      else
        (* Record pending payment *)
        let payerWallet := payer_of walletAddress paymentPayload in
        payment <- recordPayment
          (mkRecordPaymentParams (Paywall.id (paywall_row paywall)) payerWallet
             (Paywall.priceUsdc (paywall_row paywall)) None) ;;
        try_catch
          ((* Verify payment signature *)
           verifyResult <- server_verifyPayment server paymentPayload acceptedRequirements ;;
           if negb (isValid verifyResult) then
             failPayment (Payment.id payment) (invalidReason verifyResult) ;;;
             ret (failure (or_default (invalidReason verifyResult)
                             "Payment verification failed"))
           else
             (* Settle payment on-chain *)
             settleResult <- server_settlePayment server paymentPayload acceptedRequirements ;;
             if negb (success settleResult) then
               failPayment (Payment.id payment) (errorReason settleResult) ;;;
               ret (failure (or_default (errorReason settleResult)
                               "Payment settlement failed"))
             else
               (* Mark payment as settled *)
               settlePayment (Payment.id payment) (transaction settleResult) ;;;
               (* Grant access to the block *)
               let actualPayer :=
                 or_default (or_else (settle_payer settleResult) (verify_payer verifyResult))
                   payerWallet in
               grantAccess blockId actualPayer (Some (Payment.id payment)) ;;;
               ret (mkPaymentResult true (Some (Payment.id payment))
                      (Some (transaction settleResult)) (Some actualPayer) None))
          (fun error =>
             failPayment (Payment.id payment)
               (Some (match error_message error with
                      | Some m => m
                      | None => "Unknown error"
                      end)) ;;;
             ret (failure (match error_message error with
                           | Some m => m
                           | None => "Payment processing failed"
                           end)))
  end.

(** One turn of the loop of [getPaywallsForBlocks], on the table. *)
Definition lookup_step (rows : list Paywall.t) (m : JsMap PaywallInfo) (id : Z)
    : JsMap PaywallInfo :=
  match find (is_active_for id) rows with
  | Some p0 => map_set id (mkPaywallInfo (Paywall.priceUsdc p0) (Paywall.active p0)) m
  | None => m
  end.

(** ** What a payment attempt leaves in the store *)

(** The row [recordPayment] inserts for an attempt on [paywall]. *)
Definition pending_payment (w : World) (paywall : PaywallWithOwner) (payerWallet : string)
    : Payment.t :=
  Payment.mk (fresh_uuid (map Payment.id (payments (db w))))
    (Some (Paywall.id (paywall_row paywall))) (toLowerCase payerWallet) None
    (Paywall.priceUsdc (paywall_row paywall)) None pending None (now w).

(** The two requirement checks of [processPayment]. *)
Definition requirement_matches (paywall : PaywallWithOwner) (r : PaymentRequirements) : bool :=
  (amount r =? usdcToAtomic (Paywall.priceUsdc (paywall_row paywall)))%string
  && (toLowerCase (payTo r) =? toLowerCase (Paywall.recipientWallet (paywall_row paywall)))%string.

(** The world after an attempt that recorded [p0] and marked it failed:
    one insert and one update, and the facilitator calls [calls]. *)
Definition failed_attempt (w : World) (p0 : Payment.t) (calls : list FacilitatorCall)
    : World :=
  mkWorld (with_payments (db w) (payments (db w) ++ [mark_failed p0]))
    (now w) (S (S (queries w))) (facilitator_calls w ++ calls).

(** The world after an attempt that recorded [p0] and marked it settled,
    before access is granted. *)
Definition settled_attempt (w : World) (p0 : Payment.t) (txHash : string)
    (calls : list FacilitatorCall) : World :=
  mkWorld (with_payments (db w) (payments (db w) ++ [mark_settled txHash (now w) p0]))
    (now w) (S (S (queries w))) (facilitator_calls w ++ calls).

(** The message of the [catch] branch of [processPayment]. *)
Definition catch_message (e : thrown) : string :=
  match error_message e with
  | Some m => m
  | None => "Payment processing failed"
  end.

(** ** Sequences of payment-store operations *)

Inductive PaymentOp : Type :=
| OpRecord (params : RecordPaymentParams)
| OpSettle (paymentId : uuid) (txHash : string)
| OpFail (paymentId : uuid) (reason : option string).

Definition run_op (op : PaymentOp) (w : World) : World :=
  match op with
  | OpRecord params => snd (recordPayment params w)
  | OpSettle paymentId txHash => snd (settlePayment paymentId txHash w)
  | OpFail paymentId reason => snd (failPayment paymentId reason w)
  end.

(** The status of the payment [paymentId], if the table has it. *)
Definition status_of (paymentId : uuid) (w : World) : option PaymentStatus :=
  option_map Payment.status (find (has_id paymentId) (payments (db w))).

(** The statuses of [paymentId] after each operation of a sequence. *)
Fixpoint status_trace (paymentId : uuid) (ops : list PaymentOp) (w : World)
    : list (option PaymentStatus) :=
  match ops with
  | [] => []
  | op :: rest => status_of paymentId (run_op op w) :: status_trace paymentId rest (run_op op w)
  end.

Fixpoint steps_ok (step : option PaymentStatus -> option PaymentStatus -> bool)
    (s : option PaymentStatus) (trace : list (option PaymentStatus)) : bool :=
  match trace with
  | [] => true
  | s' :: rest => step s s' && steps_ok step s' rest
  end.

(** The lifecycle as the specification words it: a record appears in
    [pending]; the only changes are [pending] to [settled] and [pending] to
    [failed]. *)
Definition lifecycle_step (s s' : option PaymentStatus) : bool :=
  match s, s' with
  | None, None => true
  | None, Some pending => true
  | Some pending, Some _ => true
  | Some settled, Some settled => true
  | Some failed, Some failed => true
  | _, _ => false
  end.

(** What the store allows: a record appears in [pending] and never goes
    back to [pending]; a terminal status may be replaced by the other. *)
Definition store_step (s s' : option PaymentStatus) : bool :=
  match s, s' with
  | None, None => true
  | None, Some pending => true
  | Some pending, Some _ => true
  | Some _, Some settled => true
  | Some _, Some failed => true
  | _, _ => false
  end.

(** ** Well-formed stores and example data *)

(** The constraint [unique("unique_block_payer").on(blockId, payerWallet)] *)
Definition unique_block_payer (rows : list AccessGrant.t) : Prop :=
  forall b a, (length (filter (same_grant_key b a) rows) <= 1)%nat.

Definition example_paywall : Paywall.t :=
  Paywall.mk 1%N 42 (Some 7%N) "0.050000" "0xRecipient" true 0 0.

Definition example_world : World :=
  mkWorld (mkDb [] [example_paywall] [] []) 100 0 [].

Definition example_paywall_with_owner : PaywallWithOwner :=
  mkPaywallWithOwner example_paywall None None.

(** A proof that accepts the requirement of [example_paywall] and names no
    payer. *)
Definition example_payload : PaymentPayload :=
  mkPayload (mkRequirements "exact" "base" "50000" "0xrecipient") None.

(** A server that decodes every header to [example_payload], verifies it
    and answers [settle] to the settlement. *)
Definition example_server (settle : outcome SettleResponse) : Server.t :=
  Server.mk (fun _ => Returned example_payload)
    (fun _ _ => Returned (mkVerifyResponse true None None))
    (fun _ _ => settle).

(** [server] with another answer to the settlement. *)
Definition with_settle (server : Server.t) (settle : outcome SettleResponse) : Server.t :=
  Server.mk (Server.decodePaymentSignatureHeader server) (Server.verifyPayment server)
    (fun _ _ => settle).

(** ** services/accessGrant.ts: the queries *)

(** Get all blocks a wallet has access to *)
Definition getAccessGrantsByWallet (walletAddress : string) : Io (list AccessGrant.t) :=
  let normalizedWallet := toLowerCase walletAddress in
  select_from accessGrants
    (fun g => (AccessGrant.payerWallet g =? normalizedWallet)%string) None.

(** Get all wallets with access to a block *)
Definition getAccessGrantsByBlock (blockId : Z) : Io (list AccessGrant.t) :=
  select_from accessGrants (fun g => AccessGrant.blockId g =? blockId) None.

(** A JavaScript [Set<number>]: its elements in insertion order. *)
Definition JsSet : Type := list Z.

(** [Array.prototype.includes] and [Set.prototype.has] on numbers *)
Definition includes (x : Z) (l : list Z) : bool := existsb (Z.eqb x) l.

(** [Set.prototype.add] *)
Definition set_add (x : Z) (s : JsSet) : JsSet :=
  if includes x s then s else (s ++ [x])%list.

(** Check access for multiple blocks at once (batch lookup) *)
Definition checkAccessForBlocks (blockIds : list Z) (walletAddress : string) : Io JsSet :=
  if (walletAddress =? "")%string || (length blockIds =? 0)%nat then ret []
  else
    let normalizedWallet := toLowerCase walletAddress in
    (* Get all access grants for this wallet *)
    grants <- select_from accessGrants
                (fun g => (AccessGrant.payerWallet g =? normalizedWallet)%string) None ;;
    ret (fold_left
           (fun accessibleBlocks grant =>
              if includes (AccessGrant.blockId grant) blockIds
              then set_add (AccessGrant.blockId grant) accessibleBlocks
              else accessibleBlocks)
           grants []).

(** ** services/payment.ts: the queries *)

(** Get all payments for a paywall *)
Definition getPaymentsByPaywall (paywallId : uuid) : Io (list Payment.t) :=
  select_from payments
    (fun p => match Payment.paywallId p with
              | Some i => (i =? paywallId)%N
              | None => false
              end) None.

(** Get all payments by a wallet address *)
Definition getPaymentsByWallet (walletAddress : string) : Io (list Payment.t) :=
  select_from payments
    (fun p => (Payment.payerWallet p =? toLowerCase walletAddress)%string) None.

(** [a + b] on numbers *)
Definition number_add (a b : number) : number :=
  match a, b with
  | Num x, Num y => Num (round_binary64 (x + y))
  | _, _ => NaN
  end.

Record PaywallStats : Type := mkPaywallStats {
  totalPayments : nat;
  totalSettled : nat;
  totalRevenue : string }.

Definition is_settled (p : Payment.t) : bool :=
  match Payment.status p with
  | settled => true
  | _ => false
  end.

(** Get payment stats for a paywall *)
Definition getPaywallStats (paywallId : uuid) : Io PaywallStats :=
  allPayments <- getPaymentsByPaywall paywallId ;;
  let settledPayments := filter is_settled allPayments in
  let totalRevenue :=
    fold_left (fun sum p => number_add sum (parseFloat (Payment.amountUsdc p)))
      settledPayments (Num 0) in
  ret (mkPaywallStats (length allPayments) (length settledPayments)
         (toFixed totalRevenue 6)).

(** ** services/user.ts: the store functions *)

Definition with_users (d : Db) (rows : list User.t) : Db :=
  mkDb rows (paywalls d) (payments d) (accessGrants d).

(** [db.update(users).set(..).where(cond).returning()] *)
Definition update_users (set : User.t -> User.t) (cond : User.t -> bool)
    : Io (list User.t) :=
  statement (fun d _ =>
    (Returned (map set (filter cond (users d))),
     with_users d (update_rows set cond (users d)))).

Definition has_user_id (userId : uuid) (u : User.t) : bool := (User.id u =? userId)%N.

(** Get user by UUID *)
Definition getUserById (id : uuid) : Io (option User.t) :=
  result <- select_from users (has_user_id id) (Some 1%nat) ;;
  ret (first_or_null result).

(** [.set({ walletAddress, updatedAt: new Date() })] *)
Definition set_wallet (walletAddress : string) (t : timestamp) (u : User.t) : User.t :=
  User.mk (User.id u) (User.arenaUserId u) (User.arenaUsername u) (User.arenaSlug u)
    (User.arenaAccessToken u) (Some walletAddress) (User.createdAt u) t.

(** Update user's wallet address *)
Definition updateWalletAddress (userId : uuid) (walletAddress : string)
    : Io (option User.t) :=
  t <- new_Date ;;
  updated <- update_users (set_wallet walletAddress t) (has_user_id userId) ;;
  ret (first_or_null updated).

(** ** services/paywall.ts: creation and listing *)

Record CreatePaywallParams : Type := mkCreatePaywallParams {
  create_blockId : Z;
  create_ownerUserId : uuid;
  create_priceUsdc : string;
  (** Optional, uses user's wallet if not provided *)
  create_recipientWallet : option string }.

Record NewPaywall : Type := mkNewPaywall {
  new_paywall_blockId : Z;
  new_paywall_ownerUserId : uuid;
  new_paywall_priceUsdc : string;
  new_paywall_recipientWallet : string;
  new_paywall_active : bool }.

(** [const [created] = await db.insert(paywalls).values(v).returning()];
    the insert is refused when the block already has a row ([blockId] is
    unique). *)
Definition insert_paywall (v : NewPaywall) : Io Paywall.t :=
  statement (fun d t =>
    if existsb (for_block (new_paywall_blockId v)) (paywalls d)
    then (Threw (Error "duplicate key value violates unique constraint paywalls_block_id_unique"), d)
    else
      let created :=
        Paywall.mk (fresh_uuid (map Paywall.id (paywalls d)))
          (new_paywall_blockId v) (Some (new_paywall_ownerUserId v))
          (new_paywall_priceUsdc v) (new_paywall_recipientWallet v)
          (new_paywall_active v) t t in
      (Returned created, with_paywalls d (paywalls d ++ [created]))).

Definition no_wallet_error : thrown :=
  PaywallError "No wallet address configured. Please set your wallet address first."
    NO_WALLET.

(** Create a new paywall for a block *)
Definition createPaywall (params : CreatePaywallParams) : Io Paywall.t :=
  (* Validate price *)
  when (number_lt (parseFloat (create_priceUsdc params)) (parseFloat MIN_PRICE_USDC))
    (PaywallError ("Minimum price is " ++ MIN_PRICE_USDC ++ " USDC") INVALID_PRICE) ;;;
  (* Get user's wallet if recipientWallet not provided *)
  finalRecipientWallet <-
    (if truthy (create_recipientWallet params)
     then ret (or_default (create_recipientWallet params) "")
     else
       user <- select_from users (has_user_id (create_ownerUserId params)) (Some 1%nat) ;;
       (* [user?.walletAddress] *)
       let walletAddress :=
         match user with
         | u :: _ => User.walletAddress u
         | [] => None
         end in
       if truthy walletAddress then ret (or_default walletAddress "")
       else throw no_wallet_error) ;;
  (* Validate wallet address *)
  when (negb (isValidEthereumAddress finalRecipientWallet))
    (PaywallError "Invalid recipient wallet address" INVALID_WALLET) ;;;
  (* Check if paywall already exists for this block *)
  existing <- getPaywallByBlockId (create_blockId params) ;;
  match existing with
  | Some _ => throw (PaywallError "Paywall already exists for this block" ALREADY_EXISTS)
  | None =>
      insert_paywall
        (mkNewPaywall (create_blockId params) (create_ownerUserId params)
           (create_priceUsdc params) finalRecipientWallet true)
  end.

(** Get all paywalls owned by a user *)
Definition getPaywallsByOwner (userId : uuid) : Io (list Paywall.t) :=
  select_from paywalls
    (fun p => match Paywall.ownerUserId p with
              | Some o => (o =? userId)%N
              | None => false
              end) None.

(** Two (block, wallet) pairs name the same grant. *)
Definition same_pair (b' : Z) (a' : string) (b : Z) (a : string) : bool :=
  (b' =? b) && (toLowerCase a' =? toLowerCase a)%string.

(** [user?.walletAddress] for the first user row with the id. *)
Definition wallet_on_file (d : Db) (userId : uuid) : option string :=
  match filter (has_user_id userId) (users d) with
  | u :: _ => User.walletAddress u
  | [] => None
  end.

(** The constraint [integer("block_id").unique()] of the paywalls table *)
Definition unique_block (rows : list Paywall.t) : Prop :=
  NoDup (map Paywall.blockId rows).

Definition example_create : CreatePaywallParams :=
  mkCreatePaywallParams 43 7%N "0.050000"
    (Some "0x833589fCD6eDb6E08f4c7C32D4f71b54bdA02913").

(** ** middleware/x402.ts: the middleware *)

(** What the middleware reads of an Express request. *)
Record Request : Type := mkRequest {
  (** [req.params.id] *)
  params_id : string;
  (** [req.headers["x-wallet-address"]] *)
  header_x_wallet_address : option string;
  (** [req.query.wallet] *)
  query_wallet : option string;
  (** [req.user?.walletAddress], from the JWT *)
  user_walletAddress : option string;
  (** [req.headers["x-payment"]] *)
  header_x_payment : option string }.

(** Extract wallet address from request (header, query, or JWT) *)
Definition getWalletFromRequest (req : Request) : option string :=
  if truthy (header_x_wallet_address req)
  then Some (toLowerCase (or_default (header_x_wallet_address req) ""))
  else if truthy (query_wallet req)
  then Some (toLowerCase (or_default (query_wallet req) ""))
  else if truthy (user_walletAddress req)
  then Some (toLowerCase (or_default (user_walletAddress req) ""))
  else None.

(** Check if request has valid payment that can be processed *)
Definition hasPaymentHeader (req : Request) : bool := truthy (header_x_payment req).

(** An integer as JavaScript prints it in a template string. *)
Definition integer_to_string (z : Z) : string :=
  if z <? 0 then "-" ++ decimal_digits (- z) else decimal_digits z.

Record PaymentRequirementsConfig : Type := mkPaymentRequirementsConfig {
  config_scheme : string;
  config_network : string;
  config_payTo : string;
  config_price : string;
  config_maxTimeoutSeconds : Z;
  config_extra_blockId : Z;
  config_extra_name : string;
  config_extra_ownerUsername : option string }.

(** Generate x402 payment requirements for a paywall *)
Definition generatePaymentRequirements (baseNetworkId : string)
    (paywall : PaywallWithOwner) (blockId : Z) (resourcePath : string)
    : PaymentRequirementsConfig :=
  mkPaymentRequirementsConfig "exact" baseNetworkId
    (Paywall.recipientWallet (paywall_row paywall))
    (Paywall.priceUsdc (paywall_row paywall))
    300
    blockId ("Block " ++ integer_to_string blockId) (ownerUsername paywall).

(** The environment and the @x402/core calls that build the challenge:
    [buildPaymentRequirements], the merge of [extra] into each requirement,
    [createPaymentRequiredResponse] and [encodePaymentRequiredHeader], taken
    together as one function of the configuration and the resource path
    that returns the header or throws. *)
Module X402Http.
Record t : Type := mk {
  baseNetworkId : string;
  paymentRequiredHeader : PaymentRequirementsConfig -> string -> outcome string }.
End X402Http.

(** The [paywall] object of the 402 body *)
Record PaywallBody : Type := mkPaywallBody {
  body_blockId : Z;
  body_priceUsdc : string;
  body_recipientWallet : string;
  body_ownerUsername : option string }.

(** The [X-Payment-Receipt] header *)
Record PaymentReceipt : Type := mkPaymentReceipt {
  receipt_paymentId : option uuid;
  receipt_txHash : string;
  receipt_network : string;
  receipt_payer : option string }.

(** What the middleware does with the request: it calls [next()], with a
    receipt header or without, or answers 402, 400 or 500. *)
Inductive Response : Type :=
| CallNext (receipt : option PaymentReceipt)
| Respond402 (xPayment : string) (body : PaywallBody)
| Respond400 (message : option string)
| Respond500 (message : string).

(** Return 402 response with X-Payment header *)
Definition return402Response (http : X402Http.t) (paywall : PaywallWithOwner)
    (blockId : Z) : Io Response :=
  let resourcePath := "/v2/blocks/" ++ integer_to_string blockId in
  let config :=
    generatePaymentRequirements (X402Http.baseNetworkId http) paywall blockId resourcePath in
  match X402Http.paymentRequiredHeader http config resourcePath with
  | Threw e => throw e
  | Returned xPaymentHeader =>
      ret (Respond402 xPaymentHeader
             (mkPaywallBody blockId (Paywall.priceUsdc (paywall_row paywall))
                (Paywall.recipientWallet (paywall_row paywall)) (ownerUsername paywall)))
  end.

(** [parseInt(req.params.id, 10)], [None] when it is NaN *)
Definition parse_blockId (s : string) : option Z :=
  match parseInt s with
  | NaN => None
  | Num q => Some (Qfloor q)
  end.

(** x402 payment middleware for dynamic per-block pricing *)
Definition x402PaywallMiddleware (server : Server.t) (http : X402Http.t) (req : Request)
    : Io Response :=
  try_catch
    ((* Extract block ID from params *)
     match parse_blockId (params_id req) with
     | None => ret (CallNext None) (* Let route handler deal with invalid ID *)
     | Some blockId =>
         (* Check if block has a paywall *)
         paywall <- getPaywallByBlockId blockId ;;
         match paywall with
         | None => ret (CallNext None)
         | Some paywall =>
             if negb (Paywall.active (paywall_row paywall)) then ret (CallNext None)
             else
               (* Get wallet address *)
               let walletAddress := getWalletFromRequest req in
               (* Check if user already has access *)
               hasAccessResult <-
                 (if truthy walletAddress
                  then hasAccess blockId (or_default walletAddress "")
                  else ret false) ;;
               if hasAccessResult then ret (CallNext None) (* Already has access *)
               else
                 (* Check for payment header *)
                 if negb (truthy (header_x_payment req))
                 then return402Response http paywall blockId
                 else
                   (* Verify and settle payment *)
                   result <- processPayment server (or_default (header_x_payment req) "")
                               paywall blockId walletAddress ;;
                   if negb (result_success result)
                   then ret (Respond400 (result_error result))
                   else
                     (* Add payment receipt header *)
                     ret (CallNext
                            (if truthy (result_txHash result)
                             then Some (mkPaymentReceipt (result_paymentId result)
                                          (or_default (result_txHash result) "")
                                          (X402Http.baseNetworkId http)
                                          (result_payer result))
                             else None))
         end
     end)
    (fun error =>
       ret (Respond500 (match error_message error with
                        | Some m => m
                        | None => "Unknown error"
                        end))).

Definition example_http : X402Http.t :=
  X402Http.mk "eip155:8453" (fun _ _ => Returned "encoded-challenge").

(** The world after [n] more statements. *)
Definition after_queries (n : nat) (w : World) : World :=
  mkWorld (db w) (now w) (n + queries w) (facilitator_calls w).

(** ** routes/arena.ts *)

(** An Are.na block: its id, and the other fields, which the proxy copies
    as they are. *)
Record ArenaBlock : Type := mkArenaBlock {
  arena_id : Z;
  arena_fields : string }.

Record PaywallMetadata : Type := mkPaywallMetadata {
  meta_active : bool;
  meta_priceUsdc : string;
  meta_currency : string }.

(** [{ ...block, _paywall }] *)
Record BlockWithPaywall : Type := mkBlockWithPaywall {
  arena_block : ArenaBlock;
  _paywall : option PaywallMetadata }.

(** Helper to inject paywall metadata into blocks *)
Definition injectPaywallMetadata (blocks : list ArenaBlock) : Io (list BlockWithPaywall) :=
  match blocks with
  | [] => ret []
  | _ =>
      let blockIds := map arena_id blocks in
      paywallMap <- getPaywallsForBlocks blockIds ;;
      ret (map (fun block =>
                  let paywall := map_get (arena_id block) paywallMap in
                  mkBlockWithPaywall block
                    (match paywall with
                     | Some pw =>
                         Some (mkPaywallMetadata (info_active pw) (info_priceUsdc pw) "USDC")
                     | None => None
                     end))
             blocks)
  end.

(** What the Are.na client throws: an [ArenaApiError], or something else. *)
Inductive ArenaThrown : Type :=
| ArenaApiError (message : string) (statusCode : Z) (responseBody : option string)
    : ArenaThrown
| OtherThrown (e : thrown) : ArenaThrown.

(** What [arenaClient.getBlock(id)] does: it returns the block or throws. *)
Inductive ArenaAnswer : Type :=
| ArenaReturned (block : ArenaBlock) : ArenaAnswer
| ArenaThrew (error : ArenaThrown) : ArenaAnswer.

Module ArenaClient.
Record t : Type := mk {
  getBlock : Z -> ArenaAnswer }.
End ArenaClient.

(** The responses of [GET /v2/blocks/:id]: [res.status(..).json(..)] with
    the fields of the body, and [res.json(blockWithPaywall)].  In
    [ownerUsername], [None] is [undefined] and [Some None] is [null]. *)
Inductive BlockResponse : Type :=
| InvalidBlockId : BlockResponse
| PaymentRequired (blockId : Z) (priceUsdc recipientWallet : option string)
    (owner : option (option string)) : BlockResponse
| BlockContent (block : BlockWithPaywall) : BlockResponse
| ErrorStatus (status : Z) (error message : string) (details : option string)
    : BlockResponse.

(** Error handler for Arena API errors *)
Definition handleArenaError (error : ArenaThrown) : BlockResponse :=
  match error with
  | ArenaApiError message statusCode responseBody =>
      ErrorStatus statusCode "Are.na API error" message responseBody
  | OtherThrown e =>
      ErrorStatus 500 "Internal server error"
        (match error_message e with
         | Some m => m
         | None => "Unknown error"
         end) None
  end.

(** [router.get("/blocks/:id", ..)]: proxy to Are.na, checks paywall
    status and access.  The route has its own copy of
    [getWalletFromRequest], the same text as the middleware's. *)
Definition get_blocks_id (arena : ArenaClient.t) (req : Request) : Io BlockResponse :=
  match parse_blockId (params_id req) with
  | None => ret InvalidBlockId
  | Some id =>
      (* Get wallet address from request *)
      let walletAddress := getWalletFromRequest req in
      (* Check paywall and access status *)
      accessStatus <- getBlockAccessStatus id walletAddress ;;
      if isPaywalled accessStatus && negb (status_hasAccess accessStatus)
      then
        (* Get full paywall info for response *)
        paywall <- getPaywallByBlockId id ;;
        ret (PaymentRequired id (status_priceUsdc accessStatus)
               (status_recipientWallet accessStatus)
               (match paywall with
                | Some x => Some (ownerUsername x)
                | None => None
                end))
      else
        (* Fetch and return block content *)
        match ArenaClient.getBlock arena id with
        | ArenaReturned block =>
            (* Add paywall metadata even to accessible blocks *)
            paywall <- getPaywallByBlockId id ;;
            ret (BlockContent
                   (mkBlockWithPaywall block
                      (match paywall with
                       | Some x =>
                           Some (mkPaywallMetadata (Paywall.active (paywall_row x))
                                   (Paywall.priceUsdc (paywall_row x)) "USDC")
                       | None => None
                       end)))
        | ArenaThrew error => ret (handleArenaError error)
        end
  end.

Definition example_arena : ArenaClient.t :=
  ArenaClient.mk (fun id => ArenaReturned (mkArenaBlock id "a text block")).

(** ** routes/paywall.ts *)




(** The example store after the wallet 0xabc was granted the block 42. *)
Definition example_granted_world : World :=
  mkWorld (mkDb [] [example_paywall] [] [AccessGrant.mk 1%N 42 "0xabc" None 50]) 100 0 [].

(** A store with payments for the paywall 9: two settled, one failed. *)
Definition example_ledger : World :=
  mkWorld
    (mkDb [] [example_paywall]
       [Payment.mk 1%N (Some 9%N) "0xabc" None "0.100000" (Some "0x1") settled (Some 100) 90;
        Payment.mk 2%N (Some 9%N) "0xdef" None "0.200000" (Some "0x2") settled (Some 100) 91;
        Payment.mk 3%N (Some 9%N) "0xabc" None "0.100000" None failed None 92]
       [])
    100 0 [].

(** A store with one user, who has a wallet on file. *)
Definition example_user : User.t :=
  User.mk 7%N 1234 (Some "ada") (Some "ada") None
    (Some "0x833589fCD6eDb6E08f4c7C32D4f71b54bdA02913") 0 0.

Definition example_users_world : World :=
  mkWorld (mkDb [example_user] [example_paywall] [] []) 100 0 [].

(* ================================================================== *)
(** * Properties *)

Example usdcToAtomic_cent : usdcToAtomic "0.010000" = "10000".
Proof. vm_compute. reflexivity. Qed.

Example atomicToUsdc_cent : atomicToUsdc "10000" = "0.010000".
Proof. vm_compute. reflexivity. Qed.

(** ** Rounding error of binary64 arithmetic *)

Lemma inject_Z_succ (z : Z) : (inject_Z (z + 1) == inject_Z z + 1)%Q.
Proof. rewrite inject_Z_plus. reflexivity. Qed.

Lemma round_half_even_bounds (x : Q) :
  (x - (1 # 2) <= inject_Z (round_half_even x) <= x + (1 # 2))%Q.
Proof.
  unfold round_half_even.
  pose proof (Qfloor_le x) as Hlo.
  pose proof (Qlt_floor x) as Hhi.
  rewrite inject_Z_succ in Hhi.
  destruct (Qcompare (x - inject_Z (Qfloor x)) (1 # 2)) eqn:Hc.
  - apply Qeq_alt in Hc.
    destruct (Z.even (Qfloor x)); [| rewrite inject_Z_succ]; lra.
  - apply Qlt_alt in Hc. lra.
  - apply Qgt_alt in Hc. rewrite inject_Z_succ. lra.
Qed.

Lemma pow2_pos (z : Z) : (0 < 2 ^ z)%Q.
Proof. apply Qpower_0_lt. reflexivity. Qed.

Lemma Zpow2_inject (n : Z) : 0 <= n -> (inject_Z (2 ^ n) == 2 ^ n)%Q.
Proof.
  intros Hn. exact (Zpower_Qpower 2 n Hn).
Qed.

Lemma floor_log2_le (x : Q) : (0 < x)%Q -> (2 ^ floor_log2 x <= x)%Q.
Proof.
  intros Hx. destruct x as [p q]. unfold floor_log2. cbn [Qnum Qden].
  assert (Hp : 0 < p) by (unfold Qlt in Hx; simpl in Hx; lia).
  destruct (Z.log2_spec p Hp) as [Hp1 _].
  destruct (Z.log2_spec (Z.pos q) eq_refl) as [_ Hq2].
  pose proof (Z.log2_nonneg p) as Ha.
  pose proof (Z.log2_nonneg (Z.pos q)) as Hb.
  set (a := Z.log2 p) in *. set (b := Z.log2 (Z.pos q)) in *.
  destruct (Qle_bool (2 ^ (a - b)) (p # q)) eqn:Hle.
  - now apply Qle_bool_iff.
  - (* 2^(a-b-1) * q <= 2^(a-b-1) * 2^(b+1) = 2^a <= p *)
    assert (Hq : (inject_Z (Z.pos q) <= 2 ^ (b + 1))%Q).
    { rewrite <- Zpow2_inject by lia. rewrite <- Zle_Qle. lia. }
    assert (Hpq : (2 ^ a <= inject_Z p)%Q).
    { rewrite <- Zpow2_inject by lia. rewrite <- Zle_Qle. exact Hp1. }
    assert (Hsplit : (2 ^ a == 2 ^ (a - b - 1) * 2 ^ (b + 1))%Q).
    { rewrite <- Qpower_plus by discriminate.
      replace (a - b - 1 + (b + 1)) with a by lia. reflexivity. }
    pose proof (pow2_pos (a - b - 1)) as Hl.
    assert (Hqpos : (0 < inject_Z (Z.pos q))%Q) by reflexivity.
    rewrite (Qmake_Qdiv p q).
    apply Qle_shift_div_l; [exact Hqpos|].
    rewrite Hsplit in Hpq.
    eapply Qle_trans; [| exact Hpq].
    apply Qmult_le_l; [exact Hl | exact Hq].
Qed.

Definition eps53 : Q := 1 # 9007199254740992.

Lemma round_pos_bounds (x : Q) :
  (0 < x)%Q -> (x - x * eps53 <= round_pos x <= x + x * eps53)%Q.
Proof.
  intros Hx. unfold round_pos.
  set (e := floor_log2 x - 52).
  pose proof (round_half_even_bounds (x / 2 ^ e)) as [Hlo Hhi].
  pose proof (pow2_pos e) as He.
  pose proof (floor_log2_le x Hx) as Hfl.
  assert (Hsplit : (2 ^ floor_log2 x == 2 ^ e * 2 ^ 52)%Q).
  { rewrite <- Qpower_plus by discriminate. subst e.
    replace (floor_log2 x - 52 + 52) with (floor_log2 x) by lia. reflexivity. }
  rewrite Hsplit in Hfl.
  assert (H52 : (2 ^ 52 == 4503599627370496)%Q) by reflexivity.
  rewrite H52 in Hfl.
  set (r := inject_Z (round_half_even (x / 2 ^ e))) in *.
  assert (Hdiv : (x / 2 ^ e * 2 ^ e == x)%Q).
  { field. intro H0. rewrite H0 in He. now apply Qlt_irrefl in He. }
  set (y := (x / 2 ^ e)%Q) in *.
  set (t := (2 ^ e)%Q) in *.
  unfold eps53.
  assert (Hlo' : ((y - (1 # 2)) * t <= r * t)%Q) by (apply Qmult_le_compat_r; lra).
  assert (Hhi' : (r * t <= (y + (1 # 2)) * t)%Q) by (apply Qmult_le_compat_r; lra).
  lra.
Qed.

Lemma round_binary64_bounds (x : Q) :
  (0 < x)%Q -> (x - x * eps53 <= round_binary64 x <= x + x * eps53)%Q.
Proof.
  intros Hx. unfold round_binary64.
  assert (Hc : Qcompare x 0 = Gt) by (now apply Qgt_alt).
  rewrite Hc, Qred_correct. now apply round_pos_bounds.
Qed.

Lemma round_binary64_zero (x : Q) : (x == 0)%Q -> round_binary64 x = 0%Q.
Proof.
  intros Hx. unfold round_binary64.
  assert (Hc : Qcompare x 0 = Eq) by (now apply Qeq_alt).
  now rewrite Hc.
Qed.

Lemma Qfloor_unique (x : Q) (z : Z) :
  (inject_Z z <= x)%Q -> (x < inject_Z z + 1)%Q -> Qfloor x = z.
Proof.
  intros Hlo Hhi.
  pose proof (Qfloor_le x) as H1.
  pose proof (Qlt_floor x) as H2.
  rewrite inject_Z_succ in H2.
  assert (Ha : (inject_Z (Qfloor x) < inject_Z (z + 1))%Q) by (rewrite inject_Z_succ; lra).
  assert (Hb : (inject_Z z < inject_Z (Qfloor x + 1))%Q) by (rewrite inject_Z_succ; lra).
  rewrite <- Zlt_Qlt in Ha, Hb. lia.
Qed.

(** ** Reading back what was printed *)

Lemma string_app_assoc (a b c : string) : (a ++ b) ++ c = a ++ (b ++ c).
Proof. induction a as [| x a IH]; simpl; [reflexivity | now rewrite IH]. Qed.

Lemma string_app_nil (a : string) : a ++ "" = a.
Proof. induction a as [| x a IH]; simpl; [reflexivity | now rewrite IH]. Qed.

Lemma string_length_app (a b : string) :
  String.length (a ++ b) = (String.length a + String.length b)%nat.
Proof. induction a as [| x a IH]; simpl; [reflexivity | now rewrite IH]. Qed.

Lemma take_digits_app (a rest : string) (acc : Z) :
  all_digits a = true -> no_leading_digit rest = true ->
  take_digits acc (a ++ rest) = (read_digits acc a, String.length a, rest).
Proof.
  revert acc. induction a as [| c a IH]; intros acc Ha Hr.
  - cbn [append read_digits String.length].
    destruct rest as [| c r]; [reflexivity |].
    cbn [no_leading_digit] in Hr. apply negb_true_iff in Hr.
    cbn [take_digits]. now rewrite Hr.
  - cbn [all_digits] in Ha. apply andb_true_iff in Ha as [Hc Ha].
    cbn [append take_digits read_digits String.length].
    rewrite Hc. now rewrite (IH _ Ha Hr).
Qed.

Lemma read_digits_app (a b : string) (acc : Z) :
  read_digits acc (a ++ b) = read_digits (read_digits acc a) b.
Proof.
  revert acc. induction a as [| c a IH]; intros acc; simpl; [reflexivity | apply IH].
Qed.

Lemma all_digits_app (a b : string) :
  all_digits (a ++ b) = all_digits a && all_digits b.
Proof.
  induction a as [| c a IH]; simpl; [reflexivity |].
  now rewrite IH, andb_assoc.
Qed.

Lemma digit_char_spec (d : Z) :
  0 <= d < 10 ->
  is_digit (digit_char d) = true /\ ascii_code (digit_char d) - 48 = d.
Proof.
  intros Hd.
  assert (H : d = 0 \/ d = 1 \/ d = 2 \/ d = 3 \/ d = 4 \/
              d = 5 \/ d = 6 \/ d = 7 \/ d = 8 \/ d = 9) by lia.
  repeat (destruct H as [-> | H]; [split; reflexivity |]).
  subst d. split; reflexivity.
Qed.

Lemma digits_aux_spec (fuel : nat) :
  forall (n : Z) (s : string),
    0 <= n < 10 ^ Z.of_nat (S fuel) ->
    exists d,
      digits_aux (S fuel) n s = d ++ s /\ all_digits d = true /\
      (1 <= String.length d)%nat /\
      forall acc, read_digits acc d = acc * 10 ^ Z.of_nat (String.length d) + n.
Proof.
  induction fuel as [| fuel IH]; intros n s Hn;
    (destruct (digit_char_spec (n mod 10)) as [Hdig Hval];
     [apply Z.mod_pos_bound; lia |]);
    pose proof (Z.div_mod n 10 ltac:(lia)) as Hdm;
    cbn [digits_aux]; destruct (n / 10 =? 0) eqn:Hq.
  1, 3:
    apply Z.eqb_eq in Hq;
    exists (String (digit_char (n mod 10)) "");
    (split; [reflexivity | split; [| split; [cbn [String.length]; lia |]]]);
    [ cbn [all_digits]; now rewrite Hdig
    | intros acc; cbn [read_digits String.length]; rewrite Hval;
      change (10 ^ Z.of_nat 1) with 10; lia ].
  - apply Z.eqb_neq in Hq. change (10 ^ Z.of_nat 1) with 10 in Hn.
    assert (n / 10 = 0) by (apply Z.div_small; lia). contradiction.
  - apply Z.eqb_neq in Hq.
    assert (Hn' : 0 <= n / 10 < 10 ^ Z.of_nat (S fuel)).
    { split; [apply Z.div_pos; lia |].
      apply Z.div_lt_upper_bound; [lia |].
      rewrite <- Z.pow_succ_r by lia. rewrite <- Nat2Z.inj_succ. lia. }
    destruct (IH (n / 10) (String (digit_char (n mod 10)) s) Hn')
      as (d & Heq & Hall & Hlen & Hread).
    exists (d ++ String (digit_char (n mod 10)) "").
    split; [| split; [| split]].
    + cbn [digits_aux] in Heq. rewrite Heq.
      rewrite string_app_assoc. reflexivity.
    + rewrite all_digits_app, Hall. cbn [all_digits]. now rewrite Hdig.
    + rewrite string_length_app. lia.
    + intros acc. rewrite read_digits_app, Hread.
      cbn [read_digits]. rewrite Hval.
      rewrite string_length_app. cbn [String.length].
      rewrite Nat2Z.inj_add. change (Z.of_nat 1) with 1.
      rewrite Z.pow_add_r by lia. lia.
Qed.

Lemma decimal_digits_spec (n : Z) :
  0 <= n ->
  all_digits (decimal_digits n) = true /\
  (1 <= String.length (decimal_digits n))%nat /\
  forall acc,
    read_digits acc (decimal_digits n)
    = acc * 10 ^ Z.of_nat (String.length (decimal_digits n)) + n.
Proof.
  intros Hn. unfold decimal_digits.
  assert (Hb : 0 <= n < 10 ^ Z.of_nat (S (Z.to_nat (Z.log2 n)))).
  { split; [exact Hn |].
    rewrite Nat2Z.inj_succ, Z2Nat.id by apply Z.log2_nonneg.
    destruct (Z.eq_dec n 0) as [-> | Hz]; [reflexivity |].
    destruct (Z.log2_spec n ltac:(lia)) as [_ Hhi].
    eapply Z.lt_le_trans; [exact Hhi |].
    apply Z.pow_le_mono_l. lia. }
  destruct (digits_aux_spec _ n "" Hb) as (d & Heq & Hall & Hlen & Hread).
  rewrite Heq. 
  rewrite string_app_nil. auto.
Qed.

Lemma split_at_spec (n : nat) :
  forall s a b,
    (n <= String.length s)%nat -> split_at n s = (a, b) ->
    a ++ b = s /\ String.length a = n.
Proof.
  induction n as [| n IH]; intros s a b Hn Hs.
  - destruct s; inversion Hs; subst; split; reflexivity.
  - destruct s as [| c r]; [simpl in Hn; lia |].
    cbn [split_at] in Hs. destruct (split_at n r) as [a' b'] eqn:Hr.
    inversion Hs; subst. simpl in Hn.
    destruct (IH r a' b ltac:(lia) Hr) as [Happ Hlen].
    split; simpl; congruence.
Qed.

Lemma zeros_spec (n : nat) :
  all_digits (zeros n) = true /\ read_digits 0 (zeros n) = 0 /\
  String.length (zeros n) = n.
Proof.
  induction n as [| n (Ha & Hr & Hl)]; [repeat split |].
  cbn [zeros all_digits read_digits String.length].
  rewrite Ha, Hl. repeat split. exact Hr.
Qed.

(** The shape of fixed notation: an integer part and [f] fraction digits
    that together read back as [n]. *)
Lemma fixed_notation_spec (n : Z) (f : nat) :
  0 <= n ->
  exists a b,
    fixed_notation n (S f) = a ++ "." ++ b /\
    all_digits a = true /\ all_digits b = true /\
    (1 <= String.length a)%nat /\ String.length b = S f /\
    read_digits 0 (a ++ b) = n.
Proof.
  intros Hn. unfold fixed_notation.
  destruct (decimal_digits_spec n Hn) as (Hall & Hlen & Hread).
  set (m := decimal_digits n) in *.
  destruct (zeros_spec (S (S f) - String.length m)) as (Hza & Hzr & Hzl).
  set (z := zeros (S (S f) - String.length m)) in *.
  assert (Hlen' : (S (S f) <= String.length (z ++ m))%nat).
  { rewrite string_length_app, Hzl. lia. }
  destruct (split_at (String.length (z ++ m) - S f) (z ++ m)) as [a b] eqn:Hs.
  assert (Hle : (String.length (z ++ m) - S f <= String.length (z ++ m))%nat) by lia.
  destruct (split_at_spec _ _ _ _ Hle Hs) as [Happ Hla].
  exists a, b.
  assert (Hab : all_digits (a ++ b) = true).
  { rewrite Happ, all_digits_app, Hza, Hall. reflexivity. }
  rewrite all_digits_app in Hab. apply andb_true_iff in Hab as [Ha Hb].
  assert (Hlb : String.length b = S f).
  { pose proof (string_length_app a b) as H. rewrite Happ in H. lia. }
  repeat split; try assumption; try lia.
  rewrite Happ, read_digits_app, Hzr, Hread. lia.
Qed.

Lemma digit_not_sign_or_space (c : ascii) :
  is_digit c = true ->
  is_whitespace c = false /\ (forall r, take_sign (String c r) = (false, String c r)).
Proof.
  destruct c as [[] [] [] [] [] [] [] []]; intros H; try discriminate H;
    split; reflexivity.
Qed.

Lemma parseFloat_fixed_notation (n : Z) (f : nat) :
  0 <= n ->
  parseFloat (fixed_notation n (S f))
  = Num (round_binary64 (inject_Z n * 10 ^ (- Z.of_nat (S f)))).
Proof.
  intros Hn.
  destruct (fixed_notation_spec n f Hn) as (a & b & -> & Ha & Hb & Hla & Hlb & Hread).
  destruct a as [| c a]; [simpl in Hla; lia |].
  pose proof Ha as Ha'. cbn [all_digits] in Ha'.
  apply andb_true_iff in Ha' as [Hc _].
  destruct (digit_not_sign_or_space c Hc) as [Hws Hsign].
  unfold parseFloat.
  cbn [append skip_whitespace]. rewrite Hws, Hsign.
  change (String c (a ++ String "." b)) with (String c a ++ String "." b).
  rewrite (take_digits_app (String c a) (String "." b) 0 Ha eq_refl).
  rewrite <- (string_app_nil b) at 1.
  rewrite (take_digits_app b "" _ Hb eq_refl).
  rewrite <- read_digits_app, Hread, Hlb.
  cbn [take_exponent signed String.length Nat.add].
  rewrite Z.sub_0_l. reflexivity.
Qed.

Lemma parseInt_decimal_digits (n : Z) :
  0 <= n -> parseInt (decimal_digits n) = Num (round_binary64 (inject_Z n)).
Proof.
  intros Hn.
  destruct (decimal_digits_spec n Hn) as (Hall & Hlen & Hread).
  destruct (decimal_digits n) as [| c a] eqn:Hd; [simpl in Hlen; lia |].
  pose proof Hall as Ha'. cbn [all_digits] in Ha'.
  apply andb_true_iff in Ha' as [Hc _].
  destruct (digit_not_sign_or_space c Hc) as [Hws Hsign].
  unfold parseInt. cbn [skip_whitespace]. rewrite Hws, Hsign.
  rewrite <- (string_app_nil (String c a)).
  rewrite (take_digits_app (String c a) "" 0 Hall eq_refl).
  rewrite Hread. cbn [String.length signed]. 
  replace (0 * 10 ^ Z.of_nat (S (String.length a)) + n) with n by lia.
  reflexivity.
Qed.

(** ** The conversion helpers on the prices the store holds *)

Lemma toFixed_nonneg (q : Q) (f : nat) :
  (0 <= q)%Q ->
  toFixed (Num q) f
  = fixed_notation (Qfloor (q * inject_Z (10 ^ Z.of_nat f) + (1 # 2))) f.
Proof.
  intros Hq. unfold toFixed.
  assert (Hc : Qcompare q 0 <> Lt).
  { intro H. apply Qlt_alt in H. lra. }
  assert (Ha : Qabs q = q).
  { destruct q as [a b]. unfold Qabs. f_equal. apply Z.abs_eq.
    unfold Qle in Hq. simpl in Hq. lia. }
  rewrite Ha. destruct (Qcompare q 0); try reflexivity. congruence.
Qed.

Lemma inject_Z_bounds (k lo hi : Z) :
  lo <= k < hi -> (inject_Z lo <= inject_Z k /\ inject_Z k < inject_Z hi)%Q.
Proof. intros [H1 H2]. split; [rewrite <- Zle_Qle | rewrite <- Zlt_Qlt]; assumption. Qed.

Lemma usdcToAtomic_decimal_10_6 (k : Z) :
  0 <= k < 10 ^ 10 -> usdcToAtomic (decimal_10_6 k) = decimal_digits k.
Proof.
  intros Hk. unfold usdcToAtomic, decimal_10_6.
  rewrite parseFloat_fixed_notation by lia.
  change (10 ^ (- Z.of_nat 6))%Q with (1 # 1000000)%Q.
  cbn [number_mul].
  destruct (Z.eq_dec k 0) as [-> | Hz].
  - reflexivity.
  - destruct (inject_Z_bounds k 1 (10 ^ 10) ltac:(lia)) as [Hlo Hhi].
    change (inject_Z 1) with 1%Q in Hlo.
    change (inject_Z (10 ^ 10)) with 10000000000%Q in Hhi.
    set (K := inject_Z k) in *.
    pose proof (round_binary64_bounds (K * (1 # 1000000))) as H1.
    set (x1 := round_binary64 (K * (1 # 1000000))) in *.
    unfold eps53 in H1.
    assert (Hx1 : (0 < x1)%Q) by lra.
    pose proof (round_binary64_bounds (x1 * 1000000)) as H2.
    set (x2 := round_binary64 (x1 * 1000000)) in *.
    unfold eps53 in H2.
    rewrite toFixed_nonneg by lra.
    cbn [fixed_notation]. f_equal.
    change (inject_Z (10 ^ Z.of_nat 0)) with 1%Q.
    apply Qfloor_unique; fold K; lra.
Qed.

Lemma atomicToUsdc_decimal_digits (k : Z) :
  0 <= k < 10 ^ 10 -> atomicToUsdc (decimal_digits k) = decimal_10_6 k.
Proof.
  intros Hk. unfold atomicToUsdc, decimal_10_6.
  rewrite parseInt_decimal_digits by lia.
  cbn [number_div]. change (Qeq_bool 1000000 0) with false. cbv iota.
  destruct (Z.eq_dec k 0) as [-> | Hz].
  - reflexivity.
  - destruct (inject_Z_bounds k 1 (10 ^ 10) ltac:(lia)) as [Hlo Hhi].
    change (inject_Z 1) with 1%Q in Hlo.
    change (inject_Z (10 ^ 10)) with 10000000000%Q in Hhi.
    set (K := inject_Z k) in *.
    pose proof (round_binary64_bounds K) as H1.
    set (y1 := round_binary64 K) in *.
    unfold eps53 in H1.
    assert (Hy1 : (0 < y1)%Q) by lra.
    assert (Hdiv : (y1 / 1000000 == y1 * (1 # 1000000))%Q) by reflexivity.
    pose proof (round_binary64_bounds (y1 / 1000000)) as H2.
    set (y2 := round_binary64 (y1 / 1000000)) in *.
    unfold eps53 in H2. rewrite Hdiv in H2.
    rewrite toFixed_nonneg by lra.
    f_equal.
    change (inject_Z (10 ^ Z.of_nat 6)) with 1000000%Q.
    apply Qfloor_unique; fold K; lra.
Qed.

Lemma scale_decimal_fixed_notation (k : Z) :
  0 <= k -> scale_decimal (decimal_10_6 k) = Some k.
Proof.
  intros Hk. unfold decimal_10_6, scale_decimal.
  destruct (fixed_notation_spec k 5 Hk) as (a & b & -> & Ha & Hb & Hla & Hlb & Hread).
  change (a ++ "." ++ b)%string with (a ++ String "." b)%string.
  rewrite (take_digits_app a (String "." b) 0 Ha eq_refl).
  rewrite <- (string_app_nil b) at 1.
  rewrite (take_digits_app b "" _ Hb eq_refl).
  rewrite <- read_digits_app, Hread, Hlb.
  cbn. f_equal. lia.
Qed.

(** C3, as the claim states it, fails: a price with six decimals whose
    conversion is not the exactly scaled integer (the product is rounded to
    binary64: 9007199254740993 is not a binary64 value). *)
Lemma usdcToAtomic_exact_counterexample :
  ~ (forall usdc k, scale_decimal usdc = Some k -> usdcToAtomic usdc = decimal_digits k).
Proof.
  intros H.
  specialize (H "9007199254.740993" 9007199254740993 eq_refl).
  vm_compute in H. discriminate H.
Qed.

(** C3, amended: for every price a [decimal(10, 6)] column holds (k
    millionths, below 10^4 USDC, printed with six decimals) the conversion
    [usdcToAtomic], which goes through binary64 ([parseFloat], a product and
    [toFixed(0)]), returns exactly the integer that decimal scaling gives,
    and [atomicToUsdc] brings it back to the same price string. *)
Theorem usdc_conversion_exact_on_store_prices (k : Z) :
  0 <= k < 10 ^ 10 ->
  scale_decimal (decimal_10_6 k) = Some k /\
  usdcToAtomic (decimal_10_6 k) = decimal_digits k /\
  atomicToUsdc (usdcToAtomic (decimal_10_6 k)) = decimal_10_6 k.
Proof.
  intros Hk. split; [| split].
  - apply scale_decimal_fixed_notation. lia.
  - now apply usdcToAtomic_decimal_10_6.
  - rewrite usdcToAtomic_decimal_10_6 by assumption.
    now apply atomicToUsdc_decimal_digits.
Qed.

Lemma usdc_conversion_exact_witness :
  0 <= 10000 < 10 ^ 10 /\
  scale_decimal "0.010000" = Some 10000 /\
  usdcToAtomic "0.010000" = "10000" /\
  atomicToUsdc (usdcToAtomic "0.010000") = "0.010000".
Proof.
  split; [split; [lia | reflexivity] |].
  apply (usdc_conversion_exact_on_store_prices 10000).
  split; [lia | reflexivity].
Defined.

(** ** Running the store *)

Ltac io_unfold :=
  cbv beta iota zeta delta
    [bind ret throw try_catch when statement select_from update_payments
     update_paywalls delete_paywalls delete_accessGrants insert_payment
     insert_accessGrant new_Date limit first_or_null];
  cbn [db now queries facilitator_calls firstn hd_error].

Lemma filter_nil_existsb {A} (f : A -> bool) (l : list A) :
  filter f l = [] <-> existsb f l = false.
Proof.
  induction l as [| x l IH]; simpl; [tauto |].
  destruct (f x); simpl; [split; discriminate | exact IH].
Qed.

Lemma same_grant_key_refl (b : Z) (a : string) (g : AccessGrant.t) :
  AccessGrant.blockId g = b -> AccessGrant.payerWallet g = a ->
  same_grant_key b a g = true.
Proof.
  intros <- <-. unfold same_grant_key.
  now rewrite Z.eqb_refl, String.eqb_refl.
Qed.

(** ** The access ledger *)

(** What [grantAccess] does, by whether the pair already has a grant. *)
Lemma grantAccess_run (b : Z) (a : string) (pid : option uuid) (w : World) :
  match filter (same_grant_key b (toLowerCase a)) (accessGrants (db w)) with
  | g :: _ =>
      grantAccess b a pid w
      = (Returned g, mkWorld (db w) (now w) (S (queries w)) (facilitator_calls w))
  | [] =>
      let created :=
        AccessGrant.mk (fresh_uuid (map AccessGrant.id (accessGrants (db w))))
          b (toLowerCase a) pid (now w) in
      grantAccess b a pid w
      = (Returned created,
         mkWorld (with_accessGrants (db w) (accessGrants (db w) ++ [created]))
           (now w) (S (S (queries w))) (facilitator_calls w))
  end.
Proof.
  unfold grantAccess.
  destruct (filter (same_grant_key b (toLowerCase a)) (accessGrants (db w))) as [| g r] eqn:Hf;
    io_unfold; rewrite Hf; io_unfold.
  - apply filter_nil_existsb in Hf. cbn [new_blockId new_grant_payerWallet].
    rewrite Hf. reflexivity.
  - reflexivity.
Qed.




Lemma hasAccess_run (b : Z) (a : string) (w : World) :
  a <> "" ->
  hasAccess b a w
  = (Returned (existsb (same_grant_key b (toLowerCase a)) (accessGrants (db w))),
     mkWorld (db w) (now w) (S (queries w)) (facilitator_calls w)).
Proof.
  intros Ha. unfold hasAccess.
  apply String.eqb_neq in Ha. rewrite Ha. io_unfold.
  destruct (filter (same_grant_key b (toLowerCase a)) (accessGrants (db w)))
    as [| g r] eqn:Hf.
  - apply filter_nil_existsb in Hf. rewrite Hf. reflexivity.
  - assert (He : existsb (same_grant_key b (toLowerCase a)) (accessGrants (db w)) = true).
    { destruct (existsb _ _) eqn:He; [reflexivity |].
      apply filter_nil_existsb in He. congruence. }
    rewrite He. reflexivity.
Qed.



(** ** The paywall registry *)

Lemma find_filter {A} (f : A -> bool) (l : list A) :
  match find f l with
  | Some x => exists r, filter f l = x :: r
  | None => filter f l = []
  end.
Proof.
  induction l as [| y l IH]; simpl; [reflexivity |].
  destruct (f y); [now exists (filter f l) | exact IH].
Qed.

Lemma left_join_owner_head (us : list User.t) (p : Paywall.t) :
  exists x r, left_join_owner us p = x :: r /\ paywall_row x = p.
Proof.
  unfold left_join_owner.
  destruct (filter _ us) as [| u r]; simpl; eauto.
Qed.

Lemma getPaywallByBlockId_run (b : Z) (w : World) :
  let w' := mkWorld (db w) (now w) (S (queries w)) (facilitator_calls w) in
  match find (for_block b) (paywalls (db w)) with
  | Some p => exists x, getPaywallByBlockId b w = (Returned (Some x), w') /\ paywall_row x = p
  | None => getPaywallByBlockId b w = (Returned None, w')
  end.
Proof.
  intros w'. unfold getPaywallByBlockId. io_unfold.
  pose proof (find_filter (for_block b) (paywalls (db w))) as Hf.
  destruct (find (for_block b) (paywalls (db w))) as [p |].
  - destruct Hf as [r Hf]. rewrite Hf. cbn [flat_map].
    destruct (left_join_owner_head (users (db w)) p) as (x & r' & Hx & Hrow).
    rewrite Hx. cbn [app firstn]. exists x. split; [reflexivity | exact Hrow].
  - rewrite Hf. reflexivity.
Qed.

Lemma not_owner_true (x : PaywallWithOwner) (requester : uuid) :
  Paywall.ownerUserId (paywall_row x) <> Some requester -> not_owner x requester = true.
Proof.
  intros H. unfold not_owner.
  destruct (Paywall.ownerUserId (paywall_row x)) as [o |]; [| reflexivity].
  apply negb_true_iff, N.eqb_neq. congruence.
Qed.

(** Without a row for the block the three operations answer NOT_FOUND. *)
Lemma paywall_absent_not_found (b : Z) (requester : uuid) (updates : UpdatePaywallParams)
    (w : World) :
  find (for_block b) (paywalls (db w)) = None ->
  exists w',
    db w' = db w /\
    updatePaywall b requester updates w = (Threw (PaywallError "Paywall not found" NOT_FOUND), w') /\
    deactivatePaywall b requester w = (Threw (PaywallError "Paywall not found" NOT_FOUND), w') /\
    deletePaywall b requester w = (Threw (PaywallError "Paywall not found" NOT_FOUND), w').
Proof.
  intros Hfind.
  pose proof (getPaywallByBlockId_run b w) as Hrun. cbv zeta in Hrun.
  rewrite Hfind in Hrun.
  eexists. split; [| repeat split].
  2: unfold updatePaywall, bind; rewrite Hrun; reflexivity.
  2: unfold deactivatePaywall, bind; rewrite Hrun; reflexivity.
  2: unfold deletePaywall, bind; rewrite Hrun; reflexivity.
  reflexivity.
Qed.

(** C9: on an existing paywall, [updatePaywall] and [deletePaywall] (and
    [deactivatePaywall]) called by a requester who is not the owner throw a
    [PaywallError] with code FORBIDDEN, a code different from NOT_FOUND, and
    leave the store as it was. *)
Theorem non_owner_is_forbidden (b : Z) (requester : uuid) (updates : UpdatePaywallParams)
    (p : Paywall.t) (w : World) :
  find (for_block b) (paywalls (db w)) = Some p ->
  Paywall.ownerUserId p <> Some requester ->
  exists w',
    db w' = db w /\
    updatePaywall b requester updates w
    = (Threw (PaywallError "You do not own this paywall" FORBIDDEN), w') /\
    deletePaywall b requester w
    = (Threw (PaywallError "You do not own this paywall" FORBIDDEN), w') /\
    deactivatePaywall b requester w
    = (Threw (PaywallError "You do not own this paywall" FORBIDDEN), w') /\
    FORBIDDEN <> NOT_FOUND.
Proof.
  intros Hfind Hown.
  pose proof (getPaywallByBlockId_run b w) as Hrun. cbv zeta in Hrun.
  rewrite Hfind in Hrun. destruct Hrun as (x & Hrun & Hrow).
  assert (Hno : not_owner x requester = true) by (apply not_owner_true; congruence).
  eexists. split; [| repeat split].
  2: unfold updatePaywall, bind; rewrite Hrun; unfold when; rewrite Hno; reflexivity.
  2: unfold deletePaywall, bind; rewrite Hrun; unfold when; rewrite Hno; reflexivity.
  2: unfold deactivatePaywall, bind; rewrite Hrun; unfold when; rewrite Hno; reflexivity.
  - reflexivity.
  - discriminate.
Qed.

Lemma non_owner_is_forbidden_witness :
  find (for_block 42) (paywalls (db example_world)) = Some example_paywall /\
  Paywall.ownerUserId example_paywall <> Some 8%N /\
  exists w',
    db w' = db example_world /\
    updatePaywall 42 8%N (mkUpdatePaywallParams (Some "1.000000") None None) example_world
    = (Threw (PaywallError "You do not own this paywall" FORBIDDEN), w') /\
    deletePaywall 42 8%N example_world
    = (Threw (PaywallError "You do not own this paywall" FORBIDDEN), w') /\
    deactivatePaywall 42 8%N example_world
    = (Threw (PaywallError "You do not own this paywall" FORBIDDEN), w') /\
    FORBIDDEN <> NOT_FOUND.
Proof.
  assert (Hown : Paywall.ownerUserId example_paywall <> Some 8%N) by discriminate.
  split; [reflexivity | split; [exact Hown |]].
  exact (non_owner_is_forbidden 42 8%N (mkUpdatePaywallParams (Some "1.000000") None None)
           example_paywall example_world eq_refl Hown).
Defined.

Lemma map_get_set_same {V} (k : Z) (v : V) (m : JsMap V) :
  map_get k (map_set k v m) = Some v.
Proof.
  induction m as [| [k' v'] m IH]; simpl.
  - now rewrite Z.eqb_refl.
  - destruct (k' =? k) eqn:Hk; simpl; [now rewrite Z.eqb_refl | now rewrite Hk].
Qed.

Lemma map_get_set_other {V} (k k0 : Z) (v : V) (m : JsMap V) :
  k0 <> k -> map_get k (map_set k0 v m) = map_get k m.
Proof.
  intros Hne. induction m as [| [k' v'] m IH]; simpl.
  - apply Z.eqb_neq in Hne. now rewrite Hne.
  - destruct (k' =? k0) eqn:Hk; simpl.
    + apply Z.eqb_eq in Hk. subst k'.
      apply Z.eqb_neq in Hne. now rewrite Hne.
    + destruct (k' =? k); [reflexivity | exact IH].
Qed.

Lemma for_each_blockId_run (ids : list Z) :
  forall (m : JsMap PaywallInfo) (w : World),
    for_each_blockId ids m w
    = (Returned (fold_left (lookup_step (paywalls (db w))) ids m),
       mkWorld (db w) (now w) (length ids + queries w) (facilitator_calls w)).
Proof.
  induction ids as [| id ids IH]; intros m w.
  - destruct w; reflexivity.
  - cbn [for_each_blockId fold_left]. io_unfold.
    pose proof (find_filter (is_active_for id) (paywalls (db w))) as Hf.
    assert (Hstep : lookup_step (paywalls (db w)) m id
                    = match find (is_active_for id) (paywalls (db w)) with
                      | Some p0 => map_set id (mkPaywallInfo (Paywall.priceUsdc p0)
                                                 (Paywall.active p0)) m
                      | None => m
                      end) by reflexivity.
    rewrite Hstep. clear Hstep.
    destruct (find (is_active_for id) (paywalls (db w))) as [p0 |].
    + destruct Hf as [r Hf]. rewrite Hf. cbn [firstn].
      rewrite IH. cbn [db now queries facilitator_calls length].
      rewrite <- plus_n_Sm. reflexivity.
    + rewrite Hf. cbn [firstn]. rewrite IH.
      cbn [db now queries facilitator_calls length]. rewrite <- plus_n_Sm.
      reflexivity.
Qed.

(** The part of C8 that holds: the map returned has exactly the requested
    ids that have an active paywall, each with the price of that paywall. *)
Lemma lookup_fold_get (rows : list Paywall.t) (id : Z) (ids : list Z) :
  forall m,
    map_get id (fold_left (lookup_step rows) ids m)
    = match find (is_active_for id) rows with
      | Some p0 =>
          if existsb (Z.eqb id) ids
          then Some (mkPaywallInfo (Paywall.priceUsdc p0) (Paywall.active p0))
          else map_get id m
      | None => map_get id m
      end.
Proof.
  induction ids as [| id0 ids IH]; intros m.
  - cbn [fold_left existsb]. destruct (find _ rows); reflexivity.
  - cbn [fold_left existsb]. rewrite IH.
    destruct (id =? id0) eqn:Heq.
    + apply Z.eqb_eq in Heq. subst id0. unfold lookup_step.
      destruct (find (is_active_for id) rows) as [p0 |]; [| reflexivity].
      cbn [orb]. rewrite map_get_set_same.
      destruct (existsb (Z.eqb id) ids); reflexivity.
    + apply Z.eqb_neq in Heq. cbn [orb].
      assert (Hm : map_get id (lookup_step rows m id0) = map_get id m).
      { unfold lookup_step. destruct (find (is_active_for id0) rows); [| reflexivity].
        apply map_get_set_other. congruence. }
      rewrite Hm. reflexivity.
Qed.

Lemma getPaywallsForBlocks_run (ids : list Z) (w : World) :
  getPaywallsForBlocks ids w
  = (Returned (fold_left (lookup_step (paywalls (db w))) ids []),
     mkWorld (db w) (now w)
       (match ids with [] => 0 | _ => S (length ids) end + queries w)
       (facilitator_calls w)).
Proof.
  destruct ids as [| id ids]; [destruct w; reflexivity |].
  unfold getPaywallsForBlocks. io_unfold.
  rewrite for_each_blockId_run. cbn [db now queries facilitator_calls].
  rewrite <- plus_n_Sm. reflexivity.
Qed.

Lemma getPaywallsForBlocks_mapping (ids : list Z) (w : World) (id : Z) :
  exists m w',
    getPaywallsForBlocks ids w = (Returned m, w') /\
    map_get id m
    = match find (is_active_for id) (paywalls (db w)) with
      | Some p0 =>
          if existsb (Z.eqb id) ids
          then Some (mkPaywallInfo (Paywall.priceUsdc p0) true)
          else None
      | None => None
      end.
Proof.
  rewrite getPaywallsForBlocks_run. eexists. eexists. split; [reflexivity |].
  rewrite lookup_fold_get. cbn [map_get].
  destruct (find (is_active_for id) (paywalls (db w))) as [p0 |] eqn:Hfind; [| reflexivity].
  apply find_some in Hfind as [_ Hact]. unfold is_active_for in Hact.
  apply andb_true_iff in Hact as [_ Hact].
  destruct (Paywall.active p0); [reflexivity | discriminate].
Qed.

(** The number of statements [getPaywallsForBlocks] sends: for a non-empty
    list, one for the unused select of all active paywalls and one per id. *)
Lemma getPaywallsForBlocks_queries (ids : list Z) (w : World) :
  queries (snd (getPaywallsForBlocks ids w))
  = (match ids with [] => 0 | _ => S (length ids) end + queries w)%nat.
Proof. rewrite getPaywallsForBlocks_run. reflexivity. Qed.

(** C8, at the input [42; 5]: the map is right (42 has an active paywall, 5
    has none) but three statements are sent to the store, not one. *)
Theorem getPaywallsForBlocks_not_a_single_fetch :
  fst (getPaywallsForBlocks [42; 5] example_world)
  = Returned [(42, mkPaywallInfo "0.050000" true)] /\
  queries (snd (getPaywallsForBlocks [42; 5] example_world)) = 3%nat.
Proof. split; reflexivity. Qed.

(** ** The settlement coordinator *)

Ltac pay_unfold :=
  cbv beta iota zeta delta
    [recordPayment failPayment settlePayment server_verifyPayment
     server_settlePayment log_call bind ret throw try_catch statement
     update_payments insert_payment new_Date limit first_or_null];
  cbn [db now queries facilitator_calls firstn hd_error
       param_paywallId param_payerWallet param_amountUsdc param_payerUserId
       new_paywallId new_payerWallet new_amountUsdc new_payerUserId new_status
       Payment.id].

Lemma requirement_matches_false (paywall : PaywallWithOwner) (r : PaymentRequirements) :
  requirement_matches paywall r = false <->
  amount r <> usdcToAtomic (Paywall.priceUsdc (paywall_row paywall)) \/
  toLowerCase (payTo r) <> toLowerCase (Paywall.recipientWallet (paywall_row paywall)).
Proof.
  unfold requirement_matches. rewrite andb_false_iff, !String.eqb_neq. tauto.
Qed.

Lemma processPayment_rejects (server : Server.t) (header : string)
    (paywall : PaywallWithOwner) (b : Z) (wallet : option string)
    (pp : PaymentPayload) (w : World) :
  Server.decodePaymentSignatureHeader server header = Returned pp ->
  requirement_matches paywall (accepted pp) = false ->
  exists msg,
    processPayment server header paywall b wallet w = (Returned (failure msg), w) /\
    (msg = "Payment amount mismatch. Expected "
           ++ usdcToAtomic (Paywall.priceUsdc (paywall_row paywall))
           ++ ", got " ++ amount (accepted pp)
     \/ msg = "Payment recipient mismatch")%string.
Proof.
  intros Hdec Hmis. unfold processPayment. rewrite Hdec.
  unfold requirement_matches in Hmis.
  destruct (amount (accepted pp) =? usdcToAtomic _)%string eqn:Ha; cbn [negb].
  - cbn [andb] in Hmis. rewrite Hmis. cbn [negb].
    eexists. split; [reflexivity | right; reflexivity].
  - eexists. split; [reflexivity | left; reflexivity].
Qed.

(** C2: a proof whose accepted requirement differs from the paywall's
    (the amount as a string of minor units, so also as an integer; the
    recipient compared in lower case) is rejected with a mismatch error and
    the world is left as it was: no payment row, no statement sent to the
    store, no call to the facilitator. *)
Theorem requirement_mismatch_rejected (server : Server.t) (header : string)
    (paywall : PaywallWithOwner) (b : Z) (wallet : option string)
    (pp : PaymentPayload) (w : World) :
  Server.decodePaymentSignatureHeader server header = Returned pp ->
  amount (accepted pp) <> usdcToAtomic (Paywall.priceUsdc (paywall_row paywall)) \/
  toLowerCase (payTo (accepted pp))
  <> toLowerCase (Paywall.recipientWallet (paywall_row paywall)) ->
  exists msg,
    processPayment server header paywall b wallet w = (Returned (failure msg), w) /\
    (msg = "Payment amount mismatch. Expected "
           ++ usdcToAtomic (Paywall.priceUsdc (paywall_row paywall))
           ++ ", got " ++ amount (accepted pp)
     \/ msg = "Payment recipient mismatch")%string.
Proof.
  intros Hdec Hmis. apply processPayment_rejects; [exact Hdec |].
  now apply requirement_matches_false.
Qed.

Lemma requirement_mismatch_witness :
  Server.decodePaymentSignatureHeader (example_server (Threw NonError)) "proof"
  = Returned example_payload /\
  (amount (accepted example_payload) <> usdcToAtomic "0.040000" \/
   toLowerCase (payTo (accepted example_payload)) <> toLowerCase "0xRecipient") /\
  exists msg,
    processPayment (example_server (Threw NonError)) "proof"
      (mkPaywallWithOwner
         (Paywall.mk 1%N 42 (Some 7%N) "0.040000" "0xRecipient" true 0 0) None None)
      42 None example_world
    = (Returned (failure msg), example_world) /\
    (msg = "Payment amount mismatch. Expected 40000, got 50000"
     \/ msg = "Payment recipient mismatch").
Proof.
  assert (Hmis : amount (accepted example_payload) <> usdcToAtomic "0.040000" \/
                 toLowerCase (payTo (accepted example_payload))
                 <> toLowerCase "0xRecipient").
  { left. vm_compute. discriminate. }
  split; [reflexivity | split; [exact Hmis |]].
  exact (requirement_mismatch_rejected (example_server (Threw NonError)) "proof"
           (mkPaywallWithOwner
              (Paywall.mk 1%N 42 (Some 7%N) "0.040000" "0xRecipient" true 0 0) None None)
           42 None example_payload example_world eq_refl Hmis).
Defined.

Lemma fresh_uuid_above (used : list uuid) (x : uuid) :
  In x used -> (x < fresh_uuid used)%N.
Proof.
  unfold fresh_uuid. induction used as [| y used IH]; intros Hin; [contradiction |].
  cbn [fold_right]. destruct Hin as [-> | Hin]; [lia |].
  specialize (IH Hin). lia.
Qed.

Lemma fresh_payment_id (rows : list Payment.t) (q : Payment.t) :
  In q rows -> has_id (fresh_uuid (map Payment.id rows)) q = false.
Proof.
  intros Hin. unfold has_id. apply N.eqb_neq.
  pose proof (fresh_uuid_above (map Payment.id rows) (Payment.id q) (in_map _ _ _ Hin)).
  lia.
Qed.

Lemma update_rows_untouched {R} (set : R -> R) (cond : R -> bool) (rows : list R) :
  (forall q, In q rows -> cond q = false) -> update_rows set cond rows = rows.
Proof.
  intros H. unfold update_rows. induction rows as [| r rows IH]; [reflexivity |].
  cbn [map]. rewrite (H r (or_introl eq_refl)).
  rewrite IH; [reflexivity |]. intros q Hq. apply H. now right.
Qed.

(** Updating by the id of the row just inserted touches that row only. *)
Lemma update_pending_payment (set : Payment.t -> Payment.t) (w : World)
    (paywall : PaywallWithOwner) (payer : string) :
  let p0 := pending_payment w paywall payer in
  update_rows set (has_id (Payment.id p0)) (payments (db w) ++ [p0])
  = (payments (db w) ++ [set p0])%list.
Proof.
  intros p0. unfold update_rows. rewrite map_app.
  fold (update_rows set (has_id (Payment.id p0)) (payments (db w))).
  rewrite update_rows_untouched.
  - cbn [map]. unfold has_id at 1. now rewrite N.eqb_refl.
  - intros q Hq. unfold p0, pending_payment. cbn [Payment.id].
    now apply fresh_payment_id.
Qed.

Lemma grantAccess_returns (b : Z) (a : string) (pid : option uuid) (w : World) :
  exists g,
    grantAccess b a pid w = (Returned g, snd (grantAccess b a pid w)) /\
    same_grant_key b (toLowerCase a) g = true /\
    In g (accessGrants (db (snd (grantAccess b a pid w)))) /\
    payments (db (snd (grantAccess b a pid w))) = payments (db w) /\
    facilitator_calls (snd (grantAccess b a pid w)) = facilitator_calls w.
Proof.
  pose proof (grantAccess_run b a pid w) as Hrun.
  destruct (filter (same_grant_key b (toLowerCase a)) (accessGrants (db w)))
    as [| g r] eqn:Hf.
  - cbv zeta in Hrun. rewrite Hrun. cbn [snd db accessGrants with_accessGrants payments
                                          facilitator_calls].
    eexists. split; [reflexivity |]. repeat split.
    + now apply same_grant_key_refl.
    + apply in_or_app. right. now left.
  - rewrite Hrun. cbn [snd db facilitator_calls].
    exists g. split; [reflexivity |].
    assert (Hin : In g (filter (same_grant_key b (toLowerCase a)) (accessGrants (db w))))
      by (rewrite Hf; now left).
    apply filter_In in Hin as [Hin Hkey]. repeat split; assumption.
Qed.

(** [processPayment] once the header decodes and the requirement matches:
    the result and the world, by what the facilitator answers. *)
Lemma processPayment_run (server : Server.t) (header : string)
    (paywall : PaywallWithOwner) (b : Z) (wallet : option string)
    (pp : PaymentPayload) (w : World) :
  Server.decodePaymentSignatureHeader server header = Returned pp ->
  requirement_matches paywall (accepted pp) = true ->
  let r := accepted pp in
  let payer := payer_of wallet pp in
  let p0 := pending_payment w paywall payer in
  processPayment server header paywall b wallet w
  = match Server.verifyPayment server pp r with
    | Threw e =>
        (Returned (failure (catch_message e)), failed_attempt w p0 [VerifyCall pp r])
    | Returned vr =>
        if isValid vr then
          match Server.settlePayment server pp r with
          | Threw e =>
              (Returned (failure (catch_message e)),
               failed_attempt w p0 [VerifyCall pp r; SettleCall pp r])
          | Returned sr =>
              if success sr then
                let actualPayer :=
                  or_default (or_else (settle_payer sr) (verify_payer vr)) payer in
                (Returned (mkPaymentResult true (Some (Payment.id p0))
                             (Some (transaction sr)) (Some actualPayer) None),
                 snd (grantAccess b actualPayer (Some (Payment.id p0))
                        (settled_attempt w p0 (transaction sr)
                           [VerifyCall pp r; SettleCall pp r])))
              else
                (Returned (failure (or_default (errorReason sr) "Payment settlement failed")),
                 failed_attempt w p0 [VerifyCall pp r; SettleCall pp r])
          end
        else
          (Returned (failure (or_default (invalidReason vr) "Payment verification failed")),
           failed_attempt w p0 [VerifyCall pp r])
    end.
Proof.
  intros Hdec Hmatch r payer p0.
  unfold requirement_matches in Hmatch. apply andb_true_iff in Hmatch as [Ha Hp].
  unfold processPayment. rewrite Hdec. rewrite Ha, Hp. cbn [negb].
  fold payer. pay_unfold. subst r.
  change (Payment.mk (fresh_uuid _) _ _ _ _ _ _ _ _) with p0.
  change (fresh_uuid (map Payment.id (payments (db w)))) with (Payment.id p0).
  pose proof (update_pending_payment mark_failed w paywall payer) as Hfail.
  cbv zeta in Hfail. fold p0 in Hfail.
  unfold failed_attempt, settled_attempt, catch_message.
  destruct (Server.verifyPayment server pp (accepted pp)) as [vr | e];
    [destruct (isValid vr); cbn [negb];
     [destruct (Server.settlePayment server pp (accepted pp)) as [sr | e];
      [destruct (success sr); cbn [negb] |] |] |];
    cbn [db now queries facilitator_calls payments with_payments users paywalls accessGrants].
  - pose proof (update_pending_payment (mark_settled (transaction sr) (now w))
                  w paywall payer) as Hset.
    cbv zeta in Hset. fold p0 in Hset. rewrite Hset.
    rewrite <- app_assoc. cbn [app].
    match goal with
    | |- context [grantAccess ?b' ?a' ?pid' ?w'] =>
        destruct (grantAccess_returns b' a' pid' w') as (g & Hg & _)
    end.
    rewrite Hg. reflexivity.
  - rewrite Hfail, <- app_assoc. reflexivity.
  - rewrite Hfail, <- app_assoc. reflexivity.
  - rewrite Hfail. reflexivity.
  - rewrite Hfail. reflexivity.
Qed.



Lemma payer_of_unknown (wallet : option string) (pp : PaymentPayload) :
  truthy wallet = false -> truthy (payload_payer pp) = false ->
  payer_of wallet pp = "unknown".
Proof.
  intros Hw Hp. unfold payer_of, or_default, or_else. rewrite Hw, Hp. reflexivity.
Qed.

Lemma same_grant_key_true (b : Z) (a : string) (g : AccessGrant.t) :
  same_grant_key b a g = true ->
  AccessGrant.blockId g = b /\ AccessGrant.payerWallet g = a.
Proof.
  unfold same_grant_key. intros H. apply andb_true_iff in H as [Hb Ha].
  split; [now apply Z.eqb_eq | now apply String.eqb_eq].
Qed.

(** C10: when the requirement checks pass, no wallet address comes with the
    request, the payload names no payer and neither the verification nor
    the successful settlement reports one, the payment row is written for
    the payer wallet "unknown", a grant exists afterwards for (block,
    "unknown"), and [hasAccess] answers true to whoever presents the
    wallet "unknown" for that block. *)
Theorem unknown_payer_is_granted_access (server : Server.t) (header : string)
    (paywall : PaywallWithOwner) (b : Z) (wallet : option string)
    (pp : PaymentPayload) (vr : VerifyResponse) (sr : SettleResponse) (w : World) :
  Server.decodePaymentSignatureHeader server header = Returned pp ->
  requirement_matches paywall (accepted pp) = true ->
  truthy wallet = false ->
  truthy (payload_payer pp) = false ->
  Server.verifyPayment server pp (accepted pp) = Returned vr ->
  isValid vr = true ->
  truthy (verify_payer vr) = false ->
  Server.settlePayment server pp (accepted pp) = Returned sr ->
  success sr = true ->
  truthy (settle_payer sr) = false ->
  exists r w' p g,
    processPayment server header paywall b wallet w = (Returned r, w') /\
    result_success r = true /\ result_payer r = Some "unknown" /\
    payments (db w') = (payments (db w) ++ [p])%list /\
    Payment.payerWallet p = "unknown" /\ Payment.status p = settled /\
    In g (accessGrants (db w')) /\
    AccessGrant.blockId g = b /\ AccessGrant.payerWallet g = "unknown" /\
    fst (hasAccess b "unknown" w') = Returned true.
Proof.
  intros Hdec Hmatch Hw Hp Hver Hvalid Hvp Hset Hsucc Hsp.
  pose proof (processPayment_run server header paywall b wallet pp w Hdec Hmatch) as Hrun.
  cbv zeta in Hrun. rewrite Hver, Hvalid, Hset, Hsucc in Hrun.
  rewrite (payer_of_unknown wallet pp Hw Hp) in Hrun.
  assert (Hactual : or_default (or_else (settle_payer sr) (verify_payer vr)) "unknown"
                    = "unknown").
  { unfold or_default, or_else. rewrite Hsp, Hvp. reflexivity. }
  rewrite Hactual in Hrun. rewrite Hrun. clear Hrun.
  match goal with
  | |- context [grantAccess ?b' ?a' ?pid' ?w'] =>
      destruct (grantAccess_returns b' a' pid' w') as (g & _ & Hkey & Hin & Hpay & _);
      set (w2 := snd (grantAccess b' a' pid' w')) in *
  end.
  change (toLowerCase "unknown") with "unknown" in Hkey.
  destruct (same_grant_key_true _ _ _ Hkey) as [Hgb Hga].
  eexists. exists w2. eexists. exists g.
  split; [reflexivity |]. split; [reflexivity |]. split; [reflexivity |].
  split; [exact Hpay |]. split; [reflexivity |]. split; [reflexivity |].
  split; [exact Hin |]. split; [exact Hgb |]. split; [exact Hga |].
  rewrite hasAccess_run by discriminate. cbn [fst]. f_equal.
  change (toLowerCase "unknown") with "unknown".
  apply existsb_exists. exists g. split; assumption.
Qed.

Lemma unknown_payer_witness :
  exists r w' p g,
    processPayment (example_server (Returned (mkSettleResponse true None "0xTxHash" None)))
      "proof" example_paywall_with_owner 42 None example_world = (Returned r, w') /\
    result_success r = true /\ result_payer r = Some "unknown" /\
    payments (db w') = (payments (db example_world) ++ [p])%list /\
    Payment.payerWallet p = "unknown" /\ Payment.status p = settled /\
    In g (accessGrants (db w')) /\
    AccessGrant.blockId g = 42 /\ AccessGrant.payerWallet g = "unknown" /\
    fst (hasAccess 42 "unknown" w') = Returned true.
Proof.
  apply (unknown_payer_is_granted_access
           (example_server (Returned (mkSettleResponse true None "0xTxHash" None)))
           "proof" example_paywall_with_owner 42 None example_payload
           (mkVerifyResponse true None None)
           (mkSettleResponse true None "0xTxHash" None) example_world);
    reflexivity.
Defined.

(** C7, as the claim states it, fails: the message of the error thrown by
    the settlement is not recorded.  Were it stored, it could be read back
    from the world the attempt leaves; but two different messages leave the
    same world. *)
Lemma thrown_message_recorded_counterexample :
  ~ (exists recorded_reason : World -> option string,
       forall m,
         recorded_reason
           (snd (processPayment (example_server (Threw (Error m))) "proof"
                   example_paywall_with_owner 42 None example_world))
         = Some m).
Proof.
  intros [recorded_reason H].
  pose proof (H "timeout") as H1. pose proof (H "connection reset") as H2.
  change (snd (processPayment (example_server (Threw (Error "connection reset"))) "proof"
                 example_paywall_with_owner 42 None example_world))
    with (snd (processPayment (example_server (Threw (Error "timeout"))) "proof"
                 example_paywall_with_owner 42 None example_world)) in H2.
  rewrite H1 in H2. discriminate H2.
Qed.

(** C7, amended: when the settlement call throws, the attempt ends as one
    whose settlement was refused: the payment row goes to [failed] (no
    transaction hash, no grant), the world left is the very one a reported
    failure leaves, and the message of the error is returned to the caller
    in the result; it is not stored ([failPayment] does not use its reason
    and the table has no column for it). *)
Theorem settle_throw_marks_failed (server : Server.t) (header : string)
    (paywall : PaywallWithOwner) (b : Z) (wallet : option string)
    (pp : PaymentPayload) (vr : VerifyResponse) (e : thrown) (w : World) :
  Server.decodePaymentSignatureHeader server header = Returned pp ->
  requirement_matches paywall (accepted pp) = true ->
  Server.verifyPayment server pp (accepted pp) = Returned vr ->
  isValid vr = true ->
  Server.settlePayment server pp (accepted pp) = Threw e ->
  exists w' p,
    processPayment server header paywall b wallet w
    = (Returned (failure (catch_message e)), w') /\
    payments (db w') = (payments (db w) ++ [p])%list /\
    Payment.status p = failed /\ Payment.txHash p = None /\
    accessGrants (db w') = accessGrants (db w) /\
    forall sr,
      success sr = false ->
      snd (processPayment (with_settle server (Returned sr)) header paywall b wallet w) = w'.
Proof.
  intros Hdec Hmatch Hver Hvalid Hset.
  pose proof (processPayment_run server header paywall b wallet pp w Hdec Hmatch) as Hrun.
  cbv zeta in Hrun. rewrite Hver, Hvalid, Hset in Hrun.
  eexists. exists (mark_failed (pending_payment w paywall (payer_of wallet pp))).
  split; [exact Hrun |].
  repeat split.
  intros sr Hsr.
  pose proof (processPayment_run (with_settle server (Returned sr)) header paywall b
                wallet pp w Hdec Hmatch) as Hrun'.
  cbv zeta in Hrun'. cbn [with_settle Server.verifyPayment Server.settlePayment] in Hrun'.
  rewrite Hver, Hvalid, Hsr in Hrun'. rewrite Hrun'. reflexivity.
Qed.

Lemma settle_throw_witness :
  exists w' p,
    processPayment (example_server (Threw (Error "timeout"))) "proof"
      example_paywall_with_owner 42 None example_world
    = (Returned (failure "timeout"), w') /\
    payments (db w') = (payments (db example_world) ++ [p])%list /\
    Payment.status p = failed /\ Payment.txHash p = None /\
    accessGrants (db w') = accessGrants (db example_world) /\
    forall sr,
      success sr = false ->
      snd (processPayment
             (with_settle (example_server (Threw (Error "timeout"))) (Returned sr))
             "proof" example_paywall_with_owner 42 None example_world) = w'.
Proof.
  apply (settle_throw_marks_failed (example_server (Threw (Error "timeout"))) "proof"
           example_paywall_with_owner 42 None example_payload
           (mkVerifyResponse true None None) (Error "timeout") example_world);
    reflexivity.
Defined.

(** ** The payment lifecycle over sequences of store operations *)

Lemma find_update_rows (set : Payment.t -> Payment.t) (id pid : uuid)
    (rows : list Payment.t) :
  (forall q, Payment.id (set q) = Payment.id q) ->
  find (has_id id) (update_rows set (has_id pid) rows)
  = option_map (fun q => if has_id pid q then set q else q) (find (has_id id) rows).
Proof.
  intros Hid. unfold update_rows.
  induction rows as [| q rows IH]; [reflexivity |].
  cbn [map find].
  assert (Hq : has_id id (if has_id pid q then set q else q) = has_id id q).
  { destruct (has_id pid q); [| reflexivity]. unfold has_id. now rewrite Hid. }
  rewrite Hq. destruct (has_id id q); [reflexivity | exact IH].
Qed.

Lemma find_app_last {A} (f : A -> bool) (l : list A) (x : A) :
  find f (l ++ [x])
  = match find f l with
    | Some y => Some y
    | None => if f x then Some x else None
    end.
Proof.
  induction l as [| y l IH]; cbn [app find]; [reflexivity |].
  destruct (f y); [reflexivity | exact IH].
Qed.

Lemma store_step_refl (s : option PaymentStatus) : store_step s s = true.
Proof. destruct s as [[] |]; reflexivity. Qed.

(** One operation of the store moves the status of any payment by a step
    the store allows. *)
Lemma run_op_store_step (op : PaymentOp) (id : uuid) (w : World) :
  store_step (status_of id w) (status_of id (run_op op w)) = true.
Proof.
  unfold status_of. destruct op as [params | pid tx | pid reason]; cbn [run_op].
  - unfold recordPayment. pay_unfold. cbn [snd db payments with_payments].
    rewrite find_app_last.
    destruct (find (has_id id) (payments (db w))) as [q |].
    + apply store_step_refl.
    + destruct (has_id id _); reflexivity.
  - unfold settlePayment. pay_unfold. cbn [snd db payments with_payments].
    rewrite find_update_rows by reflexivity.
    destruct (find (has_id id) (payments (db w))) as [q |]; [| reflexivity].
    cbn [option_map]. destruct (has_id pid q).
    + cbn [mark_settled Payment.status]. destruct (Payment.status q); reflexivity.
    + apply store_step_refl.
  - unfold failPayment. pay_unfold. cbn [snd db payments with_payments].
    rewrite find_update_rows by reflexivity.
    destruct (find (has_id id) (payments (db w))) as [q |]; [| reflexivity].
    cbn [option_map]. destruct (has_id pid q).
    + cbn [mark_failed Payment.status]. destruct (Payment.status q); reflexivity.
    + apply store_step_refl.
Qed.

(** C6, as the claim states it, fails: after [recordPayment] and
    [settlePayment], [failPayment] on the same payment takes it from
    [settled] to [failed]. *)
Lemma lifecycle_counterexample :
  ~ (forall ops id w,
       steps_ok lifecycle_step (status_of id w) (status_trace id ops w) = true).
Proof.
  intros H.
  specialize (H [OpRecord (mkRecordPaymentParams 1%N "0xabc" "0.050000" None);
                 OpSettle 1%N "0xTxHash";
                 OpFail 1%N (Some "late failure")]
                1%N example_world).
  vm_compute in H. discriminate H.
Qed.

(** C6, amended: over every sequence of [recordPayment], [settlePayment]
    and [failPayment], a payment appears in [pending], never goes back to
    [pending] and never disappears; [settlePayment] and [failPayment] set
    the status whatever it was, so a terminal status can be replaced by the
    other one. *)
Theorem payment_status_follows_store_steps (ops : list PaymentOp) :
  forall (id : uuid) (w : World),
    steps_ok store_step (status_of id w) (status_trace id ops w) = true.
Proof.
  induction ops as [| op ops IH]; intros id w; [reflexivity |].
  cbn [status_trace steps_ok].
  rewrite run_op_store_step, IH. reflexivity.
Qed.

(* ================================================================== *)
(** * Further properties of the services *)

(** ** The access ledger: granting, revoking and reading compose *)

Lemma same_grant_key_pair (b b' : Z) (a a' : string) (g : AccessGrant.t) :
  same_grant_key b a g = true ->
  same_grant_key b' a' g = ((b' =? b) && (a' =? a)%string).
Proof.
  intros H. apply same_grant_key_true in H as [Hb Ha].
  unfold same_grant_key. rewrite Hb, Ha.
  rewrite (Z.eqb_sym b b'), (String.eqb_sym a a'). reflexivity.
Qed.

Lemma existsb_same_key_filter_out (b b' : Z) (a a' : string) (rows : list AccessGrant.t) :
  existsb (same_grant_key b' a')
    (filter (fun r => negb (same_grant_key b a r)) rows)
  = existsb (same_grant_key b' a') rows && negb ((b' =? b) && (a' =? a)%string).
Proof.
  induction rows as [| g rows IH]; [reflexivity |].
  cbn [filter existsb].
  destruct (same_grant_key b a g) eqn:Hg; cbn [negb].
  - rewrite IH, (same_grant_key_pair b b' a a' g Hg).
    destruct ((b' =? b) && (a' =? a)%string); cbn [orb negb];
      [now rewrite !andb_false_r | reflexivity].
  - cbn [existsb]. rewrite IH.
    destruct (same_grant_key b' a' g) eqn:Hg'; cbn [orb]; [| reflexivity].
    rewrite (same_grant_key_pair b' b a' a g Hg') in Hg.
    rewrite (Z.eqb_sym b' b), (String.eqb_sym a' a), Hg. reflexivity.
Qed.

(** X1.  After [grantAccess] for (b, a), [hasAccess] answers true for that pair
    (in any letter case) and answers for every other pair what it answered
    before. *)
Theorem hasAccess_after_grantAccess (b b' : Z) (a a' : string) (pid : option uuid)
    (w : World) :
  a' <> "" ->
  exists before,
    fst (hasAccess b' a' w) = Returned before /\
    fst (hasAccess b' a' (snd (grantAccess b a pid w)))
    = Returned (same_pair b' a' b a || before).
Proof.
  intros Ha'. rewrite !hasAccess_run by assumption. cbn [fst].
  eexists. split; [reflexivity |]. f_equal. unfold same_pair.
  pose proof (grantAccess_run b a pid w) as Hrun.
  destruct (filter (same_grant_key b (toLowerCase a)) (accessGrants (db w)))
    as [| g r] eqn:Hf.
  - cbv zeta in Hrun. rewrite Hrun.
    cbn [snd db accessGrants with_accessGrants].
    rewrite existsb_app. cbn [existsb]. rewrite orb_false_r.
    match goal with
    | |- context [same_grant_key b' ?la' ?c] =>
        rewrite (same_grant_key_pair b b' (toLowerCase a) la' c)
          by (apply same_grant_key_refl; reflexivity)
    end.
    apply orb_comm.
  - rewrite Hrun. cbn [snd db].
    assert (Hin : In g (filter (same_grant_key b (toLowerCase a)) (accessGrants (db w))))
      by (rewrite Hf; now left).
    apply filter_In in Hin as [Hin Hkey].
    destruct ((b' =? b) && (toLowerCase a' =? toLowerCase a)%string) eqn:Hsame;
      [| reflexivity].
    cbn [orb]. apply existsb_exists. exists g. split; [exact Hin |].
    now rewrite (same_grant_key_pair b b' _ _ g Hkey).
Qed.

Lemma hasAccess_after_grantAccess_witness :
  "0xABC" <> "" /\
  exists before,
    fst (hasAccess 42 "0xABC" example_world) = Returned before /\
    fst (hasAccess 42 "0xABC" (snd (grantAccess 42 "0xabc" None example_world)))
    = Returned (same_pair 42 "0xABC" 42 "0xabc" || before).
Proof.
  assert (H : "0xABC" <> "") by discriminate.
  split; [exact H |].
  exact (hasAccess_after_grantAccess 42 42 "0xabc" "0xABC" None example_world H).
Defined.

Lemma revokeAccess_run (b : Z) (a : string) (w : World) :
  revokeAccess b a w
  = (Returned (existsb (same_grant_key b (toLowerCase a)) (accessGrants (db w))),
     mkWorld (with_accessGrants (db w)
                (filter (fun r => negb (same_grant_key b (toLowerCase a) r))
                   (accessGrants (db w))))
       (now w) (S (queries w)) (facilitator_calls w)).
Proof.
  unfold revokeAccess. io_unfold.
  destruct (filter (same_grant_key b (toLowerCase a)) (accessGrants (db w)))
    as [| g r] eqn:Hf.
  - apply filter_nil_existsb in Hf. rewrite Hf. reflexivity.
  - assert (He : existsb (same_grant_key b (toLowerCase a)) (accessGrants (db w)) = true).
    { destruct (existsb _ _) eqn:He; [reflexivity |].
      apply filter_nil_existsb in He. congruence. }
    rewrite He. reflexivity.
Qed.

(** X2.  [revokeAccess] for (b, a) reports whether the pair had a grant; after
    it [hasAccess] answers false for that pair (in any letter case) and
    answers for every other pair what it answered before. *)
Theorem hasAccess_after_revokeAccess (b b' : Z) (a a' : string) (w : World) :
  a' <> "" ->
  exists before,
    fst (hasAccess b' a' w) = Returned before /\
    fst (hasAccess b' a' (snd (revokeAccess b a w)))
    = Returned (before && negb (same_pair b' a' b a)) /\
    (a <> "" -> fst (revokeAccess b a w) = fst (hasAccess b a w)).
Proof.
  intros Ha'. rewrite !hasAccess_run by assumption. cbn [fst].
  eexists. split; [reflexivity |]. split.
  - rewrite revokeAccess_run. cbn [snd db accessGrants with_accessGrants].
    now rewrite existsb_same_key_filter_out.
  - intros Ha. rewrite revokeAccess_run, hasAccess_run by assumption. reflexivity.
Qed.

Lemma hasAccess_after_revokeAccess_witness :
  "0xABC" <> "" /\
  exists before,
    fst (hasAccess 42 "0xABC" (snd (grantAccess 42 "0xabc" None example_world)))
    = Returned before /\
    fst (hasAccess 42 "0xABC"
           (snd (revokeAccess 42 "0xAbC" (snd (grantAccess 42 "0xabc" None example_world)))))
    = Returned (before && negb (same_pair 42 "0xABC" 42 "0xAbC")) /\
    ("0xAbC" <> "" ->
     fst (revokeAccess 42 "0xAbC" (snd (grantAccess 42 "0xabc" None example_world)))
     = fst (hasAccess 42 "0xAbC" (snd (grantAccess 42 "0xabc" None example_world)))).
Proof.
  assert (H : "0xABC" <> "") by discriminate.
  split; [exact H |].
  exact (hasAccess_after_revokeAccess 42 42 "0xAbC" "0xABC"
           (snd (grantAccess 42 "0xabc" None example_world)) H).
Defined.



Lemma includes_In (x : Z) (l : list Z) : includes x l = true <-> In x l.
Proof.
  unfold includes. rewrite existsb_exists. split.
  - intros (y & Hy & Heq). apply Z.eqb_eq in Heq. now subst.
  - intros H. exists x. split; [exact H | apply Z.eqb_refl].
Qed.

Lemma set_add_spec (x : Z) (s : JsSet) :
  (forall y, In y (set_add x s) <-> y = x \/ In y s) /\
  (NoDup s -> NoDup (set_add x s)).
Proof.
  unfold set_add. destruct (includes x s) eqn:Hx.
  - apply includes_In in Hx. split; [| auto].
    intros y. split; [now right | intros [-> | H]; assumption].
  - split.
    + intros y. rewrite in_app_iff. cbn [In]. split.
      * intros [H | [H | []]]; [now right | left; congruence].
      * intros [-> | H]; [right; now left | now left].
    + intros Hnd. apply NoDup_app; [exact Hnd | repeat constructor; intros [] |].
      intros y Hy [<- | []]. apply includes_In in Hy. congruence.
Qed.

Lemma collect_accessible_spec (ids : list Z) (grants : list AccessGrant.t) :
  forall (acc : JsSet),
    let s := fold_left
               (fun accessibleBlocks grant =>
                  if includes (AccessGrant.blockId grant) ids
                  then set_add (AccessGrant.blockId grant) accessibleBlocks
                  else accessibleBlocks)
               grants acc in
    (NoDup acc -> NoDup s) /\
    forall id,
      In id s <->
      In id acc \/ (In id ids /\ exists g, In g grants /\ AccessGrant.blockId g = id).
Proof.
  induction grants as [| g grants IH]; intros acc; cbn [fold_left].
  - split; [auto |]. intros id. split; [now left |].
    intros [H | (_ & g & [] & _)]. exact H.
  - specialize (IH (if includes (AccessGrant.blockId g) ids
                    then set_add (AccessGrant.blockId g) acc else acc)).
    cbv zeta in IH. destruct IH as [IHnd IHin]. split.
    + intros Hnd. apply IHnd.
      destruct (includes _ ids); [now apply set_add_spec | exact Hnd].
    + intros id. rewrite IHin. clear IHnd IHin.
      destruct (includes (AccessGrant.blockId g) ids) eqn:Hinc.
      * apply includes_In in Hinc.
        destruct (set_add_spec (AccessGrant.blockId g) acc) as [Hadd _].
        rewrite Hadd. split.
        -- intros [[-> | H] | (Hid & g' & Hg' & Hb)].
           ++ right. split; [exact Hinc |]. exists g. split; [now left | reflexivity].
           ++ now left.
           ++ right. split; [exact Hid |]. exists g'. split; [now right | exact Hb].
        -- intros [H | (Hid & g' & [<- | Hg'] & Hb)].
           ++ left. now right.
           ++ left. left. now symmetry.
           ++ right. split; [exact Hid |]. now exists g'.
      * split.
        -- intros [H | (Hid & g' & Hg' & Hb)]; [now left |].
           right. split; [exact Hid |]. exists g'. split; [now right | exact Hb].
        -- intros [H | (Hid & g' & [<- | Hg'] & Hb)]; [now left | |].
           ++ subst id. apply includes_In in Hid. congruence.
           ++ right. split; [exact Hid |]. now exists g'.
Qed.

(** X4.  [checkAccessForBlocks] answers, for the blocks asked about, what
    [hasAccess] answers block by block: a block is in the set exactly when
    it was asked about and the wallet has access to it.  The set has no
    duplicate, and the store is not changed. *)
Theorem checkAccessForBlocks_agrees_with_hasAccess (ids : list Z) (a : string)
    (w : World) :
  exists s w',
    checkAccessForBlocks ids a w = (Returned s, w') /\
    db w' = db w /\ NoDup s /\
    forall id, In id s <-> In id ids /\ fst (hasAccess id a w) = Returned true.
Proof.
  unfold checkAccessForBlocks.
  destruct (a =? "")%string eqn:Ha; cbn [orb].
  - exists [], w.
    split; [reflexivity | split; [reflexivity | split; [constructor |]]].
    intros id. split; [intros [] |].
    intros [_ H]. unfold hasAccess in H. rewrite Ha in H. discriminate H.
  - destruct (length ids =? 0)%nat eqn:Hlen.
    + exists [], w. apply Nat.eqb_eq in Hlen.
      destruct ids; [| discriminate Hlen].
      split; [reflexivity | split; [reflexivity | split; [constructor |]]].
      intros id. split; [intros [] | intros [[] _]].
    + io_unfold.
      set (grants := filter _ (accessGrants (db w))).
      destruct (collect_accessible_spec ids grants []) as [Hnd Hin].
      cbv zeta in Hnd, Hin.
      eexists. eexists. split; [reflexivity |]. split; [reflexivity |].
      split; [apply Hnd; constructor |].
      intros id. rewrite Hin. apply String.eqb_neq in Ha.
      rewrite hasAccess_run by assumption. cbn [fst].
      split.
      * intros [[] | (Hid & g & Hg & Hb)]. split; [exact Hid |].
        f_equal. apply existsb_exists. exists g.
        apply filter_In in Hg as [Hg Hw]. split; [exact Hg |].
        unfold same_grant_key. now rewrite Hb, Z.eqb_refl, Hw.
      * intros [Hid H]. right. split; [exact Hid |].
        injection H as H. apply existsb_exists in H as (g & Hg & Hk).
        unfold same_grant_key in Hk. apply andb_true_iff in Hk as [Hb Hw].
        exists g. split; [| now apply Z.eqb_eq].
        apply filter_In. split; assumption.
Qed.

(** ** The paywall registry: creation *)

Lemma createPaywall_run (params : CreatePaywallParams) (w : World) :
  let given := create_recipientWallet params in
  let q1 := if truthy given then queries w else S (queries w) in
  let wallet_opt :=
    if truthy given then given else wallet_on_file (db w) (create_ownerUserId params) in
  let wallet := or_default wallet_opt "" in
  let created :=
    Paywall.mk (fresh_uuid (map Paywall.id (paywalls (db w)))) (create_blockId params)
      (Some (create_ownerUserId params)) (create_priceUsdc params) wallet true
      (now w) (now w) in
  createPaywall params w
  = if number_lt (parseFloat (create_priceUsdc params)) (parseFloat MIN_PRICE_USDC)
    then (Threw (PaywallError "Minimum price is 0.01 USDC" INVALID_PRICE), w)
    else if negb (truthy wallet_opt)
    then (Threw no_wallet_error, mkWorld (db w) (now w) q1 (facilitator_calls w))
    else if negb (isValidEthereumAddress wallet)
    then (Threw (PaywallError "Invalid recipient wallet address" INVALID_WALLET),
          mkWorld (db w) (now w) q1 (facilitator_calls w))
    else match find (for_block (create_blockId params)) (paywalls (db w)) with
         | Some _ =>
             (Threw (PaywallError "Paywall already exists for this block" ALREADY_EXISTS),
              mkWorld (db w) (now w) (S q1) (facilitator_calls w))
         | None =>
             (Returned created,
              mkWorld (with_paywalls (db w) (paywalls (db w) ++ [created]))
                (now w) (S (S q1)) (facilitator_calls w))
         end.
Proof.
  intros given q1 wallet_opt wallet created.
  unfold createPaywall.
  destruct (number_lt _ _); [reflexivity |].
  unfold when at 1. unfold bind at 1. unfold ret at 1.
  assert (Hlookup :
    forall wallet w1, db w1 = db w ->
      (existing <- getPaywallByBlockId (create_blockId params) ;;
       match existing with
       | Some _ => throw (PaywallError "Paywall already exists for this block" ALREADY_EXISTS)
       | None =>
           insert_paywall
             (mkNewPaywall (create_blockId params) (create_ownerUserId params)
                (create_priceUsdc params) wallet true)
       end) w1
      = match find (for_block (create_blockId params)) (paywalls (db w)) with
        | Some _ =>
            (Threw (PaywallError "Paywall already exists for this block" ALREADY_EXISTS),
             mkWorld (db w) (now w1) (S (queries w1)) (facilitator_calls w1))
        | None =>
            (Returned (Paywall.mk (fresh_uuid (map Paywall.id (paywalls (db w))))
                         (create_blockId params) (Some (create_ownerUserId params))
                         (create_priceUsdc params) wallet true (now w1) (now w1)),
             mkWorld (with_paywalls (db w)
                        (paywalls (db w)
                         ++ [Paywall.mk (fresh_uuid (map Paywall.id (paywalls (db w))))
                               (create_blockId params) (Some (create_ownerUserId params))
                               (create_priceUsdc params) wallet true (now w1) (now w1)]))
               (now w1) (S (S (queries w1))) (facilitator_calls w1))
        end).
  { clear. intros wallet w1 Hdb. unfold bind at 1.
    pose proof (getPaywallByBlockId_run (create_blockId params) w1) as Hrun.
    cbv zeta in Hrun. rewrite Hdb in Hrun.
    pose proof (find_filter (for_block (create_blockId params)) (paywalls (db w))) as Hff.
    destruct (find (for_block (create_blockId params)) (paywalls (db w))) as [p |].
    - destruct Hrun as (x & Hrun & _). rewrite Hrun. reflexivity.
    - rewrite Hrun. apply filter_nil_existsb in Hff.
      unfold insert_paywall. io_unfold. cbn [new_paywall_blockId].
      rewrite Hff. reflexivity. }
  subst wallet_opt q1 wallet created given.
  destruct (truthy (create_recipientWallet params)) eqn:Hgiven.
  - unfold bind at 1. unfold ret at 1. rewrite Hgiven. cbn [negb].
    unfold when at 1. unfold bind at 1.
    destruct (isValidEthereumAddress _); cbn [negb]; [| destruct w; reflexivity].
    unfold ret at 1. rewrite (Hlookup _ w eq_refl).
    destruct w as [d t q c]; cbn [db now queries facilitator_calls].
    destruct (find _ _); reflexivity.
  - unfold bind at 1. unfold bind at 1.
    cbv beta iota zeta delta [select_from statement limit].
    cbn [db now queries facilitator_calls].
    unfold wallet_on_file.
    destruct (filter (has_user_id (create_ownerUserId params)) (users (db w)))
      as [| u us]; cbn [firstn].
    + reflexivity.
    + destruct (truthy (User.walletAddress u)) eqn:Hw; cbn [negb]; [| reflexivity].
      unfold ret at 1. unfold bind at 1. unfold when at 1.
      destruct (isValidEthereumAddress _); cbn [negb]; [| reflexivity].
      unfold ret at 1. cbv beta iota zeta.
      rewrite (Hlookup _ (mkWorld (db w) (now w) (S (queries w)) (facilitator_calls w))
                 eq_refl).
      cbn [db now queries facilitator_calls].
      destruct (find _ _); reflexivity.
Qed.

(** The minimum price as a binary64 value. *)
Lemma parseFloat_MIN_PRICE_USDC :
  parseFloat MIN_PRICE_USDC = Num (5764607523034235 # 576460752303423488).
Proof. vm_compute. reflexivity. Qed.

(** On the prices the store holds, the binary64 comparison with the minimum
    is the exact one: below one cent, and only then. *)
Lemma below_minimum_price (k : Z) :
  0 <= k < 10 ^ 10 ->
  number_lt (parseFloat (decimal_10_6 k)) (parseFloat MIN_PRICE_USDC) = (k <? 10000).
Proof.
  intros Hk. rewrite parseFloat_MIN_PRICE_USDC. unfold decimal_10_6.
  rewrite parseFloat_fixed_notation by lia.
  change (10 ^ (- Z.of_nat 6))%Q with (1 # 1000000)%Q.
  cbn [number_lt].
  destruct (Z.eq_dec k 0) as [-> | Hz]; [reflexivity |].
  destruct (Z.eq_dec k 10000) as [-> | Hm]; [vm_compute; reflexivity |].
  set (c := (5764607523034235 # 576460752303423488)%Q).
  pose proof (round_binary64_bounds (inject_Z k * (1 # 1000000))) as Hb.
  unfold eps53 in Hb.
  destruct (k <? 10000) eqn:Hlt.
  - apply Z.ltb_lt in Hlt.
    destruct (inject_Z_bounds k 1 10000 ltac:(lia)) as [Hlo Hhi].
    change (inject_Z 1) with 1%Q in Hlo.
    change (inject_Z 10000) with 10000%Q in Hhi.
    assert (Hhi' : (inject_Z k <= 9999)%Q).
    { change 9999%Q with (inject_Z 9999). rewrite <- Zle_Qle. lia. }
    set (K := inject_Z k) in *.
    destruct (Qcompare_spec (round_binary64 (K * (1 # 1000000))) c) as [H | H | H];
      unfold c in H; try reflexivity; lra.
  - apply Z.ltb_ge in Hlt.
    destruct (inject_Z_bounds k 10001 (10 ^ 10) ltac:(lia)) as [Hlo Hhi].
    change (inject_Z 10001) with 10001%Q in Hlo.
    change (inject_Z (10 ^ 10)) with 10000000000%Q in Hhi.
    set (K := inject_Z k) in *.
    destruct (Qcompare_spec (round_binary64 (K * (1 # 1000000))) c) as [H | H | H];
      unfold c in H; try reflexivity; lra.
Qed.





(** X8.  A block that has a row, active or not, cannot be given a new paywall:
    [createPaywall] throws and the store is unchanged; with a valid price
    and a valid recipient the error is ALREADY_EXISTS. *)
Theorem createPaywall_on_existing_block (params : CreatePaywallParams) (q : Paywall.t)
    (w : World) :
  find (for_block (create_blockId params)) (paywalls (db w)) = Some q ->
  (exists e w', createPaywall params w = (Threw e, w') /\ db w' = db w) /\
  (number_lt (parseFloat (create_priceUsdc params)) (parseFloat MIN_PRICE_USDC) = false ->
   truthy (create_recipientWallet params) = true ->
   isValidEthereumAddress (or_default (create_recipientWallet params) "") = true ->
   fst (createPaywall params w)
   = Threw (PaywallError "Paywall already exists for this block" ALREADY_EXISTS)).
Proof.
  intros Hfind.
  pose proof (createPaywall_run params w) as Hrun. cbv zeta in Hrun.
  rewrite Hfind in Hrun. rewrite Hrun. clear Hrun. split.
  - destruct (number_lt _ _);
      [| destruct (negb (truthy _)); [| destruct (negb (isValidEthereumAddress _))]];
      eexists; eexists; split; reflexivity.
  - intros Hprice Hgiven Hvalid. rewrite Hprice, Hgiven. cbv beta iota.
    rewrite Hgiven. cbn [negb]. rewrite Hvalid. reflexivity.
Qed.

Lemma createPaywall_on_existing_block_witness :
  find (for_block 42) (paywalls (db example_world)) = Some example_paywall /\
  (exists e w',
     createPaywall (mkCreatePaywallParams 42 9%N "1.000000"
                      (Some "0x833589fCD6eDb6E08f4c7C32D4f71b54bdA02913")) example_world
     = (Threw e, w') /\ db w' = db example_world) /\
  fst (createPaywall (mkCreatePaywallParams 42 9%N "1.000000"
                        (Some "0x833589fCD6eDb6E08f4c7C32D4f71b54bdA02913")) example_world)
  = Threw (PaywallError "Paywall already exists for this block" ALREADY_EXISTS).
Proof.
  split; [reflexivity |].
  destruct (createPaywall_on_existing_block
              (mkCreatePaywallParams 42 9%N "1.000000"
                 (Some "0x833589fCD6eDb6E08f4c7C32D4f71b54bdA02913"))
              example_paywall example_world eq_refl) as [H1 H2].
  split; [exact H1 |].
  apply H2; vm_compute; reflexivity.
Defined.

(** X9.  For a price the store can hold (k millionths), [createPaywall] answers
    INVALID_PRICE exactly when the price is below one cent: the binary64
    comparison with 0.01 does not misjudge any such price. *)
Theorem createPaywall_minimum_price (params : CreatePaywallParams) (k : Z) (w : World) :
  0 <= k < 10 ^ 10 ->
  create_priceUsdc params = decimal_10_6 k ->
  (fst (createPaywall params w)
   = Threw (PaywallError "Minimum price is 0.01 USDC" INVALID_PRICE)
   <-> k < 10000).
Proof.
  intros Hk Hprice.
  pose proof (createPaywall_run params w) as Hrun. cbv zeta in Hrun.
  rewrite Hrun. clear Hrun. rewrite Hprice, (below_minimum_price k Hk).
  unfold no_wallet_error.
  destruct (k <? 10000) eqn:Hlt.
  - apply Z.ltb_lt in Hlt. split; [intros _; exact Hlt | reflexivity].
  - apply Z.ltb_ge in Hlt. split; [| lia].
    destruct (negb (truthy _));
      [| destruct (negb (isValidEthereumAddress _)); [| destruct (find _ _)]];
      cbn [fst]; intros H; discriminate H.
Qed.

Lemma createPaywall_minimum_price_witness :
  0 <= 9999 < 10 ^ 10 /\
  create_priceUsdc (mkCreatePaywallParams 43 7%N "0.009999" None) = decimal_10_6 9999 /\
  (fst (createPaywall (mkCreatePaywallParams 43 7%N "0.009999" None) example_world)
   = Threw (PaywallError "Minimum price is 0.01 USDC" INVALID_PRICE)
   <-> 9999 < 10000).
Proof.
  assert (Hk : 0 <= 9999 < 10 ^ 10) by (split; [lia | reflexivity]).
  split; [exact Hk | split; [reflexivity |]].
  exact (createPaywall_minimum_price (mkCreatePaywallParams 43 7%N "0.009999" None)
           9999 example_world Hk eq_refl).
Defined.

(** ** The paywall registry: the owner's operations *)

Lemma not_owner_false (x : PaywallWithOwner) (requester : uuid) :
  Paywall.ownerUserId (paywall_row x) = Some requester -> not_owner x requester = false.
Proof.
  intros H. unfold not_owner. rewrite H. now rewrite N.eqb_refl.
Qed.

Lemma filter_update_rows_head (set : Paywall.t -> Paywall.t) (b : Z) (p : Paywall.t)
    (rows : list Paywall.t) :
  find (for_block b) rows = Some p ->
  hd_error (map set (filter (for_block b) rows)) = Some (set p).
Proof.
  intros Hfind. pose proof (find_filter (for_block b) rows) as Hf.
  rewrite Hfind in Hf. destruct Hf as [r Hf]. now rewrite Hf.
Qed.

Lemma updatePaywall_owner_run (b : Z) (requester : uuid) (updates : UpdatePaywallParams)
    (p : Paywall.t) (w : World) :
  find (for_block b) (paywalls (db w)) = Some p ->
  Paywall.ownerUserId p = Some requester ->
  let w1 := mkWorld (db w) (now w) (S (queries w)) (facilitator_calls w) in
  updatePaywall b requester updates w
  = if match upd_priceUsdc updates with
       | Some price => number_lt (parseFloat price) (parseFloat MIN_PRICE_USDC)
       | None => false
       end
    then (Threw (PaywallError "Minimum price is 0.01 USDC" INVALID_PRICE), w1)
    else if match upd_recipientWallet updates with
            | Some wallet => negb (isValidEthereumAddress wallet)
            | None => false
            end
    then (Threw (PaywallError "Invalid recipient wallet address" INVALID_WALLET), w1)
    else (Returned (Some (apply_updates updates (now w) p)),
          mkWorld (with_paywalls (db w)
                     (update_rows (apply_updates updates (now w)) (for_block b)
                        (paywalls (db w))))
            (now w) (S (S (queries w))) (facilitator_calls w)).
Proof.
  intros Hfind Hown w1.
  pose proof (getPaywallByBlockId_run b w) as Hrun. cbv zeta in Hrun.
  rewrite Hfind in Hrun. destruct Hrun as (x & Hrun & Hrow).
  assert (Hno : not_owner x requester = false) by (apply not_owner_false; congruence).
  unfold updatePaywall. unfold bind at 1. rewrite Hrun.
  unfold bind at 1. unfold when at 1. rewrite Hno. unfold ret at 1. cbv beta iota zeta.
  unfold bind at 1.
  destruct (upd_priceUsdc updates) as [price |].
  - unfold when at 1. destruct (number_lt _ _); [reflexivity |].
    unfold ret at 1. cbv beta iota zeta. unfold bind at 1.
    destruct (upd_recipientWallet updates) as [wallet |].
    + unfold when at 1. destruct (isValidEthereumAddress wallet); cbn [negb]; [| reflexivity].
      io_unfold. now rewrite (filter_update_rows_head _ b p _ Hfind).
    + io_unfold. now rewrite (filter_update_rows_head _ b p _ Hfind).
  - unfold ret at 1. cbv beta iota zeta. unfold bind at 1.
    destruct (upd_recipientWallet updates) as [wallet |].
    + unfold when at 1. destruct (isValidEthereumAddress wallet); cbn [negb]; [| reflexivity].
      io_unfold. now rewrite (filter_update_rows_head _ b p _ Hfind).
    + io_unfold. now rewrite (filter_update_rows_head _ b p _ Hfind).
Qed.

Lemma deactivatePaywall_owner_run (b : Z) (requester : uuid) (p : Paywall.t) (w : World) :
  find (for_block b) (paywalls (db w)) = Some p ->
  Paywall.ownerUserId p = Some requester ->
  deactivatePaywall b requester w
  = (Returned tt,
     mkWorld (with_paywalls (db w)
                (update_rows
                   (apply_updates (mkUpdatePaywallParams None None (Some false)) (now w))
                   (for_block b) (paywalls (db w))))
       (now w) (S (S (queries w))) (facilitator_calls w)).
Proof.
  intros Hfind Hown.
  pose proof (getPaywallByBlockId_run b w) as Hrun. cbv zeta in Hrun.
  rewrite Hfind in Hrun. destruct Hrun as (x & Hrun & Hrow).
  assert (Hno : not_owner x requester = false) by (apply not_owner_false; congruence).
  unfold deactivatePaywall. unfold bind at 1. rewrite Hrun.
  unfold bind at 1. unfold when at 1. rewrite Hno. io_unfold. reflexivity.
Qed.

Lemma deletePaywall_owner_run (b : Z) (requester : uuid) (p : Paywall.t) (w : World) :
  find (for_block b) (paywalls (db w)) = Some p ->
  Paywall.ownerUserId p = Some requester ->
  deletePaywall b requester w
  = (Returned tt,
     mkWorld (with_paywalls (db w)
                (filter (fun r => negb (for_block b r)) (paywalls (db w))))
       (now w) (S (S (queries w))) (facilitator_calls w)).
Proof.
  intros Hfind Hown.
  pose proof (getPaywallByBlockId_run b w) as Hrun. cbv zeta in Hrun.
  rewrite Hfind in Hrun. destruct Hrun as (x & Hrun & Hrow).
  assert (Hno : not_owner x requester = false) by (apply not_owner_false; congruence).
  unfold deletePaywall. unfold bind at 1. rewrite Hrun.
  unfold when at 1. rewrite Hno. io_unfold. reflexivity.
Qed.

Lemma apply_updates_blockId (updates : UpdatePaywallParams) (t : timestamp) (p : Paywall.t) :
  Paywall.blockId (apply_updates updates t p) = Paywall.blockId p.
Proof. reflexivity. Qed.

Lemma find_update_paywalls (set : Paywall.t -> Paywall.t) (b b' : Z)
    (rows : list Paywall.t) :
  (forall q, Paywall.blockId (set q) = Paywall.blockId q) ->
  find (for_block b') (update_rows set (for_block b) rows)
  = option_map (fun q => if for_block b q then set q else q) (find (for_block b') rows).
Proof.
  intros Hid. unfold update_rows.
  induction rows as [| q rows IH]; [reflexivity |].
  cbn [map find].
  assert (Hq : for_block b' (if for_block b q then set q else q) = for_block b' q).
  { destruct (for_block b q); [| reflexivity]. unfold for_block. now rewrite Hid. }
  rewrite Hq. destruct (for_block b' q); [reflexivity | exact IH].
Qed.

Lemma filter_update_other_block (set : Paywall.t -> Paywall.t) (b b' : Z)
    (rows : list Paywall.t) :
  (forall q, Paywall.blockId (set q) = Paywall.blockId q) ->
  b' <> b ->
  filter (for_block b') (update_rows set (for_block b) rows) = filter (for_block b') rows.
Proof.
  intros Hid Hne. unfold update_rows.
  induction rows as [| q rows IH]; [reflexivity |].
  cbn [map filter]. rewrite IH. clear IH.
  destruct (for_block b q) eqn:Hb.
  - assert (Hq : for_block b' q = false).
    { unfold for_block in *. apply Z.eqb_eq in Hb. apply Z.eqb_neq. congruence. }
    assert (Hq' : for_block b' (set q) = false).
    { unfold for_block in *. now rewrite Hid. }
    now rewrite Hq, Hq'.
  - reflexivity.
Qed.

Lemma no_active_after_deactivation (t : timestamp) (b : Z) (rows : list Paywall.t) :
  filter (is_active_for b)
    (update_rows (apply_updates (mkUpdatePaywallParams None None (Some false)) t)
       (for_block b) rows) = [].
Proof.
  unfold update_rows. induction rows as [| q rows IH]; [reflexivity |].
  cbn [map filter]. rewrite IH. clear IH.
  destruct (for_block b q) eqn:Hb.
  - unfold is_active_for. cbn [apply_updates upd_active Paywall.active].
    now rewrite andb_false_r.
  - unfold is_active_for. unfold for_block in Hb. now rewrite Hb.
Qed.

Lemma getBlockAccessStatus_free (b : Z) (a : option string) (w : World) :
  filter (is_active_for b) (paywalls (db w)) = [] ->
  fst (getBlockAccessStatus b a w) = Returned (mkBlockAccessStatus b false true None None).
Proof.
  intros Hno. unfold getBlockAccessStatus. io_unfold. rewrite Hno. reflexivity.
Qed.

(** X10.  Soft delete.  After the owner deactivates a paywall the block reads as
    free for everybody, while the row is kept (inactive, so the block still
    cannot be given a second paywall), rows of other blocks are untouched
    and the access grants stay. *)
Theorem deactivatePaywall_by_owner (b : Z) (requester : uuid) (p : Paywall.t) (w : World) :
  find (for_block b) (paywalls (db w)) = Some p ->
  Paywall.ownerUserId p = Some requester ->
  exists w',
    deactivatePaywall b requester w = (Returned tt, w') /\
    (forall a, fst (getBlockAccessStatus b a w')
               = Returned (mkBlockAccessStatus b false true None None)) /\
    (exists p', find (for_block b) (paywalls (db w')) = Some p' /\
                Paywall.id p' = Paywall.id p /\ Paywall.active p' = false /\
                Paywall.priceUsdc p' = Paywall.priceUsdc p) /\
    (forall b', b' <> b ->
       filter (for_block b') (paywalls (db w')) = filter (for_block b') (paywalls (db w))) /\
    accessGrants (db w') = accessGrants (db w).
Proof.
  intros Hfind Hown. eexists. split; [now apply (deactivatePaywall_owner_run b requester p) |].
  cbn [db paywalls accessGrants with_paywalls].
  split; [| split; [| split; [| reflexivity]]].
  - intros a. apply getBlockAccessStatus_free.
    cbn [db paywalls with_paywalls]. apply no_active_after_deactivation.
  - rewrite find_update_paywalls, Hfind by reflexivity. cbn [option_map].
    eexists. split; [reflexivity |].
    assert (Hb : for_block b p = true) by (apply find_some in Hfind; tauto).
    rewrite Hb. repeat split.
  - intros b' Hne. now apply filter_update_other_block.
Qed.

Lemma deactivatePaywall_by_owner_witness :
  find (for_block 42) (paywalls (db example_world)) = Some example_paywall /\
  Paywall.ownerUserId example_paywall = Some 7%N /\
  exists w',
    deactivatePaywall 42 7%N example_world = (Returned tt, w') /\
    (forall a, fst (getBlockAccessStatus 42 a w')
               = Returned (mkBlockAccessStatus 42 false true None None)) /\
    (exists p', find (for_block 42) (paywalls (db w')) = Some p' /\
                Paywall.id p' = Paywall.id example_paywall /\ Paywall.active p' = false /\
                Paywall.priceUsdc p' = Paywall.priceUsdc example_paywall) /\
    (forall b', b' <> 42 ->
       filter (for_block b') (paywalls (db w'))
       = filter (for_block b') (paywalls (db example_world))) /\
    accessGrants (db w') = accessGrants (db example_world).
Proof.
  split; [reflexivity | split; [reflexivity |]].
  exact (deactivatePaywall_by_owner 42 7%N example_paywall example_world eq_refl eq_refl).
Defined.






Lemma non_owner_run (b : Z) (requester : uuid) (updates : UpdatePaywallParams)
    (p : Paywall.t) (w : World) :
  find (for_block b) (paywalls (db w)) = Some p ->
  Paywall.ownerUserId p <> Some requester ->
  let w' := mkWorld (db w) (now w) (S (queries w)) (facilitator_calls w) in
  let e := PaywallError "You do not own this paywall" FORBIDDEN in
  updatePaywall b requester updates w = (Threw e, w') /\
  deactivatePaywall b requester w = (Threw e, w') /\
  deletePaywall b requester w = (Threw e, w').
Proof.
  intros Hfind Hown w' e.
  pose proof (getPaywallByBlockId_run b w) as Hrun. cbv zeta in Hrun.
  rewrite Hfind in Hrun. destruct Hrun as (x & Hrun & Hrow).
  assert (Hno : not_owner x requester = true) by (apply not_owner_true; congruence).
  repeat split.
  - unfold updatePaywall, bind. rewrite Hrun. unfold when. rewrite Hno. reflexivity.
  - unfold deactivatePaywall, bind. rewrite Hrun. unfold when. rewrite Hno. reflexivity.
  - unfold deletePaywall, bind. rewrite Hrun. unfold when. rewrite Hno. reflexivity.
Qed.

Lemma owner_or_not (p : Paywall.t) (requester : uuid) :
  {Paywall.ownerUserId p = Some requester} + {Paywall.ownerUserId p <> Some requester}.
Proof.
  destruct (Paywall.ownerUserId p) as [o |]; [| right; discriminate].
  destruct (N.eq_dec o requester) as [-> | Hne]; [now left | right; congruence].
Qed.

(** The table of paywalls after a registry operation, whoever calls it and
    whatever it answers: as before, or with the rows of one block updated
    (block ids kept), or without the rows of one block. *)
Lemma registry_operation_table (b : Z) (requester : uuid) (updates : UpdatePaywallParams)
    (w : World) :
  let rows := paywalls (db w) in
  (exists set,
     (forall q, Paywall.blockId (set q) = Paywall.blockId q) /\
     (paywalls (db (snd (updatePaywall b requester updates w))) = rows \/
      paywalls (db (snd (updatePaywall b requester updates w)))
      = update_rows set (for_block b) rows)) /\
  (exists set,
     (forall q, Paywall.blockId (set q) = Paywall.blockId q) /\
     (paywalls (db (snd (deactivatePaywall b requester w))) = rows \/
      paywalls (db (snd (deactivatePaywall b requester w)))
      = update_rows set (for_block b) rows)) /\
  (paywalls (db (snd (deletePaywall b requester w))) = rows \/
   paywalls (db (snd (deletePaywall b requester w)))
   = filter (fun r => negb (for_block b r)) rows).
Proof.
  intros rows.
  destruct (find (for_block b) (paywalls (db w))) as [p |] eqn:Hfind.
  - destruct (owner_or_not p requester) as [Hown | Hown].
    + pose proof (updatePaywall_owner_run b requester updates p w Hfind Hown) as Hu.
      cbv zeta in Hu.
      rewrite (deactivatePaywall_owner_run b requester p w Hfind Hown).
      rewrite (deletePaywall_owner_run b requester p w Hfind Hown).
      rewrite Hu. clear Hu.
      split; [| split].
      * exists (apply_updates updates (now w)). split; [reflexivity |].
        destruct (match upd_priceUsdc updates with Some _ => _ | None => _ end);
          [now left |].
        destruct (match upd_recipientWallet updates with Some _ => _ | None => _ end);
          [now left | now right].
      * eexists. split; [| right; reflexivity]. reflexivity.
      * right. reflexivity.
    + destruct (non_owner_run b requester updates p w Hfind Hown) as (-> & -> & ->).
      split; [| split]; [exists (fun q => q) | exists (fun q => q) |]; auto.
  - destruct (paywall_absent_not_found b requester updates w Hfind)
      as (w' & Hdb & -> & -> & ->).
    cbn [snd]. subst rows. rewrite Hdb.
    split; [| split]; [exists (fun q => q) | exists (fun q => q) |]; auto.
Qed.

Lemma map_blockId_update_rows (set : Paywall.t -> Paywall.t) (cond : Paywall.t -> bool)
    (rows : list Paywall.t) :
  (forall q, Paywall.blockId (set q) = Paywall.blockId q) ->
  map Paywall.blockId (update_rows set cond rows) = map Paywall.blockId rows.
Proof.
  intros Hid. unfold update_rows. rewrite map_map. apply map_ext.
  intros q. destruct (cond q); [apply Hid | reflexivity].
Qed.

Lemma NoDup_map_filter {A B} (f : A -> B) (c : A -> bool) (l : list A) :
  NoDup (map f l) -> NoDup (map f (filter c l)).
Proof.
  induction l as [| x l IH]; [auto |].
  cbn [map filter]. intros Hnd. inversion Hnd as [| ? ? Hnin Hnd']; subst.
  destruct (c x); [| now apply IH].
  cbn [map]. constructor; [| now apply IH].
  intros Hin. apply Hnin. apply in_map_iff in Hin as (y & Hy & Hin).
  apply filter_In in Hin as [Hin _]. apply in_map_iff. now exists y.
Qed.

(** X13.  The registry keeps the paywalls table with at most one row per block:
    creating, updating, deactivating and deleting, by anybody and whatever
    the answer, preserve the uniqueness of [blockId]. *)
Theorem registry_keeps_unique_block (params : CreatePaywallParams) (b : Z)
    (requester : uuid) (updates : UpdatePaywallParams) (w : World) :
  unique_block (paywalls (db w)) ->
  unique_block (paywalls (db (snd (createPaywall params w)))) /\
  unique_block (paywalls (db (snd (updatePaywall b requester updates w)))) /\
  unique_block (paywalls (db (snd (deactivatePaywall b requester w)))) /\
  unique_block (paywalls (db (snd (deletePaywall b requester w)))).
Proof.
  intros Huniq. unfold unique_block in *.
  destruct (registry_operation_table b requester updates w) as (Hu & Hd & Hdel).
  split; [| split; [| split]].
  - pose proof (createPaywall_run params w) as Hrun. cbv zeta in Hrun.
    rewrite Hrun. clear Hrun.
    destruct (number_lt _ _); [exact Huniq |].
    destruct (negb (truthy _)); [exact Huniq |].
    destruct (negb (isValidEthereumAddress _)); [exact Huniq |].
    destruct (find _ _) eqn:Hfind; [exact Huniq |].
    cbn [snd db paywalls with_paywalls]. rewrite map_app. cbn [map Paywall.blockId].
    apply NoDup_app; [exact Huniq | repeat constructor; intros [] |].
    intros x Hx [<- | []].
    apply in_map_iff in Hx as (q & Hq & Hin).
    apply (find_none _ _ Hfind) in Hin. unfold for_block in Hin.
    apply Z.eqb_neq in Hin. contradiction.
  - destruct Hu as (set & Hid & [-> | ->]); [exact Huniq |].
    now rewrite map_blockId_update_rows.
  - destruct Hd as (set & Hid & [-> | ->]); [exact Huniq |].
    now rewrite map_blockId_update_rows.
  - destruct Hdel as [-> | ->]; [exact Huniq | now apply NoDup_map_filter].
Qed.

Lemma registry_keeps_unique_block_witness :
  unique_block (paywalls (db example_world)) /\
  unique_block (paywalls (db (snd (createPaywall example_create example_world)))) /\
  unique_block
    (paywalls (db (snd (updatePaywall 42 7%N
                          (mkUpdatePaywallParams None None (Some false)) example_world)))) /\
  unique_block (paywalls (db (snd (deactivatePaywall 42 7%N example_world)))) /\
  unique_block (paywalls (db (snd (deletePaywall 42 7%N example_world)))).
Proof.
  assert (Hu : unique_block (paywalls (db example_world))).
  { unfold unique_block. simpl. repeat constructor. intros []. }
  split; [exact Hu |].
  exact (registry_keeps_unique_block example_create 42 7%N
           (mkUpdatePaywallParams None None (Some false)) example_world Hu).
Defined.

(** ** The payment store: insert, update and lookup *)

Lemma getPaymentById_run (id : uuid) (w : World) :
  getPaymentById id w
  = (Returned (find (has_id id) (payments (db w))),
     mkWorld (db w) (now w) (S (queries w)) (facilitator_calls w)).
Proof.
  unfold getPaymentById. io_unfold.
  pose proof (find_filter (has_id id) (payments (db w))) as Hf.
  destruct (find (has_id id) (payments (db w))) as [p |].
  - destruct Hf as [r Hf]. now rewrite Hf.
  - now rewrite Hf.
Qed.

(** X14.  [recordPayment] and the lookups: the new row is pending, carries the
    payer wallet in lower case, is what [getPaymentById] returns for its
    id and is among what [getPaymentsByWallet] returns for the payer in
    any letter case; the payments already there are found as before. *)
Theorem recordPayment_then_lookup (params : RecordPaymentParams) (w : World) :
  exists p w',
    recordPayment params w = (Returned p, w') /\
    Payment.status p = pending /\ Payment.txHash p = None /\
    Payment.payerWallet p = toLowerCase (param_payerWallet params) /\
    fst (getPaymentById (Payment.id p) w') = Returned (Some p) /\
    (forall a, toLowerCase a = toLowerCase (param_payerWallet params) ->
       exists l, fst (getPaymentsByWallet a w') = Returned l /\ In p l) /\
    (forall id, id <> Payment.id p ->
       fst (getPaymentById id w') = fst (getPaymentById id w)).
Proof.
  eexists. eexists. split; [reflexivity |].
  cbn [Payment.status Payment.txHash Payment.payerWallet new_status new_payerWallet
       Payment.id].
  split; [reflexivity | split; [reflexivity | split; [reflexivity |]]].
  split; [| split].
  - rewrite getPaymentById_run. cbn [fst db payments with_payments].
    rewrite find_app_last.
    destruct (find _ (payments (db w))) as [q |] eqn:Hq.
    + apply find_some in Hq as [Hin Hid].
      rewrite (fresh_payment_id _ q Hin) in Hid. discriminate Hid.
    + unfold has_id. cbn [Payment.id]. now rewrite N.eqb_refl.
  - intros a Ha. unfold getPaymentsByWallet. io_unfold.
    eexists. split; [reflexivity |].
    cbn [db payments with_payments]. apply filter_In. split.
    + apply in_or_app. right. now left.
    + cbn [Payment.payerWallet new_payerWallet]. rewrite Ha. apply String.eqb_refl.
  - intros id Hid. rewrite !getPaymentById_run. cbn [fst db payments with_payments].
    rewrite find_app_last.
    destruct (find (has_id id) (payments (db w))); [reflexivity |].
    unfold has_id at 1. cbn [Payment.id] in *.
    assert (Hne : (fresh_uuid (map Payment.id (payments (db w))) =? id)%N = false)
      by (apply N.eqb_neq; congruence).
    now rewrite Hne.
Qed.

Lemma update_payments_missing (set : Payment.t -> Payment.t) (id : uuid)
    (rows : list Payment.t) :
  find (has_id id) rows = None ->
  filter (has_id id) rows = [] /\ update_rows set (has_id id) rows = rows.
Proof.
  intros Hfind. pose proof (find_filter (has_id id) rows) as Hf.
  rewrite Hfind in Hf. split; [exact Hf |].
  apply update_rows_untouched. intros q Hq. now apply (find_none _ _ Hfind).
Qed.

(** Settling or failing a payment id that the table does not have returns
    null and leaves the table as it was. *)
Theorem terminal_update_on_missing_payment (id : uuid) (txHash : string)
    (reason : option string) (w : World) :
  find (has_id id) (payments (db w)) = None ->
  fst (settlePayment id txHash w) = Returned None /\
  db (snd (settlePayment id txHash w)) = db w /\
  fst (failPayment id reason w) = Returned None /\
  db (snd (failPayment id reason w)) = db w.
Proof.
  intros Hfind.
  destruct (update_payments_missing (mark_settled txHash (now w)) id _ Hfind) as [Hf Hu].
  destruct (update_payments_missing mark_failed id _ Hfind) as [_ Hu'].
  unfold settlePayment, failPayment. pay_unfold. cbn [fst snd db].
  rewrite Hf, Hu, Hu'. cbn [map hd_error].
  destruct w as [[us pw pay ag] t q c]; cbn. repeat split.
Qed.

Lemma terminal_update_on_missing_payment_witness :
  find (has_id 9%N) (payments (db example_world)) = None /\
  fst (settlePayment 9%N "0xTxHash" example_world) = Returned None /\
  db (snd (settlePayment 9%N "0xTxHash" example_world)) = db example_world /\
  fst (failPayment 9%N None example_world) = Returned None /\
  db (snd (failPayment 9%N None example_world)) = db example_world.
Proof.
  split; [reflexivity |].
  exact (terminal_update_on_missing_payment 9%N "0xTxHash" None example_world eq_refl).
Defined.

(** X15.  Settling a payment the table has returns the row with status settled,
    the transaction hash and the settlement time, the other columns kept;
    [getPaymentById] then returns that row, and the other payments are
    found as before. *)
Theorem settlePayment_then_lookup (id : uuid) (txHash : string) (p : Payment.t)
    (w : World) :
  find (has_id id) (payments (db w)) = Some p ->
  let p' := mark_settled txHash (now w) p in
  fst (settlePayment id txHash w) = Returned (Some p') /\
  Payment.status p' = settled /\ Payment.txHash p' = Some txHash /\
  Payment.payerWallet p' = Payment.payerWallet p /\
  Payment.amountUsdc p' = Payment.amountUsdc p /\
  fst (getPaymentById id (snd (settlePayment id txHash w))) = Returned (Some p') /\
  (forall id', id' <> id ->
     fst (getPaymentById id' (snd (settlePayment id txHash w)))
     = fst (getPaymentById id' w)).
Proof.
  intros Hfind p'.
  assert (Hid : has_id id p = true) by (apply find_some in Hfind; tauto).
  pose proof (find_filter (has_id id) (payments (db w))) as Hf.
  rewrite Hfind in Hf. destruct Hf as [r Hf].
  assert (Hrun : settlePayment id txHash w
                 = (Returned (Some p'),
                    mkWorld (with_payments (db w)
                               (update_rows (mark_settled txHash (now w)) (has_id id)
                                  (payments (db w))))
                      (now w) (S (queries w)) (facilitator_calls w))).
  { unfold settlePayment. pay_unfold. now rewrite Hf. }
  rewrite Hrun. cbn [fst snd].
  split; [reflexivity |]. split; [reflexivity |]. split; [reflexivity |].
  split; [reflexivity |]. split; [reflexivity |].
  split.
  - rewrite getPaymentById_run. cbn [fst db payments with_payments].
    rewrite find_update_rows, Hfind by reflexivity. cbn [option_map]. now rewrite Hid.
  - intros id' Hne. rewrite !getPaymentById_run. cbn [fst db payments with_payments].
    rewrite find_update_rows by reflexivity.
    destruct (find (has_id id') (payments (db w))) as [q |] eqn:Hq; [| reflexivity].
    cbn [option_map]. apply find_some in Hq as [_ Hq].
    unfold has_id in *. apply N.eqb_eq in Hq.
    assert (Hne' : (Payment.id q =? id)%N = false) by (apply N.eqb_neq; congruence).
    now rewrite Hne'.
Qed.

Lemma settlePayment_then_lookup_witness :
  let w := snd (recordPayment (mkRecordPaymentParams 1%N "0xABC" "0.050000" None)
                  example_world) in
  let p := Payment.mk 1%N (Some 1%N) "0xabc" None "0.050000" None pending None 100 in
  find (has_id 1%N) (payments (db w)) = Some p /\
  fst (settlePayment 1%N "0xTxHash" w)
  = Returned (Some (mark_settled "0xTxHash" (now w) p)).
Proof.
  intros w p. split; [reflexivity |].
  exact (proj1 (settlePayment_then_lookup 1%N "0xTxHash" p w eq_refl)).
Defined.

(** ** The settlement coordinator: grants *)

Lemma or_default_nonempty (o : option string) (d : string) :
  d <> "" -> or_default o d <> "".
Proof.
  intros Hd. unfold or_default, or_else.
  destruct (truthy o) eqn:Ht; [| exact Hd].
  destruct o as [s |]; [| discriminate Ht].
  cbn [truthy] in Ht. apply negb_true_iff, String.eqb_neq in Ht. exact Ht.
Qed.

Lemma payer_of_nonempty (wallet : option string) (pp : PaymentPayload) :
  payer_of wallet pp <> "".
Proof. unfold payer_of. apply or_default_nonempty. discriminate. Qed.

(** What [processPayment] leaves, by its result. *)
Lemma processPayment_cases (server : Server.t) (header : string)
    (paywall : PaywallWithOwner) (b : Z) (wallet : option string) (w : World) :
  exists r w',
    processPayment server header paywall b wallet w = (Returned r, w') /\
    paywalls (db w') = paywalls (db w) /\ users (db w') = users (db w) /\
    ((result_success r = false /\
      accessGrants (db w') = accessGrants (db w) /\
      (w' = w \/
       exists p, payments (db w') = (payments (db w) ++ [p])%list /\
                 Payment.status p = failed /\ Payment.txHash p = None))
     \/
     (result_success r = true /\
      exists p payer tx pp,
        payments (db w') = (payments (db w) ++ [p])%list /\
        Payment.status p = settled /\ Payment.txHash p = Some tx /\
        result_paymentId r = Some (Payment.id p) /\
        result_txHash r = Some tx /\ result_payer r = Some payer /\ payer <> "" /\
        existsb (same_grant_key b (toLowerCase payer)) (accessGrants (db w')) = true /\
        (forall g, In g (accessGrants (db w)) -> In g (accessGrants (db w'))) /\
        facilitator_calls w'
        = (facilitator_calls w ++ [VerifyCall pp (accepted pp); SettleCall pp (accepted pp)])%list)).
Proof.
  destruct (Server.decodePaymentSignatureHeader server header) as [pp | e] eqn:Hdec.
  2: { exists (failure "Invalid payment header format"), w.
       split; [unfold processPayment; now rewrite Hdec |].
       split; [reflexivity | split; [reflexivity |]]. left. repeat split. now left. }
  destruct (requirement_matches paywall (accepted pp)) eqn:Hmatch.
  2: { destruct (processPayment_rejects server header paywall b wallet pp w Hdec Hmatch)
         as (msg & Hrun & _).
       exists (failure msg), w. split; [exact Hrun |].
       split; [reflexivity | split; [reflexivity |]]. left. repeat split. now left. }
  pose proof (processPayment_run server header paywall b wallet pp w Hdec Hmatch) as Hrun.
  cbv zeta in Hrun. rewrite Hrun. clear Hrun.
  set (p0 := pending_payment w paywall (payer_of wallet pp)).
  destruct (Server.verifyPayment server pp (accepted pp)) as [vr | e];
    [destruct (isValid vr);
     [destruct (Server.settlePayment server pp (accepted pp)) as [sr | e];
      [destruct (success sr) |] |] |];
    eexists; eexists; (split; [reflexivity |]).
  1: { match goal with
       | |- context [grantAccess ?b' ?a' ?pid' ?w'] =>
           destruct (grantAccess_returns b' a' pid' w') as (g & Hg & Hkey & Hin & Hpay & Hcalls);
           pose proof (grantAccess_run b' a' pid' w') as Hgrun;
           set (w2 := snd (grantAccess b' a' pid' w')) in *
       end.
       assert (Hsame : paywalls (db w2) = paywalls (db w) /\ users (db w2) = users (db w) /\
                       forall g', In g' (accessGrants (db w)) -> In g' (accessGrants (db w2))).
       { subst w2.
         destruct (filter _ _) in Hgrun; cbv zeta in Hgrun; rewrite Hgrun;
           cbn [snd db paywalls users accessGrants with_accessGrants settled_attempt
                with_payments]; repeat split; auto.
         intros g' Hg'. apply in_or_app. now left. }
       destruct Hsame as (Hpw & Hus & Hgr).
       split; [exact Hpw | split; [exact Hus |]]. right. split; [reflexivity |].
       exists (mark_settled (transaction sr) (now w) p0).
       eexists. exists (transaction sr), pp.
       split; [exact Hpay |]. split; [reflexivity |]. split; [reflexivity |].
       split; [reflexivity |]. split; [reflexivity |]. split; [reflexivity |].
       split; [apply or_default_nonempty, payer_of_nonempty |].
       split; [apply existsb_exists; exists g; split; assumption |].
       split; [exact Hgr | exact Hcalls]. }
  all: (split; [reflexivity | split; [reflexivity |]]); left;
    (split; [reflexivity | split; [reflexivity |]]); right;
    exists (mark_failed p0); repeat split.
Qed.


(** ** The x402 middleware *)

Lemma getWalletFromRequest_nonempty (req : Request) (a : string) :
  getWalletFromRequest req = Some a -> truthy (Some a) = true.
Proof.
  assert (Hlow : forall o, truthy o = true ->
                   truthy (Some (toLowerCase (or_default o ""))) = true).
  { intros [s |] Ht; [| discriminate Ht].
    unfold or_default, or_else. rewrite Ht. cbn [truthy] in *.
    destruct s; [discriminate Ht | reflexivity]. }
  unfold getWalletFromRequest.
  destruct (truthy (header_x_wallet_address req)) eqn:H1;
    [intros H; injection H as <-; now apply Hlow |].
  destruct (truthy (query_wallet req)) eqn:H2;
    [intros H; injection H as <-; now apply Hlow |].
  destruct (truthy (user_walletAddress req)) eqn:H3;
    [intros H; injection H as <-; now apply Hlow | discriminate].
Qed.

(** The middleware up to the point where it asks for payment: the block id
    parsed, the paywall found and active, and whether the wallet of the
    request has access. *)
Lemma middleware_gate (server : Server.t) (http : X402Http.t) (req : Request) (w : World) :
  match parse_blockId (params_id req) with
  | None => x402PaywallMiddleware server http req w = (Returned (CallNext None), w)
  | Some b =>
      match find (for_block b) (paywalls (db w)) with
      | None =>
          x402PaywallMiddleware server http req w
          = (Returned (CallNext None), after_queries 1 w)
      | Some p =>
          if negb (Paywall.active p)
          then x402PaywallMiddleware server http req w
               = (Returned (CallNext None), after_queries 1 w)
          else
            exists x,
              paywall_row x = p /\
              match getWalletFromRequest req with
              | Some a =>
                  if existsb (same_grant_key b (toLowerCase a)) (accessGrants (db w))
                  then x402PaywallMiddleware server http req w
                       = (Returned (CallNext None), after_queries 2 w)
                  else x402PaywallMiddleware server http req w
                       = try_catch
                           (if negb (truthy (header_x_payment req))
                            then return402Response http x b
                            else
                              result <- processPayment server
                                          (or_default (header_x_payment req) "")
                                          x b (Some a) ;;
                              if negb (result_success result)
                              then ret (Respond400 (result_error result))
                              else ret (CallNext
                                          (if truthy (result_txHash result)
                                           then Some (mkPaymentReceipt
                                                        (result_paymentId result)
                                                        (or_default (result_txHash result) "")
                                                        (X402Http.baseNetworkId http)
                                                        (result_payer result))
                                           else None)))
                           (fun error =>
                              ret (Respond500 (match error_message error with
                                               | Some m => m
                                               | None => "Unknown error"
                                               end)))
                           (after_queries 2 w)
              | None =>
                  x402PaywallMiddleware server http req w
                  = try_catch
                      (if negb (truthy (header_x_payment req))
                       then return402Response http x b
                       else
                         result <- processPayment server
                                     (or_default (header_x_payment req) "")
                                     x b None ;;
                         if negb (result_success result)
                         then ret (Respond400 (result_error result))
                         else ret (CallNext
                                     (if truthy (result_txHash result)
                                      then Some (mkPaymentReceipt
                                                   (result_paymentId result)
                                                   (or_default (result_txHash result) "")
                                                   (X402Http.baseNetworkId http)
                                                   (result_payer result))
                                      else None)))
                      (fun error =>
                         ret (Respond500 (match error_message error with
                                          | Some m => m
                                          | None => "Unknown error"
                                          end)))
                      (after_queries 1 w)
              end
      end
  end.
Proof.
  unfold x402PaywallMiddleware.
  destruct (parse_blockId (params_id req)) as [b |]; [| reflexivity].
  pose proof (getPaywallByBlockId_run b w) as Hrun. cbv zeta in Hrun.
  destruct (find (for_block b) (paywalls (db w))) as [p |].
  - destruct Hrun as (x & Hrun & Hrow).
    destruct (negb (Paywall.active p)) eqn:Hact.
    + unfold try_catch, bind. rewrite Hrun, Hrow, Hact. reflexivity.
    + exists x. split; [exact Hrow |].
      destruct (getWalletFromRequest req) as [a |] eqn:Hwallet.
      * pose proof (getWalletFromRequest_nonempty req a Hwallet) as Ht.
        assert (Hne : a <> "").
        { cbn [truthy] in Ht. apply negb_true_iff, String.eqb_neq in Ht. exact Ht. }
        assert (Hod : or_default (Some a) "" = a).
        { unfold or_default, or_else. now rewrite Ht. }
        destruct (existsb (same_grant_key b (toLowerCase a)) (accessGrants (db w)))
          eqn:Hgrant;
          unfold try_catch at 1; unfold bind at 1; rewrite Hrun, Hrow, Hact;
          unfold bind at 1; rewrite Ht, Hod, (hasAccess_run b a _ Hne);
          cbn [db now queries facilitator_calls]; rewrite Hgrant; reflexivity.
      * unfold try_catch at 1. unfold bind at 1. rewrite Hrun, Hrow, Hact.
        unfold bind at 1. cbn [truthy]. unfold ret at 1. reflexivity.
  - unfold try_catch, bind. rewrite Hrun. reflexivity.
Qed.



(** X19.  No second charge: for a paywalled block, a request whose wallet
    already has access is let through without any payment processing, even
    when it carries a payment header: the store is unchanged and the
    facilitator is not called. *)
Theorem middleware_no_second_charge (server : Server.t) (http : X402Http.t)
    (req : Request) (b : Z) (p : Paywall.t) (a : string) (w : World) :
  parse_blockId (params_id req) = Some b ->
  find (for_block b) (paywalls (db w)) = Some p ->
  Paywall.active p = true ->
  getWalletFromRequest req = Some a ->
  fst (hasAccess b a w) = Returned true ->
  exists w',
    x402PaywallMiddleware server http req w = (Returned (CallNext None), w') /\
    db w' = db w /\ facilitator_calls w' = facilitator_calls w.
Proof.
  intros Hb Hp Hact Ha Hacc.
  pose proof (middleware_gate server http req w) as Hgate.
  rewrite Hb, Hp, Hact in Hgate. cbn [negb] in Hgate.
  destruct Hgate as (x & _ & Hgate). rewrite Ha in Hgate.
  assert (Hne : a <> "").
  { pose proof (getWalletFromRequest_nonempty req a Ha) as Ht.
    cbn [truthy] in Ht. apply negb_true_iff, String.eqb_neq in Ht. exact Ht. }
  rewrite hasAccess_run in Hacc by assumption. cbn [fst] in Hacc.
  injection Hacc as Hacc. rewrite Hacc in Hgate.
  eexists. split; [exact Hgate | split; reflexivity].
Qed.

Lemma middleware_no_second_charge_witness :
  let w := snd (grantAccess 42 "0xABC" None example_world) in
  exists w',
    x402PaywallMiddleware (example_server (Threw NonError)) example_http
      (mkRequest "42" (Some "0xAbC") None None (Some "proof")) w
    = (Returned (CallNext None), w') /\
    db w' = db w /\ facilitator_calls w' = facilitator_calls w.
Proof.
  intros w.
  apply (middleware_no_second_charge (example_server (Threw NonError)) example_http
           (mkRequest "42" (Some "0xAbC") None None (Some "proof"))
           42 example_paywall "0xabc" w); reflexivity.
Defined.

(** X20.  The challenge: for a paywalled block, a request without access and
    without payment header is answered 402 with the header the x402 library
    encodes and the block's price and recipient (500 when the library
    throws); nothing is written and the facilitator is not called. *)
Theorem middleware_challenge (server : Server.t) (http : X402Http.t)
    (req : Request) (b : Z) (p : Paywall.t) (w : World) :
  parse_blockId (params_id req) = Some b ->
  find (for_block b) (paywalls (db w)) = Some p ->
  Paywall.active p = true ->
  (forall a, getWalletFromRequest req = Some a -> fst (hasAccess b a w) = Returned false) ->
  truthy (header_x_payment req) = false ->
  exists x r w',
    paywall_row x = p /\
    x402PaywallMiddleware server http req w = (Returned r, w') /\
    db w' = db w /\ facilitator_calls w' = facilitator_calls w /\
    r = match X402Http.paymentRequiredHeader http
                (generatePaymentRequirements (X402Http.baseNetworkId http) x b
                   ("/v2/blocks/" ++ integer_to_string b))
                ("/v2/blocks/" ++ integer_to_string b) with
        | Returned h =>
            Respond402 h (mkPaywallBody b (Paywall.priceUsdc p)
                            (Paywall.recipientWallet p) (ownerUsername x))
        | Threw e =>
            Respond500 (match error_message e with
                        | Some m => m
                        | None => "Unknown error"
                        end)
        end.
Proof.
  intros Hb Hp Hact Hnoacc Hnohdr.
  pose proof (middleware_gate server http req w) as Hgate.
  rewrite Hb, Hp, Hact in Hgate. cbn [negb] in Hgate.
  destruct Hgate as (x & Hrow & Hgate). exists x.
  assert (Hchal : forall w1, db w1 = db w -> facilitator_calls w1 = facilitator_calls w ->
            exists r w',
              try_catch (return402Response http x b)
                (fun error =>
                   ret (Respond500 (match error_message error with
                                    | Some m => m
                                    | None => "Unknown error"
                                    end))) w1 = (Returned r, w') /\
              db w' = db w /\ facilitator_calls w' = facilitator_calls w /\
              r = match X402Http.paymentRequiredHeader http
                          (generatePaymentRequirements (X402Http.baseNetworkId http) x b
                             ("/v2/blocks/" ++ integer_to_string b))
                          ("/v2/blocks/" ++ integer_to_string b) with
                  | Returned h =>
                      Respond402 h (mkPaywallBody b (Paywall.priceUsdc p)
                                      (Paywall.recipientWallet p) (ownerUsername x))
                  | Threw e =>
                      Respond500 (match error_message e with
                                  | Some m => m
                                  | None => "Unknown error"
                                  end)
                  end).
  { intros w1 Hdb Hcalls. unfold try_catch, return402Response. rewrite Hrow.
    destruct (X402Http.paymentRequiredHeader http _ _);
      eexists; eexists; (split; [reflexivity |]); auto. }
  rewrite Hnohdr in Hgate. cbn [negb] in Hgate.
  destruct (getWalletFromRequest req) as [a |] eqn:Ha.
  - assert (Hne : a <> "").
    { pose proof (getWalletFromRequest_nonempty req a Ha) as Ht.
      cbn [truthy] in Ht. apply negb_true_iff, String.eqb_neq in Ht. exact Ht. }
    specialize (Hnoacc a eq_refl). rewrite hasAccess_run in Hnoacc by assumption.
    cbn [fst] in Hnoacc. injection Hnoacc as Hnoacc. rewrite Hnoacc in Hgate.
    destruct (Hchal (after_queries 2 w) eq_refl eq_refl) as (r & w' & Hrun & H).
    exists r, w'. split; [exact Hrow |]. split; [congruence | exact H].
  - destruct (Hchal (after_queries 1 w) eq_refl eq_refl) as (r & w' & Hrun & H).
    exists r, w'. split; [exact Hrow |]. split; [congruence | exact H].
Qed.

Lemma middleware_challenge_witness :
  exists x r w',
    paywall_row x = example_paywall /\
    x402PaywallMiddleware (example_server (Threw NonError)) example_http
      (mkRequest "42" (Some "0xabc") None None None) example_world = (Returned r, w') /\
    db w' = db example_world /\ facilitator_calls w' = facilitator_calls example_world /\
    r = match X402Http.paymentRequiredHeader example_http
                (generatePaymentRequirements (X402Http.baseNetworkId example_http) x 42
                   ("/v2/blocks/" ++ integer_to_string 42))
                ("/v2/blocks/" ++ integer_to_string 42) with
        | Returned h =>
            Respond402 h (mkPaywallBody 42 (Paywall.priceUsdc example_paywall)
                            (Paywall.recipientWallet example_paywall) (ownerUsername x))
        | Threw e =>
            Respond500 (match error_message e with
                        | Some m => m
                        | None => "Unknown error"
                        end)
        end.
Proof.
  apply (middleware_challenge (example_server (Threw NonError)) example_http
           (mkRequest "42" (Some "0xabc") None None None) 42 example_paywall example_world);
    try reflexivity.
  intros a Ha. vm_compute in Ha. injection Ha as <-. reflexivity.
Defined.


(** The payment branch of the middleware, by the result of
    [processPayment]. *)
Lemma middleware_payment_branch (server : Server.t) (http : X402Http.t)
    (req : Request) (x : PaywallWithOwner) (b : Z) (wallet : option string) (w1 : World) :
  truthy (header_x_payment req) = true ->
  exists r w',
    processPayment server (or_default (header_x_payment req) "") x b wallet w1
    = (Returned r, w') /\
    try_catch
      (if negb (truthy (header_x_payment req))
       then return402Response http x b
       else
         result <- processPayment server (or_default (header_x_payment req) "")
                     x b wallet ;;
         if negb (result_success result)
         then ret (Respond400 (result_error result))
         else ret (CallNext
                     (if truthy (result_txHash result)
                      then Some (mkPaymentReceipt (result_paymentId result)
                                   (or_default (result_txHash result) "")
                                   (X402Http.baseNetworkId http) (result_payer result))
                      else None)))
      (fun error =>
         ret (Respond500 (match error_message error with
                          | Some m => m
                          | None => "Unknown error"
                          end))) w1
    = (Returned (if result_success r
                 then CallNext
                        (if truthy (result_txHash r)
                         then Some (mkPaymentReceipt (result_paymentId r)
                                      (or_default (result_txHash r) "")
                                      (X402Http.baseNetworkId http) (result_payer r))
                         else None)
                 else Respond400 (result_error r)), w').
Proof.
  intros Hhdr.
  destruct (processPayment_cases server (or_default (header_x_payment req) "") x b wallet w1)
    as (r & w' & Hrun & _).
  exists r, w'. split; [exact Hrun |].
  rewrite Hhdr. cbn [negb]. unfold try_catch, bind. rewrite Hrun.
  destruct (result_success r); reflexivity.
Qed.



(** X22.  A receipt opens the block: when the middleware calls [next()] with a
    payment receipt, a later request for the same block id whose wallet is
    the receipt's payer, in any letter case, is passed on without a
    receipt, without a write to the store and without a call to the
    facilitator, whatever payment header it carries. *)
Theorem middleware_receipt_opens_block (server server2 : Server.t) (http http2 : X402Http.t)
    (req req2 : Request) (receipt : PaymentReceipt) (a payer : string) (w w' w2 : World) :
  x402PaywallMiddleware server http req w = (Returned (CallNext (Some receipt)), w') ->
  db w2 = db w' ->
  params_id req2 = params_id req ->
  getWalletFromRequest req2 = Some a ->
  receipt_payer receipt = Some payer ->
  toLowerCase a = toLowerCase payer ->
  exists w3,
    x402PaywallMiddleware server2 http2 req2 w2 = (Returned (CallNext None), w3) /\
    db w3 = db w2 /\ facilitator_calls w3 = facilitator_calls w2.
Proof.
  intros Hrun Hdb Hid Ha Hpayer Hlow.
  pose proof (middleware_gate server http req w) as Hgate.
  pose proof (middleware_gate server2 http2 req2 w2) as Hgate2.
  rewrite Hid in Hgate2.
  destruct (parse_blockId (params_id req)) as [b |].
  2: { rewrite Hrun in Hgate. discriminate Hgate. }
  destruct (find (for_block b) (paywalls (db w))) as [p |] eqn:Hp.
  2: { rewrite Hrun in Hgate. discriminate Hgate. }
  destruct (Paywall.active p) eqn:Hact; cbn [negb] in Hgate.
  2: { rewrite Hrun in Hgate. discriminate Hgate. }
  destruct Hgate as (x & Hrow & Hgate).
  assert (Hpay : forall wallet n,
            x402PaywallMiddleware server http req w
            = try_catch
                (if negb (truthy (header_x_payment req))
                 then return402Response http x b
                 else
                   result <- processPayment server (or_default (header_x_payment req) "")
                               x b wallet ;;
                   if negb (result_success result)
                   then ret (Respond400 (result_error result))
                   else ret (CallNext
                               (if truthy (result_txHash result)
                                then Some (mkPaymentReceipt (result_paymentId result)
                                             (or_default (result_txHash result) "")
                                             (X402Http.baseNetworkId http)
                                             (result_payer result))
                                else None)))
                (fun error =>
                   ret (Respond500 (match error_message error with
                                    | Some m => m
                                    | None => "Unknown error"
                                    end))) (after_queries n w) ->
            paywalls (db w') = paywalls (db w) /\
            existsb (same_grant_key b (toLowerCase payer)) (accessGrants (db w')) = true).
  { intros wallet n Heq. rewrite Hrun in Heq.
    destruct (truthy (header_x_payment req)) eqn:Hhdr.
    - destruct (middleware_payment_branch server http req x b wallet (after_queries n w)
                  Hhdr) as (r & w1 & Hproc & Hbranch).
      rewrite Hhdr in Hbranch. rewrite Hbranch in Heq. clear Hbranch.
      destruct (processPayment_cases server (or_default (header_x_payment req) "") x b
                  wallet (after_queries n w))
        as (r' & w1' & Hproc' & Hpw & _ & Hcases).
      rewrite Hproc in Hproc'. injection Hproc' as <- <-.
      destruct Hcases as [(Hfail & _) | (Hok & pay & payer' & tx & pp & H)].
      + rewrite Hfail in Heq. discriminate Heq.
      + rewrite Hok in Heq.
        destruct H as (_ & _ & _ & _ & Htx & Hpy & _ & Hgrant & _).
        rewrite Htx, Hpy in Heq. cbn [truthy] in Heq.
        destruct (negb (tx =? "")%string); [| discriminate Heq].
        injection Heq as Hrec <-. subst receipt. cbn [receipt_payer] in Hpayer.
        injection Hpayer as <-. split; [exact Hpw | exact Hgrant].
    - cbn [negb] in Heq. unfold try_catch, return402Response in Heq.
      destruct (X402Http.paymentRequiredHeader http _ _); discriminate Heq. }
  assert (Hstate : paywalls (db w') = paywalls (db w) /\
                   existsb (same_grant_key b (toLowerCase payer)) (accessGrants (db w')) = true).
  { destruct (getWalletFromRequest req) as [a0 |].
    - destruct (existsb (same_grant_key b (toLowerCase a0)) (accessGrants (db w))).
      + rewrite Hrun in Hgate. discriminate Hgate.
      + exact (Hpay (Some a0) 2%nat Hgate).
    - exact (Hpay None 1%nat Hgate). }
  destruct Hstate as (Hpw & Hgrant).
  rewrite Hdb, Hpw, Hp, Hact in Hgate2. cbn [negb] in Hgate2.
  destruct Hgate2 as (x2 & _ & Hgate2).
  rewrite Ha, Hlow, Hgrant in Hgate2.
  eexists. split; [exact Hgate2 | split; reflexivity].
Qed.

Lemma middleware_receipt_opens_block_witness :
  exists w' w3,
    x402PaywallMiddleware
      (example_server (Returned (mkSettleResponse true None "0xTxHash" None))) example_http
      (mkRequest "42" (Some "0xabc") None None (Some "proof")) example_world
    = (Returned (CallNext (Some (mkPaymentReceipt (Some 1%N) "0xTxHash" "eip155:8453"
                                   (Some "0xabc")))), w') /\
    x402PaywallMiddleware
      (example_server (Returned (mkSettleResponse true None "0xOther" None))) example_http
      (mkRequest "42" None (Some "0xABC") None (Some "proof")) w'
    = (Returned (CallNext None), w3) /\
    db w3 = db w' /\ facilitator_calls w3 = facilitator_calls w'.
Proof.
  eexists.
  assert (H : x402PaywallMiddleware
                (example_server (Returned (mkSettleResponse true None "0xTxHash" None)))
                example_http
                (mkRequest "42" (Some "0xabc") None None (Some "proof")) example_world
              = (Returned (CallNext (Some (mkPaymentReceipt (Some 1%N) "0xTxHash"
                                             "eip155:8453" (Some "0xabc")))),
                 snd (x402PaywallMiddleware
                        (example_server (Returned (mkSettleResponse true None "0xTxHash" None)))
                        example_http
                        (mkRequest "42" (Some "0xabc") None None (Some "proof"))
                        example_world)))
    by (vm_compute; reflexivity).
  destruct (middleware_receipt_opens_block
              _ (example_server (Returned (mkSettleResponse true None "0xOther" None)))
              _ example_http _
              (mkRequest "42" None (Some "0xABC") None (Some "proof"))
              _ "0xabc" "0xabc" _ _ _ H eq_refl eq_refl eq_refl eq_refl eq_refl)
    as (w3 & H3 & Hdb & Hcalls).
  exists w3. split; [exact H | split; [exact H3 | split; [exact Hdb | exact Hcalls]]].
Defined.

(** ** The revenue of a paywall *)

Lemma parseFloat_decimal_10_6 (k : Z) :
  0 <= k ->
  parseFloat (decimal_10_6 k) = Num (round_binary64 (inject_Z k * (1 # 1000000))).
Proof.
  intros Hk. unfold decimal_10_6. now rewrite parseFloat_fixed_notation by lia.
Qed.

(** Rounding a value that is not negative: the relative error bound, and
    the result is not negative. *)
Lemma round_binary64_nonneg (x : Q) :
  (0 <= x)%Q ->
  (0 <= round_binary64 x /\
   x - x * eps53 <= round_binary64 x <= x + x * eps53)%Q.
Proof.
  intros Hx. destruct (Qlt_le_dec 0 x) as [Hpos | Hle].
  - pose proof (round_binary64_bounds x Hpos) as H. unfold eps53 in *. lra.
  - assert (Hz : (x == 0)%Q) by (apply Qle_antisym; assumption).
    rewrite (round_binary64_zero x Hz). unfold eps53. lra.
Qed.

(** One step of the sum: the distance to the exact sum grows by at most
    four units in the last place of the largest sum. *)
Lemma revenue_step (s err : Q) (P k Kmax : Z) :
  0 <= P -> 0 <= k -> P + k <= Kmax ->
  (0 <= s)%Q ->
  (inject_Z P * (1 # 1000000) - err <= s)%Q ->
  (s <= inject_Z P * (1 # 1000000) + err)%Q ->
  (err <= inject_Z Kmax * (1 # 1000000))%Q ->
  (0 <= round_binary64 (s + round_binary64 (inject_Z k * (1 # 1000000))) /\
   inject_Z (P + k) * (1 # 1000000)
   - (err + 4 * (inject_Z Kmax * (1 # 1000000)) * eps53)
   <= round_binary64 (s + round_binary64 (inject_Z k * (1 # 1000000))) /\
   round_binary64 (s + round_binary64 (inject_Z k * (1 # 1000000)))
   <= inject_Z (P + k) * (1 # 1000000)
      + (err + 4 * (inject_Z Kmax * (1 # 1000000)) * eps53))%Q.
Proof.
  intros HP Hk HK Hs Hlo Hhi Herr.
  rewrite inject_Z_plus.
  assert (HPq : (0 <= inject_Z P)%Q) by (change 0%Q with (inject_Z 0); now rewrite <- Zle_Qle).
  assert (Hkq : (0 <= inject_Z k)%Q) by (change 0%Q with (inject_Z 0); now rewrite <- Zle_Qle).
  assert (HKq : (inject_Z P + inject_Z k <= inject_Z Kmax)%Q)
    by (rewrite <- inject_Z_plus; now rewrite <- Zle_Qle).
  set (Pq := inject_Z P) in *. set (kq := inject_Z k) in *. set (Mq := inject_Z Kmax) in *.
  destruct (round_binary64_nonneg (kq * (1 # 1000000))) as (Ha0 & Ha1 & Ha2); [lra |].
  set (a := round_binary64 (kq * (1 # 1000000))) in *.
  destruct (round_binary64_nonneg (s + a)) as (Hx0 & Hx1 & Hx2); [lra |].
  set (x := round_binary64 (s + a)) in *.
  unfold eps53 in *. repeat split; lra.
Qed.

Lemma revenue_fold (ks : list Z) :
  forall (s err : Q) (P Kmax : Z),
    Forall (fun k => 0 <= k < 10 ^ 10) ks ->
    0 <= P -> P + fold_right Z.add 0 ks <= Kmax ->
    (0 <= s)%Q ->
    (inject_Z P * (1 # 1000000) - err <= s)%Q ->
    (s <= inject_Z P * (1 # 1000000) + err)%Q ->
    (err + inject_Z (Z.of_nat (length ks)) * (4 * (inject_Z Kmax * (1 # 1000000)) * eps53)
     <= inject_Z Kmax * (1 # 1000000))%Q ->
    exists s',
      fold_left (fun sum a => number_add sum (parseFloat a)) (map decimal_10_6 ks) (Num s)
      = Num s' /\
      (0 <= s' /\
       inject_Z (P + fold_right Z.add 0%Z ks) * (1 # 1000000)
       - (err + inject_Z (Z.of_nat (length ks))
                * (4 * (inject_Z Kmax * (1 # 1000000)) * eps53)) <= s' /\
       s' <= inject_Z (P + fold_right Z.add 0%Z ks) * (1 # 1000000)
             + (err + inject_Z (Z.of_nat (length ks))
                      * (4 * (inject_Z Kmax * (1 # 1000000)) * eps53)))%Q.
Proof.
  induction ks as [| k ks IH]; intros s err P Kmax Hall HP HK Hs Hlo Hhi Herr.
  - exists s. cbn [map fold_left fold_right length Z.of_nat] in *.
    rewrite Z.add_0_r. change (inject_Z 0) with 0%Q in *.
    split; [reflexivity |]. repeat split; lra.
  - inversion Hall as [| k' ks' Hk Hall' ]; subst.
    cbn [map fold_left fold_right length] in *.
    rewrite parseFloat_decimal_10_6 by lia. cbn [number_add].
    assert (Hsum : 0 <= fold_right Z.add 0 ks).
    { clear - Hall'. induction Hall' as [| y l Hy _ IHl]; cbn [fold_right]; lia. }
    assert (HKq : (0 <= inject_Z Kmax)%Q)
      by (change 0%Q with (inject_Z 0); rewrite <- Zle_Qle; lia).
    rewrite Nat2Z.inj_succ in Herr |- *. unfold Z.succ in Herr |- *.
    rewrite (inject_Z_plus (Z.of_nat (length ks)) 1) in Herr |- *.
    change (inject_Z 1) with 1%Q in *.
    assert (Hn : (0 <= inject_Z (Z.of_nat (length ks)))%Q)
      by (change 0%Q with (inject_Z 0); rewrite <- Zle_Qle; lia).
    set (n := inject_Z (Z.of_nat (length ks))) in *.
    set (d := (4 * (inject_Z Kmax * (1 # 1000000)) * eps53)%Q) in *.
    assert (Hd : (0 <= d)%Q) by (unfold d, eps53; lra).
    assert (Hnd : (0 <= n * d)%Q) by (apply Qmult_le_0_compat; assumption).
    assert (Herr0 : (0 <= err)%Q) by lra.
    destruct (revenue_step s err P k Kmax HP ltac:(lia) ltac:(lia) Hs Hlo Hhi ltac:(lra))
      as (Hs1 & Hlo1 & Hhi1).
    fold d in Hlo1, Hhi1.
    destruct (IH (round_binary64 (s + round_binary64 (inject_Z k * (1 # 1000000))))
                (err + d)%Q (P + k) Kmax Hall' ltac:(lia) ltac:(lia) Hs1 Hlo1 Hhi1)
      as (s' & Hfold & Hs' & Hlo' & Hhi').
    { fold d. fold n. lra. }
    exists s'. split; [exact Hfold |].
    fold d in Hlo', Hhi'. fold n in Hlo', Hhi'.
    replace (P + (k + fold_right Z.add 0 ks)) with (P + k + fold_right Z.add 0 ks) by lia.
    repeat split; lra.
Qed.

Lemma fold_left_over_map {A B C : Type} (f : A -> C -> A) (g : B -> C) (l : list B) :
  forall a, fold_left (fun acc x => f acc (g x)) l a = fold_left f (map g l) a.
Proof. induction l as [| x l IH]; intros a; cbn [fold_left map]; [reflexivity | apply IH]. Qed.

(** X16.  The revenue is exact: when the settled payments of a paywall carry
    the amounts a decimal(10,6) column holds, the total that
    [getPaywallStats] adds up in binary floating point and prints with
    six decimals is their exact decimal sum, as long as the number of
    settled payments times the total in millionths stays below 2^50 (for
    instance 100000 payments adding up to 10000 USDC); the two counts are
    the numbers of rows. *)
Theorem getPaywallStats_revenue_exact (paywallId : uuid) (w : World)
    (rows : list Payment.t) (ks : list Z) :
  fst (getPaymentsByPaywall paywallId w) = Returned rows ->
  map Payment.amountUsdc (filter is_settled rows) = map decimal_10_6 ks ->
  Forall (fun k => 0 <= k < 10 ^ 10) ks ->
  Z.of_nat (length ks) * fold_right Z.add 0 ks < 2 ^ 50 ->
  fst (getPaywallStats paywallId w)
  = Returned (mkPaywallStats (length rows) (length ks)
                (decimal_10_6 (fold_right Z.add 0 ks))).
Proof.
  intros Hrows Hamounts Hall Hsmall.
  unfold getPaywallStats, bind.
  destruct (getPaymentsByPaywall paywallId w) as [[all | e] w1] eqn:Hget;
    cbn [fst] in Hrows; [| discriminate Hrows].
  injection Hrows as ->. unfold ret. cbn [fst]. f_equal.
  assert (Hlen : length (filter is_settled rows) = length ks).
  { rewrite <- (length_map Payment.amountUsdc), Hamounts. apply length_map. }
  rewrite Hlen. f_equal.
  rewrite (fold_left_over_map (fun sum a => number_add sum (parseFloat a))
             Payment.amountUsdc), Hamounts.
  set (K := fold_right Z.add 0 ks) in *.
  assert (HK : 0 <= K).
  { subst K. clear - Hall. induction Hall as [| y l Hy _ IHl]; cbn [fold_right]; lia. }
  assert (HKq : (0 <= inject_Z K)%Q)
    by (change 0%Q with (inject_Z 0); now rewrite <- Zle_Qle).
  assert (Hn : (0 <= inject_Z (Z.of_nat (length ks)))%Q)
    by (change 0%Q with (inject_Z 0); rewrite <- Zle_Qle; lia).
  assert (Hprod : (inject_Z (Z.of_nat (length ks)) * inject_Z K < 1125899906842624)%Q).
  { rewrite <- inject_Z_mult. change 1125899906842624%Q with (inject_Z (2 ^ 50)).
    now rewrite <- Zlt_Qlt. }
  assert (Hd : (inject_Z (Z.of_nat (length ks))
                * (4 * (inject_Z K * (1 # 1000000)) * eps53)
                == (4 # 1000000) * eps53 * (inject_Z (Z.of_nat (length ks)) * inject_Z K))%Q)
    by (unfold eps53; ring).
  assert (Hbudget : (0 + inject_Z (Z.of_nat (length ks))
                         * (4 * (inject_Z K * (1 # 1000000)) * eps53)
                     <= inject_Z K * (1 # 1000000))%Q).
  { destruct (Z.eq_dec K 0) as [HK0 | HK0].
    - rewrite HK0. change (inject_Z 0) with 0%Q. apply Qle_lteq. right. unfold eps53. ring.
    - assert (H1 : (1 <= inject_Z K)%Q)
        by (change 1%Q with (inject_Z 1); rewrite <- Zle_Qle; lia).
      rewrite Hd.
      set (NK := (inject_Z (Z.of_nat (length ks)) * inject_Z K)%Q) in *.
      unfold eps53. lra. }
  assert (H00 : (0 <= 0)%Q) by lra.
  assert (H0lo : (inject_Z 0 * (1 # 1000000) - 0 <= 0)%Q)
    by (change (inject_Z 0) with 0%Q; lra).
  assert (H0hi : (0 <= inject_Z 0 * (1 # 1000000) + 0)%Q)
    by (change (inject_Z 0) with 0%Q; lra).
  assert (H0K : 0 + K <= K) by lia.
  destruct (revenue_fold ks 0%Q 0%Q 0 K Hall (Z.le_refl 0) H0K H00 H0lo H0hi Hbudget)
    as (s' & Hfold & Hs' & Hlo & Hhi).
  rewrite Hfold, toFixed_nonneg by exact Hs'.
  unfold decimal_10_6. f_equal.
  change (inject_Z (10 ^ Z.of_nat 6)) with 1000000%Q.
  rewrite Z.add_0_l in Hlo, Hhi. fold K in Hlo, Hhi.
  assert (Hlo' : (inject_Z K * (1 # 1000000)
                  - (4 # 1000000) * eps53
                    * (inject_Z (Z.of_nat (length ks)) * inject_Z K) <= s')%Q)
    by (rewrite <- Hd; lra).
  assert (Hhi' : (s' <= inject_Z K * (1 # 1000000)
                        + (4 # 1000000) * eps53
                          * (inject_Z (Z.of_nat (length ks)) * inject_Z K))%Q)
    by (rewrite <- Hd; lra).
  clear Hlo Hhi Hd Hbudget.
  set (NK := (inject_Z (Z.of_nat (length ks)) * inject_Z K)%Q) in *.
  unfold eps53 in *.
  apply Qfloor_unique; lra.
Qed.

(** ** The proxy routes *)

Lemma getBlockAccessStatus_run (b : Z) (wallet : option string) (w : World) :
  getBlockAccessStatus b wallet w
  = match find (is_active_for b) (paywalls (db w)) with
    | None => (Returned (mkBlockAccessStatus b false true None None), after_queries 1 w)
    | Some p0 =>
        if truthy wallet
        then (Returned (mkBlockAccessStatus b true
                          (existsb (same_grant_key b (toLowerCase (or_default wallet "")))
                             (accessGrants (db w)))
                          (Some (Paywall.priceUsdc p0)) (Some (Paywall.recipientWallet p0))),
              after_queries 2 w)
        else (Returned (mkBlockAccessStatus b true false
                          (Some (Paywall.priceUsdc p0)) (Some (Paywall.recipientWallet p0))),
              after_queries 1 w)
    end.
Proof.
  unfold getBlockAccessStatus, after_queries.
  unfold bind at 1. unfold select_from, statement, limit.
  cbn [db now queries facilitator_calls].
  pose proof (find_filter (is_active_for b) (paywalls (db w))) as Hf.
  destruct (find (is_active_for b) (paywalls (db w))) as [p0 |].
  - destruct Hf as [r Hf]. rewrite Hf. cbn [firstn].
    destruct wallet as [a |]; cbn [truthy].
    + destruct (negb (a =? "")%string) eqn:Ha.
      * unfold bind. rewrite hasAccess_run
          by (apply negb_true_iff, String.eqb_neq in Ha; exact Ha).
        unfold ret, or_default, or_else. cbn [db now queries facilitator_calls truthy].
        rewrite Ha. reflexivity.
      * reflexivity.
    + reflexivity.
  - rewrite Hf. reflexivity.
Qed.

(** X23.  The block route shows content only for free or paid blocks: when the
    response of [GET /blocks/:id] is the block's content, the block has
    no active paywall or the wallet of the request holds a grant for it;
    the content is the block the Are.na client returned for that id, with
    the price and the activity flag of the block's paywall row, if it has
    one, and the store is as before. *)
Theorem get_blocks_id_content_is_justified (arena : ArenaClient.t) (req : Request)
    (out : BlockWithPaywall) (w w' : World) :
  get_blocks_id arena req w = (Returned (BlockContent out), w') ->
  exists id,
    parse_blockId (params_id req) = Some id /\
    ArenaClient.getBlock arena id = ArenaReturned (arena_block out) /\
    (find (is_active_for id) (paywalls (db w)) = None \/
     exists a, getWalletFromRequest req = Some a /\
               fst (hasAccess id a w) = Returned true) /\
    _paywall out
    = match find (for_block id) (paywalls (db w)) with
      | Some p => Some (mkPaywallMetadata (Paywall.active p) (Paywall.priceUsdc p) "USDC")
      | None => None
      end /\
    db w' = db w.
Proof.
  unfold get_blocks_id. intros Hrun.
  destruct (parse_blockId (params_id req)) as [id |]; [| discriminate Hrun].
  exists id. split; [reflexivity |].
  unfold bind at 1 in Hrun. rewrite getBlockAccessStatus_run in Hrun.
  assert (Hcontent : forall n,
            (match ArenaClient.getBlock arena id with
             | ArenaReturned block =>
                 paywall <- getPaywallByBlockId id ;;
                 ret (BlockContent
                        (mkBlockWithPaywall block
                           (match paywall with
                            | Some x =>
                                Some (mkPaywallMetadata (Paywall.active (paywall_row x))
                                        (Paywall.priceUsdc (paywall_row x)) "USDC")
                            | None => None
                            end)))
             | ArenaThrew error => ret (handleArenaError error)
             end) (after_queries n w) = (Returned (BlockContent out), w') ->
            ArenaClient.getBlock arena id = ArenaReturned (arena_block out) /\
            _paywall out
            = match find (for_block id) (paywalls (db w)) with
              | Some p => Some (mkPaywallMetadata (Paywall.active p) (Paywall.priceUsdc p)
                                  "USDC")
              | None => None
              end /\
            db w' = db w).
  { intros n H. destruct (ArenaClient.getBlock arena id) as [block | error].
    - unfold bind, ret in H.
      pose proof (getPaywallByBlockId_run id (after_queries n w)) as Hget.
      cbn [after_queries db] in Hget.
      destruct (find (for_block id) (paywalls (db w))) as [p |].
      + destruct Hget as (x & Hget & Hrow). rewrite Hget in H.
        injection H as <- <-. rewrite Hrow. repeat split; reflexivity.
      + rewrite Hget in H. injection H as <- <-. repeat split; reflexivity.
    - unfold ret in H. destruct error; discriminate H. }
  destruct (find (is_active_for id) (paywalls (db w))) as [p0 |] eqn:Hactive.
  - destruct (truthy (getWalletFromRequest req)) eqn:Hw.
    + cbn [isPaywalled status_hasAccess andb] in Hrun.
      destruct (existsb (same_grant_key id
                           (toLowerCase (or_default (getWalletFromRequest req) "")))
                  (accessGrants (db w))) eqn:Hgrant; cbn [negb] in Hrun.
      * destruct (Hcontent 2%nat Hrun) as (Hblock & Hmeta & Hdb).
        split; [exact Hblock | split; [| split; [exact Hmeta | exact Hdb]]].
        right. destruct (getWalletFromRequest req) as [a |]; [| discriminate Hw].
        exists a. split; [reflexivity |].
        assert (Hne : a <> "").
        { cbn [truthy] in Hw. apply negb_true_iff, String.eqb_neq in Hw. exact Hw. }
        rewrite hasAccess_run by exact Hne. cbn [fst].
        unfold or_default, or_else in Hgrant. rewrite Hw in Hgrant. now rewrite Hgrant.
      * unfold bind, ret in Hrun.
        destruct (getPaywallByBlockId id (after_queries 2 w)) as [[x | e] w1];
          discriminate Hrun.
    + cbn [isPaywalled status_hasAccess andb negb] in Hrun.
      unfold bind, ret in Hrun.
      destruct (getPaywallByBlockId id (after_queries 1 w)) as [[x | e] w1];
        discriminate Hrun.
  - cbn [isPaywalled andb] in Hrun.
    destruct (Hcontent 1%nat Hrun) as (Hblock & Hmeta & Hdb).
    split; [exact Hblock | split; [now left | split; [exact Hmeta | exact Hdb]]].
Qed.

Lemma get_blocks_id_content_witness :
  exists id,
    parse_blockId "5" = Some id /\
    ArenaClient.getBlock example_arena id = ArenaReturned (mkArenaBlock 5 "a text block") /\
    (find (is_active_for id) (paywalls (db example_world)) = None \/
     exists a, getWalletFromRequest (mkRequest "5" None None None None) = Some a /\
               fst (hasAccess id a example_world) = Returned true) /\
    None
    = match find (for_block id) (paywalls (db example_world)) with
      | Some p => Some (mkPaywallMetadata (Paywall.active p) (Paywall.priceUsdc p) "USDC")
      | None => None
      end /\
    db (after_queries 2 example_world) = db example_world.
Proof.
  exact (get_blocks_id_content_is_justified example_arena
           (mkRequest "5" None None None None)
           (mkBlockWithPaywall (mkArenaBlock 5 "a text block") None)
           example_world (after_queries 2 example_world) eq_refl).
Defined.

(** X24.  A paywalled block is not fetched for a wallet without a grant: with an
    active paywall and no grant for the wallet of the request (or no
    wallet), the response is 402 with the price and the recipient of the
    paywall, whatever the Are.na client would answer, and the store is as
    before. *)
Theorem get_blocks_id_payment_required (arena : ArenaClient.t) (req : Request)
    (id : Z) (p0 : Paywall.t) (w : World) :
  parse_blockId (params_id req) = Some id ->
  find (is_active_for id) (paywalls (db w)) = Some p0 ->
  (forall a, getWalletFromRequest req = Some a -> fst (hasAccess id a w) = Returned false) ->
  exists owner w',
    get_blocks_id arena req w
    = (Returned (PaymentRequired id (Some (Paywall.priceUsdc p0))
                   (Some (Paywall.recipientWallet p0)) owner), w') /\
    db w' = db w.
Proof.
  intros Hid Hactive Hnone. unfold get_blocks_id. rewrite Hid.
  unfold bind at 1. rewrite getBlockAccessStatus_run, Hactive.
  assert (Hgrant : truthy (getWalletFromRequest req) = true ->
                   existsb (same_grant_key id
                              (toLowerCase (or_default (getWalletFromRequest req) "")))
                     (accessGrants (db w)) = false).
  { intros Hw. destruct (getWalletFromRequest req) as [a |]; [| discriminate Hw].
    specialize (Hnone a eq_refl).
    assert (Hne : a <> "").
    { cbn [truthy] in Hw. apply negb_true_iff, String.eqb_neq in Hw. exact Hw. }
    rewrite hasAccess_run in Hnone by exact Hne. cbn [fst] in Hnone.
    injection Hnone as Hnone. unfold or_default, or_else. rewrite Hw. exact Hnone. }
  assert (Hlookup : forall n,
            exists x, getPaywallByBlockId id (after_queries n w)
                      = (Returned x, after_queries (S n) w)).
  { intros n. pose proof (getPaywallByBlockId_run id (after_queries n w)) as Hget.
    cbn [after_queries db now queries facilitator_calls] in Hget.
    destruct (find (for_block id) (paywalls (db w))) as [p |].
    - destruct Hget as (x & Hget & _). exists (Some x). exact Hget.
    - exists None. exact Hget. }
  destruct (truthy (getWalletFromRequest req)) eqn:Hw.
  - rewrite (Hgrant eq_refl). cbn [isPaywalled status_hasAccess andb negb].
    destruct (Hlookup 2%nat) as (x & Hx). unfold bind, ret. rewrite Hx.
    eexists. eexists. split; [reflexivity | reflexivity].
  - cbn [isPaywalled status_hasAccess andb negb].
    destruct (Hlookup 1%nat) as (x & Hx). unfold bind, ret. rewrite Hx.
    eexists. eexists. split; [reflexivity | reflexivity].
Qed.

Lemma get_blocks_id_payment_required_witness :
  exists owner w',
    get_blocks_id example_arena (mkRequest "42" (Some "0xabc") None None None) example_world
    = (Returned (PaymentRequired 42 (Some "0.050000")
                   (Some (Paywall.recipientWallet example_paywall)) owner), w') /\
    db w' = db example_world.
Proof.
  apply (get_blocks_id_payment_required example_arena
           (mkRequest "42" (Some "0xabc") None None None) 42 example_paywall example_world
           eq_refl eq_refl).
  intros a Ha. injection Ha as <-. reflexivity.
Defined.

(** X25.  Paywall metadata of a list of blocks: the blocks come back in the
    same order with their fields untouched, a block carries metadata
    exactly when it has an active paywall, the metadata shows that
    paywall's price with [active] true, and the store is as before. *)
Theorem injectPaywallMetadata_marks_active_paywalls (blocks : list ArenaBlock) (w : World) :
  exists out w',
    injectPaywallMetadata blocks w = (Returned out, w') /\
    db w' = db w /\
    map arena_block out = blocks /\
    forall o, In o out ->
      _paywall o
      = match find (is_active_for (arena_id (arena_block o))) (paywalls (db w)) with
        | Some p0 => Some (mkPaywallMetadata true (Paywall.priceUsdc p0) "USDC")
        | None => None
        end.
Proof.
  destruct blocks as [| b0 blocks].
  - exists [], w. repeat split; try reflexivity. intros o [].
  - unfold injectPaywallMetadata, bind, ret.
    rewrite getPaywallsForBlocks_run.
    eexists. eexists. split; [reflexivity |].
    split; [reflexivity |]. split.
    + rewrite map_map. cbn [arena_block]. apply map_id.
    + intros o Ho. apply in_map_iff in Ho as (blk & <- & Hin).
      cbn [_paywall arena_block].
      destruct (getPaywallsForBlocks_mapping (map arena_id (b0 :: blocks)) w (arena_id blk))
        as (m & w1 & Hrun & Hget).
      rewrite getPaywallsForBlocks_run in Hrun. injection Hrun as <- _.
      change (fold_left (lookup_step (paywalls (db w))) (map arena_id blocks)
                (lookup_step (paywalls (db w)) [] (arena_id b0)))
        with (fold_left (lookup_step (paywalls (db w))) (map arena_id (b0 :: blocks)) [])
        in Hget.
      rewrite Hget.
      destruct (find (is_active_for (arena_id blk)) (paywalls (db w))); [| reflexivity].
      match goal with
      | |- context [existsb ?f ?l] => assert (Hmem : existsb f l = true)
      end.
      { apply existsb_exists. exists (arena_id blk). split; [| apply Z.eqb_refl].
        apply (in_map arena_id). exact Hin. }
      rewrite Hmem. reflexivity.
Qed.

Lemma getPaywallStats_revenue_exact_witness :
  fst (getPaywallStats 9%N example_ledger)
  = Returned (mkPaywallStats 3 2 "0.300000").
Proof.
  change (fst (getPaywallStats 9%N example_ledger)
          = Returned (mkPaywallStats (length (payments (db example_ledger)))
                        (length [100000; 200000])
                        (decimal_10_6 (fold_right Z.add 0 [100000; 200000])))).
  apply getPaywallStats_revenue_exact.
  - reflexivity.
  - reflexivity.
  - apply Forall_cons; [lia | apply Forall_cons; [lia | apply Forall_nil]].
  - reflexivity.
Defined.

(** ** Wallet addresses *)

Lemma is_hex_lower_ascii (c : ascii) : is_hex c = true -> is_hex (lower_ascii c) = true.
Proof.
  destruct c as [[] [] [] [] [] [] [] []]; intros H; try discriminate H; reflexivity.
Qed.

Lemma all_hex_toLowerCase (s : string) :
  all_hex s = true -> all_hex (toLowerCase s) = true.
Proof.
  induction s as [| c s IH]; cbn [all_hex toLowerCase]; [reflexivity |].
  intros H. apply andb_true_iff in H as [Hc Hs].
  now rewrite (is_hex_lower_ascii c Hc), (IH Hs).
Qed.

Lemma length_toLowerCase (s : string) : String.length (toLowerCase s) = String.length s.
Proof. induction s as [| c s IH]; cbn [toLowerCase String.length]; congruence. Qed.

Lemma valid_address_inv (a : string) :
  isValidEthereumAddress a = true ->
  exists r, a = String "0" (String "x" r) /\ all_hex r = true /\ String.length r = 40%nat.
Proof.
  intros H.
  destruct a as [| c1 a]; [discriminate H |].
  destruct a as [| c2 r];
    [destruct c1 as [[] [] [] [] [] [] [] []]; discriminate H |].
  destruct c1 as [[] [] [] [] [] [] [] []]; try discriminate H;
    destruct c2 as [[] [] [] [] [] [] [] []]; try discriminate H.
  cbn in H. apply andb_true_iff in H as [Hhex Hlen].
  apply Nat.eqb_eq in Hlen. exists r. split; [reflexivity | split; assumption].
Qed.

(** X26.  A valid address has the 42 characters of the [varchar(42)] wallet
    columns, is never the empty string, and stays valid when it is
    lower-cased, as the payment check and the access ledger do. *)
Theorem isValidEthereumAddress_shape (a : string) :
  isValidEthereumAddress a = true ->
  String.length a = 42%nat /\ a <> "" /\ isValidEthereumAddress (toLowerCase a) = true.
Proof.
  intros H. destruct (valid_address_inv a H) as (r & -> & Hhex & Hlen).
  split; [cbn [String.length]; now rewrite Hlen |].
  split; [discriminate |].
  change (toLowerCase (String "0" (String "x" r)))
    with (String "0" (String "x" (toLowerCase r))).
  unfold isValidEthereumAddress.
  rewrite (all_hex_toLowerCase r Hhex), length_toLowerCase, Hlen. reflexivity.
Qed.

Lemma isValidEthereumAddress_shape_witness :
  String.length "0x833589fCD6eDb6E08f4c7C32D4f71b54bdA02913" = 42%nat /\
  "0x833589fCD6eDb6E08f4c7C32D4f71b54bdA02913" <> "" /\
  isValidEthereumAddress (toLowerCase "0x833589fCD6eDb6E08f4c7C32D4f71b54bdA02913") = true.
Proof.
  exact (isValidEthereumAddress_shape "0x833589fCD6eDb6E08f4c7C32D4f71b54bdA02913" eq_refl).
Defined.

Lemma filter_update_users (other u : uuid) (addr : string) (t : timestamp)
    (rows : list User.t) :
  filter (has_user_id other) (update_rows (set_wallet addr t) (has_user_id u) rows)
  = map (fun r => if has_user_id u r then set_wallet addr t r else r)
      (filter (has_user_id other) rows).
Proof.
  unfold update_rows. induction rows as [| r rows IH]; [reflexivity |].
  cbn [map filter].
  assert (Hid : has_user_id other (if has_user_id u r then set_wallet addr t r else r)
                = has_user_id other r)
    by (destruct (has_user_id u r); reflexivity).
  rewrite Hid. destruct (has_user_id other r); cbn [map]; now rewrite IH.
Qed.

Lemma updateWalletAddress_run (u : uuid) (addr : string) (w : World) :
  updateWalletAddress u addr w
  = (Returned (hd_error (map (set_wallet addr (now w))
                           (filter (has_user_id u) (users (db w))))),
     mkWorld (with_users (db w)
                (update_rows (set_wallet addr (now w)) (has_user_id u) (users (db w))))
       (now w) (S (queries w)) (facilitator_calls w)).
Proof. reflexivity. Qed.

Lemma wallet_on_file_after_update (u : uuid) (addr : string) (w : World) :
  wallet_on_file (db (snd (updateWalletAddress u addr w))) u
  = if existsb (has_user_id u) (users (db w)) then Some addr else None.
Proof.
  rewrite updateWalletAddress_run. cbn [snd db]. unfold wallet_on_file, with_users.
  cbn [users]. rewrite filter_update_users.
  destruct (filter (has_user_id u) (users (db w))) as [| r rest] eqn:Hf.
  - apply filter_nil_existsb in Hf. now rewrite Hf.
  - assert (He : existsb (has_user_id u) (users (db w)) = true).
    { destruct (existsb _ _) eqn:He; [reflexivity |].
      apply filter_nil_existsb in He. congruence. }
    rewrite He. cbn [map].
    assert (Hr : has_user_id u r = true).
    { assert (Hin : In r (filter (has_user_id u) (users (db w))))
        by (rewrite Hf; now left).
      apply filter_In in Hin. apply Hin. }
    rewrite Hr. reflexivity.
Qed.

(** X27.  Setting a wallet changes one user: [updateWalletAddress] rewrites the
    wallet and the update time of the rows with the given id and of no
    other row (the rows of every other user, the paywalls, the payments
    and the grants are as before), returns the updated row, and the
    wallet a later [createPaywall] finds on file for this user is the new
    one; for an id with no row it returns null and the store is as
    before. *)
Theorem updateWalletAddress_changes_one_user (u : uuid) (addr : string) (w : World) :
  exists r w',
    updateWalletAddress u addr w = (Returned r, w') /\
    paywalls (db w') = paywalls (db w) /\
    payments (db w') = payments (db w) /\
    accessGrants (db w') = accessGrants (db w) /\
    map User.id (users (db w')) = map User.id (users (db w)) /\
    (forall other, other <> u ->
       filter (has_user_id other) (users (db w'))
       = filter (has_user_id other) (users (db w))) /\
    match r with
    | Some row =>
        User.id row = u /\ User.walletAddress row = Some addr /\
        User.updatedAt row = now w /\ wallet_on_file (db w') u = Some addr
    | None => existsb (has_user_id u) (users (db w)) = false /\ db w' = db w
    end.
Proof.
  pose proof (wallet_on_file_after_update u addr w) as Hfile.
  rewrite updateWalletAddress_run in *. cbn [snd] in Hfile.
  eexists. eexists. split; [reflexivity |].
  cbn [db]. unfold with_users. cbn [paywalls payments accessGrants users].
  split; [reflexivity |]. split; [reflexivity |]. split; [reflexivity |].
  split.
  { unfold update_rows. rewrite map_map. apply map_ext.
    intros r. destruct (has_user_id u r); reflexivity. }
  split.
  { intros other Hother. rewrite filter_update_users.
    rewrite <- (map_id (filter (has_user_id other) (users (db w)))) at 2.
    apply map_ext_in. intros r Hr. apply filter_In in Hr as [_ Hr].
    unfold has_user_id in *. apply N.eqb_eq in Hr.
    destruct (User.id r =? u)%N eqn:Hu; [| reflexivity].
    apply N.eqb_eq in Hu. congruence. }
  destruct (filter (has_user_id u) (users (db w))) as [| r rest] eqn:Hf; cbn [map hd_error].
  - pose proof Hf as He. apply filter_nil_existsb in He. split; [exact He |].
    rewrite update_rows_untouched.
    + destruct w as [[us ps pays gs] t q calls]. reflexivity.
    + intros q Hq. destruct (has_user_id u q) eqn:Hqu; [| reflexivity].
      assert (Hin : In q (filter (has_user_id u) (users (db w))))
        by (apply filter_In; split; assumption).
      rewrite Hf in Hin. destruct Hin.
  - assert (Hr : has_user_id u r = true).
    { assert (Hin : In r (filter (has_user_id u) (users (db w))))
        by (rewrite Hf; now left).
      apply filter_In in Hin. apply Hin. }
    cbn [set_wallet User.id User.walletAddress User.updatedAt].
    split; [unfold has_user_id in Hr; now apply N.eqb_eq in Hr |].
    split; [reflexivity |]. split; [reflexivity |].
    unfold with_users in Hfile. cbn [db] in Hfile. rewrite Hfile.
    assert (He : existsb (has_user_id u) (users (db w)) = true).
    { apply existsb_exists. exists r. split; [| exact Hr].
      assert (Hin : In r (filter (has_user_id u) (users (db w))))
        by (rewrite Hf; now left).
      apply filter_In in Hin. apply Hin. }
    now rewrite He.
Qed.

(** X28.  No wallet, no paywall: after the wallet of a user was removed (the
    wallet route does it with [updateWalletAddress(userId, "")]), a
    [createPaywall] of this user that names no recipient wallet and
    passes the price check throws NO_WALLET and writes nothing. *)
Theorem createPaywall_after_wallet_removed (params : CreatePaywallParams) (w : World) :
  truthy (create_recipientWallet params) = false ->
  number_lt (parseFloat (create_priceUsdc params)) (parseFloat MIN_PRICE_USDC) = false ->
  exists r w1 w2,
    updateWalletAddress (create_ownerUserId params) "" w = (r, w1) /\
    createPaywall params w1 = (Threw no_wallet_error, w2) /\ db w2 = db w1.
Proof.
  intros Hgiven Hprice.
  pose proof (wallet_on_file_after_update (create_ownerUserId params) "" w) as Hfile.
  destruct (updateWalletAddress (create_ownerUserId params) "" w) as [r w1].
  cbn [snd] in Hfile. exists r, w1.
  pose proof (createPaywall_run params w1) as Hrun. cbv zeta in Hrun.
  rewrite Hprice, Hgiven in Hrun. cbv beta iota in Hrun. rewrite Hfile in Hrun.
  assert (Hfalsy : truthy (if existsb (has_user_id (create_ownerUserId params))
                                (users (db w))
                           then Some "" else None) = false)
    by (destruct (existsb _ _); reflexivity).
  rewrite Hfalsy in Hrun. cbn [negb] in Hrun.
  eexists. split; [reflexivity |]. split; [exact Hrun | reflexivity].
Qed.

Lemma createPaywall_after_wallet_removed_witness :
  exists r w1 w2,
    updateWalletAddress 7%N "" example_users_world = (r, w1) /\
    createPaywall (mkCreatePaywallParams 43 7%N "0.050000" None) w1
    = (Threw no_wallet_error, w2) /\ db w2 = db w1.
Proof.
  exact (createPaywall_after_wallet_removed
           (mkCreatePaywallParams 43 7%N "0.050000" None) example_users_world
           eq_refl eq_refl).
Defined.



(** ** The paywall routes *)


(** ** The listings of the access ledger *)

Lemma filter_has_member {A} (f : A -> bool) (x : A) (l : list A) :
  In x l -> f x = true -> (1 <= length (filter f l))%nat.
Proof.
  intros Hin Hf.
  assert (H : In x (filter f l)) by (apply filter_In; split; assumption).
  destruct (filter f l); [destruct H | cbn [length]; lia].
Qed.

Lemma unique_block_payer_tail (r : AccessGrant.t) (rows : list AccessGrant.t) :
  unique_block_payer (r :: rows) -> unique_block_payer rows.
Proof.
  intros H b a. specialize (H b a). cbn [filter] in H.
  destruct (same_grant_key b a r); cbn [length] in H; lia.
Qed.

Lemma listing_has_distinct_keys {K} (key : AccessGrant.t -> K) (sel : AccessGrant.t -> bool)
    (rows : list AccessGrant.t) :
  (forall g g', sel g = true -> sel g' = true -> key g = key g' ->
     exists b a, same_grant_key b a g = true /\ same_grant_key b a g' = true) ->
  unique_block_payer rows ->
  NoDup (map key (filter sel rows)).
Proof.
  intros Hkey. induction rows as [| r rows IH]; intros Huniq; [constructor |].
  pose proof (IH (unique_block_payer_tail r rows Huniq)) as Hrest.
  cbn [filter]. destruct (sel r) eqn:Hr; [| exact Hrest].
  cbn [map]. constructor; [| exact Hrest].
  intros Hin. apply in_map_iff in Hin as (g & Hk & Hg).
  apply filter_In in Hg as [Hg Hsel].
  destruct (Hkey g r Hsel Hr Hk) as (b & a & Hgb & Hrb).
  specialize (Huniq b a). cbn [filter] in Huniq. rewrite Hrb in Huniq.
  pose proof (filter_has_member (same_grant_key b a) g rows Hg Hgb).
  cbn [length] in Huniq. lia.
Qed.

(** X5.  The two listings of the ledger agree with [hasAccess]: under the
    store's unique (block, wallet) constraint, the grants listed for a
    wallet name each block once and the grants listed for a block name
    each wallet once; a wallet has access to a block exactly when the
    block is in the wallet's listing, and exactly when the lower-cased
    wallet is in the block's listing.  Neither listing writes. *)
Theorem access_listings_agree_with_hasAccess (b : Z) (a : string) (w : World) :
  a <> "" ->
  unique_block_payer (accessGrants (db w)) ->
  exists byWallet byBlock w1 w2,
    getAccessGrantsByWallet a w = (Returned byWallet, w1) /\
    getAccessGrantsByBlock b w = (Returned byBlock, w2) /\
    db w1 = db w /\ db w2 = db w /\
    NoDup (map AccessGrant.blockId byWallet) /\
    NoDup (map AccessGrant.payerWallet byBlock) /\
    (fst (hasAccess b a w) = Returned true <-> In b (map AccessGrant.blockId byWallet)) /\
    (fst (hasAccess b a w) = Returned true
     <-> In (toLowerCase a) (map AccessGrant.payerWallet byBlock)).
Proof.
  intros Ha Huniq.
  unfold getAccessGrantsByWallet, getAccessGrantsByBlock. io_unfold.
  eexists. eexists. eexists. eexists.
  split; [reflexivity |]. split; [reflexivity |].
  split; [reflexivity |]. split; [reflexivity |].
  rewrite hasAccess_run by exact Ha. cbn [fst].
  assert (Hacc : Returned (existsb (same_grant_key b (toLowerCase a)) (accessGrants (db w)))
                 = Returned true
                 <-> exists g, In g (accessGrants (db w)) /\
                               AccessGrant.blockId g = b /\
                               AccessGrant.payerWallet g = toLowerCase a).
  { split.
    - intros H. injection H as H. apply existsb_exists in H as (g & Hg & Hkey).
      exists g. split; [exact Hg | now apply same_grant_key_true].
    - intros (g & Hg & Hb & Hp). f_equal. apply existsb_exists. exists g.
      split; [exact Hg |]. unfold same_grant_key.
      rewrite Hb, Hp, Z.eqb_refl, String.eqb_refl. reflexivity. }
  split.
  { apply listing_has_distinct_keys; [| exact Huniq].
    intros g g' Hg Hg' Hk. apply String.eqb_eq in Hg, Hg'.
    exists (AccessGrant.blockId g), (toLowerCase a). unfold same_grant_key.
    rewrite <- Hk, Hg, Hg', Z.eqb_refl, String.eqb_refl. split; reflexivity. }
  split.
  { apply listing_has_distinct_keys; [| exact Huniq].
    intros g g' Hg Hg' Hk. apply Z.eqb_eq in Hg, Hg'.
    exists b, (AccessGrant.payerWallet g). unfold same_grant_key.
    rewrite <- Hk, Hg, Hg', Z.eqb_refl, String.eqb_refl. split; reflexivity. }
  split.
  - rewrite Hacc, in_map_iff. split.
    + intros (g & Hg & Hb & Hp). exists g. split; [exact Hb |].
      apply filter_In. split; [exact Hg | now apply String.eqb_eq].
    + intros (g & Hb & Hg). apply filter_In in Hg as [Hg Hp].
      apply String.eqb_eq in Hp. exists g. repeat split; assumption.
  - rewrite Hacc, in_map_iff. split.
    + intros (g & Hg & Hb & Hp). exists g. split; [exact Hp |].
      apply filter_In. split; [exact Hg | now apply Z.eqb_eq].
    + intros (g & Hp & Hg). apply filter_In in Hg as [Hg Hb].
      apply Z.eqb_eq in Hb. exists g. repeat split; assumption.
Qed.

Lemma access_listings_agree_witness :
  exists byWallet byBlock w1 w2,
    getAccessGrantsByWallet "0xABC" example_granted_world = (Returned byWallet, w1) /\
    getAccessGrantsByBlock 42 example_granted_world = (Returned byBlock, w2) /\
    db w1 = db example_granted_world /\ db w2 = db example_granted_world /\
    NoDup (map AccessGrant.blockId byWallet) /\
    NoDup (map AccessGrant.payerWallet byBlock) /\
    (fst (hasAccess 42 "0xABC" example_granted_world) = Returned true
     <-> In 42 (map AccessGrant.blockId byWallet)) /\
    (fst (hasAccess 42 "0xABC" example_granted_world) = Returned true
     <-> In (toLowerCase "0xABC") (map AccessGrant.payerWallet byBlock)).
Proof.
  apply (access_listings_agree_with_hasAccess 42 "0xABC" example_granted_world).
  - discriminate.
  - intros b a. unfold example_granted_world. cbn [db accessGrants filter].
    destruct (same_grant_key b a _); cbn [length]; lia.
Defined.
